(** * Flight of the Toasters: the sprite selector, the animation controller
      and the scene composer

    A shallow embedding of the JavaScript sources

    - [modes/NormalMode.js] and [modes/ChristmasMode.js] ([chooseImageType],
      [imagesToLoad], [preloadImages]),
    - [components/FlyingItem.js] ([generateRandomPath], [moveItem],
      [playRandomPoliceSound], the timeouts and the render's reads of the
      image cache),
    - [App.js] ([fetchData], [fetchDataAndUpdate], [handleKeyPress],
      [unmuteAudio], the render) and the single-file variant of the
      application ([imgType], [preloadImages]),

    followed by the properties of the specification that concern them and
    by further properties of the code. *)

From Stdlib Require Import ZArith QArith Qround Lqa Lia.
From Stdlib Require Import Bool String List.
From ExtLib Require Import Structures.Monad Structures.MonadState.
From ExtLib Require Import Data.Monads.StateMonad.
Import ListNotations.
Import MonadNotation.

Local Open Scope string_scope.
Local Open Scope monad_scope.

(** ** JavaScript numbers

    A JavaScript number is a finite value, one of the two infinities, or NaN.
    Finite values are kept as exact rationals: the rounding of binary64
    arithmetic, overflow and the sign of zero are not part of this model (a
    zero divisor is taken as [+0]). *)

Module Js.

Local Open Scope Q_scope.

Inductive number : Type :=
| Fin (q : Q)
| Infinity (negative : bool)
| NaN.

Definition Qltb (a b : Q) : bool :=
  match a ?= b with Lt => true | _ => false end.

Definition Qis_zero (a : Q) : bool :=
  match a ?= 0 with Eq => true | _ => false end.

(** Unary minus. *)
Definition neg (x : number) : number :=
  match x with
  | Fin a => Fin (- a)
  | Infinity s => Infinity (negb s)
  | NaN => NaN
  end.

(** [x + y] *)
Definition add (x y : number) : number :=
  match x, y with
  | Fin a, Fin b => Fin (a + b)
  | Fin _, Infinity s | Infinity s, Fin _ => Infinity s
  | Infinity s, Infinity t => if Bool.eqb s t then Infinity s else NaN
  | NaN, _ | _, NaN => NaN
  end.

(** [x - y] *)
Definition sub (x y : number) : number := add x (neg y).

(** [x * y] *)
Definition mul (x y : number) : number :=
  match x, y with
  | Fin a, Fin b => Fin (a * b)
  | Fin a, Infinity s | Infinity s, Fin a =>
      match a ?= 0 with
      | Eq => NaN
      | Lt => Infinity (negb s)
      | Gt => Infinity s
      end
  | Infinity s, Infinity t => Infinity (xorb s t)
  | NaN, _ | _, NaN => NaN
  end.

(** [x / y] *)
Definition div (x y : number) : number :=
  match x, y with
  | Fin a, Fin b =>
      if Qis_zero b then
        match a ?= 0 with
        | Eq => NaN
        | Lt => Infinity true
        | Gt => Infinity false
        end
      else Fin (a / b)
  | Fin _, Infinity _ => Fin 0
  | Infinity s, Fin b => Infinity (if Qltb b 0 then negb s else s)
  | Infinity _, Infinity _ => NaN
  | NaN, _ | _, NaN => NaN
  end.

(** [x < y]; any comparison with NaN is false. *)
Definition lt (x y : number) : bool :=
  match x, y with
  | Fin a, Fin b => Qltb a b
  | Fin _, Infinity s => negb s
  | Infinity s, Fin _ => s
  | Infinity s, Infinity t => s && negb t
  | NaN, _ | _, NaN => false
  end.

(** [x > y] *)
Definition gt (x y : number) : bool := lt y x.

(** [x >= y] and [x <= y] *)
Definition le (x y : number) : bool :=
  match x, y with
  | Fin a, Fin b => negb (Qltb b a)
  | Fin _, Infinity s => negb s
  | Infinity s, Fin _ => s
  | Infinity s, Infinity t => s || negb t
  | NaN, _ | _, NaN => false
  end.

Definition ge (x y : number) : bool := le y x.

(** [Math.floor] *)
Definition floor (x : number) : number :=
  match x with
  | Fin a => Fin (inject_Z (Qfloor a))
  | _ => x
  end.

(** [Math.min(x, y)] *)
Definition min (x y : number) : number :=
  match x, y with
  | NaN, _ | _, NaN => NaN
  | _, _ => if lt y x then y else x
  end.

(** Truthiness of a number: [0] and [NaN] are falsy. *)
Definition truthy (x : number) : bool :=
  match x with
  | Fin a => negb (Qis_zero a)
  | Infinity _ => true
  | NaN => false
  end.

(** [arr[i]] for an index that is a number: [None] stands for [undefined],
    which is what an index that is no element position yields. *)
Definition index {A : Type} (arr : list A) (i : number) : option A :=
  match i with
  | Fin a =>
      if Qeq_bool a (inject_Z (Qfloor a)) && (0 <=? Qfloor a)%Z
      then nth_error arr (Z.to_nat (Qfloor a))
      else None
  | _ => None
  end.

(** The whole number a number is, if it is one. *)
Definition whole (x : number) : option Z :=
  match x with
  | Fin a => if Qeq_bool a (inject_Z (Qfloor a)) then Some (Qfloor a) else None
  | _ => None
  end.

(** [arr.length] *)
Definition length {A : Type} (arr : list A) : number :=
  Fin (inject_Z (Z.of_nat (List.length arr))).

End Js.

Abbreviation number := Js.number.
Abbreviation Fin := Js.Fin.
Abbreviation Infinity := Js.Infinity.
Abbreviation NaN := Js.NaN.

Declare Scope js_scope.
Delimit Scope js_scope with js.
Bind Scope js_scope with Js.number.
Infix "+" := Js.add : js_scope.
Infix "-" := Js.sub : js_scope.
Infix "*" := Js.mul : js_scope.
Infix "/" := Js.div : js_scope.
Infix "<?" := Js.lt : js_scope.
Infix ">?" := Js.gt : js_scope.
Infix "<=?" := Js.le : js_scope.
Infix ">=?" := Js.ge : js_scope.

(** ** Data model *)

(** The [type] prop of a sprite: App.js passes ["toast"] for a pod and
    ["toaster"] for a node. *)
Inductive kind : Type := toast | toaster.

Definition kind_name (type : kind) : string :=
  match type with
  | toast => "toast"
  | toaster => "toaster"
  end.

Definition is_toast (type : kind) : bool :=
  match type with toast => true | toaster => false end.

(** [cpuUsage] is a number or a string. *)
Inductive usage : Type :=
| UNum (n : number)
| UStr (s : string).

(** One pod or node of the metrics feed. *)
Record Entity : Type := {
  name : string;
  namespace : option string;   (* a string or null *)
  cpuUsage : usage;
  memoryUsage : number;
}.

(** The configuration object of App.js, field by field. *)
Record Config : Type := {
  showLabels : bool;
  showStatus : bool;
  remoteDataUrl : string;
  updateInterval : number;
  staggerInterval : number;
  durationMin : number;
  durationMax : number;
  minSizeToaster : number;
  maxSizeToaster : number;
  minSizeToast : number;
  maxSizeToast : number;
  maxMemoryToast : number;
  maxCpuToast : number;
  zoomiesFreq : number;
  copsFreq : number;
  copsAndRobbers : bool;
  butterChance : number;
  butterMaxSlices : number;
  copSoundChance : number;
  totalPoliceSounds : number;
  excludeNamespaces : list string;
  christmasMode : bool;
  christmasToasters : list string;
  santaFreq : number;
}.

(** The defaults written in App.js. *)
Definition defaultConfig : Config := {|
  showLabels := true;
  showStatus := true;
  remoteDataUrl := "https://flyingk8s.milagrofrost.com/flyingk8s.json";
  updateInterval := Fin 60000;
  staggerInterval := Fin 500;
  durationMin := Fin 15000;
  durationMax := Fin 20000;
  minSizeToaster := Fin 200;
  maxSizeToaster := Fin 600;
  minSizeToast := Fin 100;
  maxSizeToast := Fin 400;
  maxMemoryToast := Fin 1000;
  maxCpuToast := Fin 100;
  zoomiesFreq := Fin 10;
  copsFreq := Fin 5;
  copsAndRobbers := true;
  butterChance := Fin 5;
  butterMaxSlices := Fin 10;
  copSoundChance := Fin 5;
  totalPoliceSounds := Fin 14;
  excludeNamespaces := ["argocd"];
  christmasMode := false;
  christmasToasters := [];
  santaFreq := Fin (1 # 10);
|}.

(** ** The random source

    [Math.random()] and [uuidv4()] read the outside world.  The world is a
    pair of endless supplies with a cursor each; a call returns the value
    under the cursor and advances it. *)

Record World : Type := {
  randoms : nat -> Q;
  random_pos : nat;
  uuids : nat -> string;
  uuid_pos : nat;
}.

(** Computations that read the world. *)
Definition M : Type -> Type := state World.

(** [Math.random()] *)
Definition Math_random : M number :=
  w <- get ;;
  put {| randoms := randoms w; random_pos := S (random_pos w);
         uuids := uuids w; uuid_pos := uuid_pos w |} ;;
  ret (Fin (randoms w (random_pos w))).

(** [uuidv4()] *)
Definition uuidv4 : M string :=
  w <- get ;;
  put {| randoms := randoms w; random_pos := random_pos w;
         uuids := uuids w; uuid_pos := S (uuid_pos w) |} ;;
  ret (uuids w (uuid_pos w)).

(** Running a computation from a world: its result and the world after. *)
Definition run {A : Type} (c : M A) (w : World) : A * World := runState c w.

(** The [k]-th value [Math.random()] returns from world [w] on. *)
Definition draw (w : World) (k : nat) : Q := randoms w (random_pos w + k).

(** The world after [k] calls of [Math.random()]. *)
Definition skip (k : nat) (w : World) : World :=
  {| randoms := randoms w; random_pos := random_pos w + k;
     uuids := uuids w; uuid_pos := uuid_pos w |}.

(** The world after a call of [uuidv4()]. *)
Definition next_uuid (w : World) : World :=
  {| randoms := randoms w; random_pos := random_pos w;
     uuids := uuids w; uuid_pos := S (uuid_pos w) |}.

(** [Math.random()] returns a value in [[0, 1)]. *)
Definition unit_draws (w : World) : Prop :=
  forall i, (0 <= randoms w i /\ randoms w i < 1)%Q.

(** ** Coercion of a usage value

    [ToNumber] applied to a string is ECMAScript's StringToNumber, which the
    arithmetic and relational operators apply to a string operand.  It is a
    parameter [StringToNumber : string -> number] of everything that
    depends on it. *)

Definition ToNumber (StringToNumber : string -> number) (v : usage) : number :=
  match v with
  | UNum n => n
  | UStr s => StringToNumber s
  end.

(** [v === '4040404']: strict equality with a string holds for that very
    string only, never for a number. *)
Definition is_sentinel (v : usage) : bool :=
  match v with
  | UNum _ => false
  | UStr s => String.eqb s "4040404"
  end.

(** ** Images and the image cache

    An entry of [imagesToLoad] is an object [{ name, type }], with a [path]
    in the entries Christmas mode adds.  [imageCache] is an object used as a
    map from names to images; the latest assignment to a name is the one a
    lookup finds. *)

Record ImageToLoad : Type := {
  image_name : string;
  image_type : string;
  image_path : option string;   (* a string or undefined *)
}.

(** [{ name, type }] *)
Definition image (name type : string) : ImageToLoad :=
  {| image_name := name; image_type := type; image_path := None |}.

(** An [Image] element, by its [src]. *)
Record Image : Type := { src : string }.

Definition Cache : Type := list (string * Image).

(** [imageCache[name] = img] *)
Definition cache_set (name : string) (img : Image) (imageCache : Cache) : Cache :=
  (name, img) :: imageCache.

(** [imageCache[name]]: [None] stands for [undefined]. *)
Fixpoint cache_get (name : string) (imageCache : Cache) : option Image :=
  match imageCache with
  | [] => None
  | (key, img) :: rest =>
      if String.eqb key name then Some img else cache_get name rest
  end.

(** The body of the [forEach] of [preloadImages], as far as the cache goes:
    [img.src = `${process.env.PUBLIC_URL}/${path || `${name}.${type}`}`;
     imageCache[name] = img;] *)
Definition cacheImage (PUBLIC_URL : string) (imageCache : Cache)
  (i : ImageToLoad) : Cache :=
  let file :=
    match image_path i with
    | Some path => if String.eqb path "" then image_name i ++ "." ++ image_type i
                   else path
    | None => image_name i ++ "." ++ image_type i
    end in
  cache_set (image_name i) {| src := PUBLIC_URL ++ "/" ++ file |} imageCache.

(** What the browser reports for an image. *)
Inductive ImageEvent : Type := onload | onerror.

(** The variable [loadedCount] of [preloadImages], and how often
    [onLoadCallback] has been called. *)
Record Loader : Type := {
  loadedCount : nat;
  called : nat;
}.

(** The handlers [img.onload] and [img.onerror] of a list of [length]
    images: [onload] counts and calls back when the count reaches
    [length]; [onerror] logs and does nothing else. *)
Definition handle (length : nat) (l : Loader) (e : ImageEvent) : Loader :=
  match e with
  | onload =>
      let loadedCount := S (loadedCount l) in
      {| loadedCount := loadedCount;
         called := if Nat.eqb loadedCount length then S (called l) else called l |}
  | onerror => l
  end.

(** The loader after the browser has reported [events], in turn. *)
Definition settle (length : nat) (events : list ImageEvent) : Loader :=
  fold_left (handle length) events {| loadedCount := 0; called := 0 |}.

(** How many of [events] are loads. *)
Definition loads (events : list ImageEvent) : nat :=
  List.length (filter (fun e => match e with onload => true | onerror => false end)
                 events).

(** The list [imagesToLoad], the same in every file that has it. *)
Definition baseImages : list ImageToLoad :=
  [ image "toast1" "png"; image "toast2" "png"; image "toast3" "png";
    image "toast4" "png";
    image "toaster1" "png"; image "toaster2" "png"; image "toaster3" "png";
    image "toaster4" "png";
    image "police" "gif";
    image "missing-toast" "gif";
    image "missing-toaster" "gif";
    image "butter-bottom" "png";
    image "butter" "png";
    image "wingL" "gif";
    image "wingR" "gif" ].

(** [{ name, type: 'gif', path: `xmas/${name}.gif` }] *)
Definition christmasImage (name : string) : ImageToLoad :=
  {| image_name := name; image_type := "gif";
     image_path := Some ("xmas/" ++ name ++ ".gif") |}.

(** The entries Christmas mode adds: one for each Christmas toaster, then
    [{ name: 'santa', type: 'gif', path: 'xmas/santa.gif' }]. *)
Definition christmasImages (config : Config) : list ImageToLoad :=
  (map christmasImage (christmasToasters config) ++ [christmasImage "santa"])%list.

(** ** modes/NormalMode.js *)

Module NormalMode.

Definition imagesToLoad : list ImageToLoad := baseImages.

(** [preloadImages]: the cache after its [forEach]. *)
Definition preloadImages (PUBLIC_URL : string) (imageCache : Cache) : Cache :=
  fold_left (cacheImage PUBLIC_URL) imagesToLoad imageCache.

Section Mode.

Variable StringToNumber : string -> number.
Variable config : Config.

(** [v < n] for a usage operand [v]: the operand is coerced to a number. *)
Definition lessThan (v : usage) (n : number) : bool :=
  (ToNumber StringToNumber v <? n)%js.

(** [const usageRatio = type === 'toast'
      ? data.cpuUsage / config.maxCpuToast : data.cpuUsage;] *)
Definition usageRatio (data : Entity) (type : kind) : usage :=
  if is_toast type
  then UNum (ToNumber StringToNumber (cpuUsage data) / maxCpuToast config)%js
  else cpuUsage data.

Definition chooseImageType (data : Entity) (type : kind) : string :=
  if is_sentinel (cpuUsage data) then
    if is_toast type then "missing-toast" else "missing-toaster"
  else
    let usageRatio := usageRatio data type in
    if lessThan usageRatio (Fin (1 # 4)) then kind_name type ++ "1"
    else if lessThan usageRatio (Fin (1 # 2)) then kind_name type ++ "2"
    else if lessThan usageRatio (Fin (3 # 4)) then kind_name type ++ "3"
    else kind_name type ++ "4".

End Mode.
End NormalMode.

(** ** modes/ChristmasMode.js *)

Module ChristmasMode.

Definition imagesToLoad : list ImageToLoad := baseImages.

(** [const allImagesToLoad = [...imagesToLoad]; ...push(...)] *)
Definition allImagesToLoad (config : Config) : list ImageToLoad :=
  (imagesToLoad ++ christmasImages config)%list.

(** [preloadImages]: the cache after its [forEach]. *)
Definition preloadImages (config : Config) (PUBLIC_URL : string)
  (imageCache : Cache) : Cache :=
  fold_left (cacheImage PUBLIC_URL) (allImagesToLoad config) imageCache.

(** The result is a string or, for an index outside the array, [undefined]
    ([None]). *)
Definition chooseImageType (config : Config) (data : Entity) (type : kind)
  : M (option string) :=
  r <- Math_random ;;
  if (r <? santaFreq config)%js then ret (Some "santa")
  else
    r' <- Math_random ;;
    ret (Js.index (christmasToasters config)
           (Js.floor (r' * Js.length (christmasToasters config))%js)).

End ChristmasMode.

(** ** components/FlyingItem.js *)

Module FlyingItem.

Record Props : Type := {
  data : Entity;
  type : kind;
  size : number;
  initialDuration : number;
  delay : number;
  isMuted : bool;
  isPaused : bool;
}.

(** [window.innerWidth] and [window.innerHeight]. *)
Record Window : Type := {
  innerWidth : number;
  innerHeight : number;
}.

(** The object [{ startX, startY, endX, endY }]. *)
Record Path : Type := {
  startX : number;
  startY : number;
  endX : number;
  endY : number;
}.

(** The state hooks and the ref of one sprite, with the variables of the
    animation effect ([path] for [startX], [startY], [endX], [endY], and
    [audioPlayed]). *)
Record State : Type := {
  position : option (number * number);
  readyToAnimate : bool;
  butterAdjusted : bool;
  startTimeRef : option number;   (* [startTimeRef.current], null or a time *)
  duration : number;
  isZoomie : bool;
  isCop : bool;
  hasButter : bool;
  butterSlices : number;
  wingSyncUuid : string;
  path : Path;
  audioPlayed : bool;
}.

(** What a call of [moveItem] asks of the browser. *)
Inductive Event : Type :=
| PlayPoliceSound (randomSoundIndex : number)
| RequestAnimationFrame.

(** [b && e], where [e] is evaluated only when [b] holds. *)
Definition andM (b : bool) (e : M bool) : M bool :=
  if b then e else ret false.

Section Component.

Variable config : Config.
Variable window : Window.
Variable props : Props.

Definition playRandomPoliceSound : M Event :=
  r <- Math_random ;;
  ret (PlayPoliceSound (Js.floor (r * totalPoliceSounds config) + Fin 1)%js).

Definition generateRandomPath : M Path :=
  r <- Math_random ;;
  let startFromTop := (r <? Fin (1 # 2))%js in
  let size := size props in
  if startFromTop then
    let startY := (Js.neg size * Fin 2)%js in
    r1 <- Math_random ;;
    let startX := (r1 * innerWidth window - size)%js in
    r2 <- Math_random ;;
    let endX := (innerWidth window + r2 * innerWidth window / Fin 2)%js in
    r3 <- Math_random ;;
    let endY := (innerHeight window - r3 * size / Fin 2)%js in
    ret {| startX := startX; startY := startY; endX := endX; endY := endY |}
  else
    let startX := (Js.neg size * Fin 2)%js in
    r1 <- Math_random ;;
    let startY := (r1 * innerHeight window - size)%js in
    r2 <- Math_random ;;
    let endX := (innerWidth window - r2 * size / Fin 2)%js in
    r3 <- Math_random ;;
    let endY := (innerHeight window + r3 * innerHeight window / Fin 2)%js in
    ret {| startX := startX; startY := startY; endX := endX; endY := endY |}.

(** The draws of the leg-completion branch of [moveItem] that decide the
    decoration of the next leg: the new values of [isCop], [hasButter] and
    [butterSlices], given the old [hasButter]. *)
Definition decorate (zoomieChance : bool) (hasButter0 : bool)
  : M (bool * bool * number) :=
  cop <- andM (zoomieChance && copsAndRobbers config)
           (r <- Math_random ;; ret (r <? Fin 1 / copsFreq config)%js) ;;
  if cop then
    (* setIsCop(true); setButterSlices(0); *)
    ret (true, hasButter0, Fin 0)
  else
    (* setIsCop(false); *)
    butterChance <- andM (butterChance config >? Fin 0)%js
                      (r <- Math_random ;;
                       ret (r <? Fin 1 / butterChance config)%js) ;;
    if butterChance && is_toast (type props) then
      (* setHasButter(true); *)
      if zoomieChance then
        r <- Math_random ;;
        let maxSlices := (Js.floor (r * butterMaxSlices config) + Fin 1)%js in
        ret (false, true, maxSlices)
      else ret (false, true, Fin 0)
    else
      (* setHasButter(false); setButterSlices(0); *)
      ret (false, false, Fin 0).

(** The [else] branch of [moveItem] ([progress >= 1]): reset for the next
    animation cycle.  [s] already holds the position of this tick. *)
Definition nextCycle (s : State) : M (State * list Event) :=
  newPath <- generateRandomPath ;;
  uuid <- uuidv4 ;;
  r <- Math_random ;;
  let zoomieChance := (r <? Fin 1 / zoomiesFreq config)%js in
  r' <- Math_random ;;
  let duration' :=
    if zoomieChance
    then ((r' * (durationMax config - durationMin config) + durationMin config)
          / Fin 3)%js
    else (r' * (durationMax config - durationMin config) + durationMin config)%js
  in
  ' (cop, butter, slices) <- decorate zoomieChance (hasButter s) ;;
  ret ({| position := position s;
          readyToAnimate := readyToAnimate s;
          butterAdjusted := butterAdjusted s;
          startTimeRef := None;
          duration := duration';
          isZoomie := zoomieChance;
          isCop := cop;
          hasButter := butter;
          butterSlices := slices;
          wingSyncUuid := uuid;
          path := newPath;
          audioPlayed := false |},
       if isPaused props then [] else [RequestAnimationFrame]).

(** [!startTimeRef.current] *)
Definition unset (t : option number) : bool :=
  match t with
  | None => true
  | Some t => negb (Js.truthy t)
  end.

(** [startTimeRef.current] after
    [if (!startTimeRef.current) startTimeRef.current = timestamp;] *)
Definition startTime (timestamp : number) (s : State) : number :=
  match startTimeRef s with
  | Some t => if unset (Some t) then timestamp else t
  | None => timestamp
  end.

(** [const progress = (timestamp - startTimeRef.current) / duration;] *)
Definition progress (timestamp : number) (s : State) : number :=
  ((timestamp - startTime timestamp s) / duration s)%js.

(** One call of the animation-frame callback. *)
Definition moveItem (timestamp : number) (s : State) : M (State * list Event) :=
  let progress := progress timestamp s in
  let currentX :=
    (startX (path s) + (endX (path s) - startX (path s)) * progress)%js in
  let currentY :=
    (startY (path s) + (endY (path s) - startY (path s)) * progress)%js in
  ' (played, sound) <-
    (if isCop s && negb (audioPlayed s)
        && (progress >? Fin (1 # 5))%js && (progress <? Fin (4 # 5))%js
     then
       if (currentX >=? Fin 0)%js && (currentX <=? innerWidth window)%js
          && (currentY >=? Fin 0)%js && (currentY <=? innerHeight window)%js
          && negb (isMuted props)
       then e <- playRandomPoliceSound ;; ret (true, [e])
       else ret (true, [])
     else ret (audioPlayed s, [])) ;;
  let s1 :=
    {| position := Some (currentX, currentY);
       readyToAnimate := readyToAnimate s;
       butterAdjusted := butterAdjusted s;
       startTimeRef := Some (startTime timestamp s);
       duration := duration s;
       isZoomie := isZoomie s;
       isCop := isCop s;
       hasButter := hasButter s;
       butterSlices := butterSlices s;
       wingSyncUuid := wingSyncUuid s;
       path := path s;
       audioPlayed := played |} in
  if (progress <? Fin 1)%js then
    ret (s1, (sound ++ if isPaused props then [] else [RequestAnimationFrame])%list)
  else
    ' (s2, frame) <- nextCycle s1 ;;
    ret (s2, (sound ++ frame)%list).

(** The state of a sprite when the component is mounted. *)
Definition initialState (uuid : string) (p : Path) : State :=
  {| position := None;
     readyToAnimate := false;
     butterAdjusted := false;
     startTimeRef := None;
     duration := initialDuration props;
     isZoomie := false;
     isCop := false;
     hasButter := false;
     butterSlices := Fin 0;
     wingSyncUuid := uuid;
     path := p;
     audioPlayed := false |}.

(** The animation effect starts, at mount and whenever one of its
    dependencies changes: it draws a path and its [audioPlayed] is false. *)
Definition startEffect (s : State) : M State :=
  p <- generateRandomPath ;;
  ret {| position := position s;
         readyToAnimate := readyToAnimate s;
         butterAdjusted := butterAdjusted s;
         startTimeRef := startTimeRef s;
         duration := duration s;
         isZoomie := isZoomie s;
         isCop := isCop s;
         hasButter := hasButter s;
         butterSlices := butterSlices s;
         wingSyncUuid := wingSyncUuid s;
         path := p;
         audioPlayed := false |}.

(** The timeout of the effect, [delay] milliseconds after its start. *)
Definition delayTimeout (s : State) : State * list Event :=
  ({| position := position s;
      readyToAnimate := true;
      butterAdjusted := butterAdjusted s;
      startTimeRef := startTimeRef s;
      duration := duration s;
      isZoomie := isZoomie s;
      isCop := isCop s;
      hasButter := hasButter s;
      butterSlices := butterSlices s;
      wingSyncUuid := wingSyncUuid s;
      path := path s;
      audioPlayed := audioPlayed s |},
   [RequestAnimationFrame]).

(** The timeout of the butter effect, set when [hasButter && !butterAdjusted]. *)
Definition butterAdjustmentTimeout (s : State) : State :=
  if hasButter s && negb (butterAdjusted s) then
    {| position := position s;
       readyToAnimate := readyToAnimate s;
       butterAdjusted := true;
       startTimeRef := startTimeRef s;
       duration := duration s;
       isZoomie := isZoomie s;
       isCop := isCop s;
       hasButter := hasButter s;
       butterSlices := butterSlices s;
       wingSyncUuid := wingSyncUuid s;
       path := path s;
       audioPlayed := audioPlayed s |}
  else s.

(** The states of a sprite: the state at mount and, from a state, the state
    after any of the callbacks, at any time and in any world. *)
Inductive reachable : State -> Prop :=
| reachable_mount (uuid : string) (p : Path) :
    reachable (initialState uuid p)
| reachable_startEffect (s : State) (w : World) :
    reachable s -> reachable (fst (run (startEffect s) w))
| reachable_delayTimeout (s : State) :
    reachable s -> reachable (fst (delayTimeout s))
| reachable_butterAdjustmentTimeout (s : State) :
    reachable s -> reachable (butterAdjustmentTimeout s)
| reachable_moveItem (timestamp : number) (s : State) (w : World) :
    reachable s -> reachable (fst (fst (run (moveItem timestamp s) w))).

(** A run of [moveItem] at the given times in turn. *)
Fixpoint ticks (timestamps : list number) (s : State) (w : World)
  : State * World :=
  match timestamps with
  | [] => (s, w)
  | timestamp :: rest =>
      let '(s', _, w') := run (moveItem timestamp s) w in
      ticks rest s' w'
  end.

(** The states of a sprite when every [Math.random()] it sees returns a
    value of [[0, 1)], as the browser's does. *)
Inductive reachable_unit : State -> Prop :=
| unit_mount (uuid : string) (p : Path) :
    reachable_unit (initialState uuid p)
| unit_startEffect (s : State) (w : World) :
    unit_draws w -> reachable_unit s ->
    reachable_unit (fst (run (startEffect s) w))
| unit_delayTimeout (s : State) :
    reachable_unit s -> reachable_unit (fst (delayTimeout s))
| unit_butterAdjustmentTimeout (s : State) :
    reachable_unit s -> reachable_unit (butterAdjustmentTimeout s)
| unit_moveItem (timestamp : number) (s : State) (w : World) :
    unit_draws w -> reachable_unit s ->
    reachable_unit (fst (fst (run (moveItem timestamp s) w))).

(** The sounds [moveItem] plays over a run of ticks, and the state and the
    world after it. *)
Fixpoint sounds (timestamps : list number) (s : State) (w : World)
  : list Event * State * World :=
  match timestamps with
  | [] => ([], s, w)
  | timestamp :: rest =>
      let '(s', events, w') := run (moveItem timestamp s) w in
      let '(later, s'', w'') := sounds rest s' w' in
      ((filter (fun e => match e with
                         | PlayPoliceSound _ => true
                         | RequestAnimationFrame => false
                         end) events ++ later)%list, s'', w'')
  end.

(** [zIndex: Math.floor(config.maxSizeToaster - size)], the layer of the
    item; the cop image is one layer below it and the left wing one above. *)
Definition zIndex : number := Js.floor (maxSizeToaster config - size props)%js.
Definition copZIndex : number := (zIndex - Fin 1)%js.
Definition leftWingZIndex : number := (zIndex + Fin 1)%js.

(** [Array(n)]: the length of the array, or [None] for the RangeError that
    a number which is no array length raises. *)
Definition Array (n : number) : option nat :=
  match Js.whole n with
  | Some k => if (0 <=? k)%Z && (k <? 2 ^ 32)%Z then Some (Z.to_nat k) else None
  | None => None
  end.

(** The property key of [imageCache[imgType]] for what the selector
    returned: [undefined] is read as the key ["undefined"]. *)
Definition cacheKey (imgType : option string) : string :=
  match imgType with
  | Some name => name
  | None => "undefined"
  end.

(** The keys of [imageCache] that the render of a visible sprite reads, in
    turn, for the key [imgType] of the selected image; [None] when
    [Array(butterSlices)] raises. *)
Definition cacheReads (s : State) (imgType : string) : option (list string) :=
  let cop := if isCop s then ["police"] else [] in
  let bottom := if hasButter s then ["butter-bottom"] else [] in
  if hasButter s then
    match Array (butterSlices s) with
    | Some n => Some (cop ++ bottom ++ [imgType] ++ repeat "butter" n)%list
    | None => None
    end
  else Some (cop ++ bottom ++ [imgType])%list.

End Component.

(** [const imgType = useMemo(() => chooseImageType(data, type), ...)], with
    the selector received as a prop. *)
Definition imgType {R : Type} (chooseImageType : Entity -> kind -> R)
  (props : Props) : R :=
  chooseImageType (data props) (type props).

End FlyingItem.

(** ** App.js *)

Module App.

(** The JSON document of the metrics feed. *)
Record Snapshot : Type := {
  timestamp : option string;   (* a string or null *)
  pods : list Entity;
  nodes : list Entity;
}.

(** The state hook [dataQueue]. *)
Record DataQueue : Type := {
  queue_pods : list Entity;
  queue_nodes : list Entity;
}.

(** The state hooks of the [App] component. *)
Record State : Type := {
  dataQueue : DataQueue;
  lastUpdated : option string;   (* null until the first update *)
  imagesLoaded : bool;
  isMuted : bool;
  isPaused : bool;
}.

Definition initialState : State :=
  {| dataQueue := {| queue_pods := []; queue_nodes := [] |};
     lastUpdated := None;
     imagesLoaded := false;
     isMuted := true;
     isPaused := false |}.

(** [`${v}`] for a string or null. *)
Definition template (v : option string) : string :=
  match v with
  | Some s => s
  | None => "null"
  end.

(** [a !== b] for two values that are each a string or null. *)
Definition strict_neq (a b : option string) : bool :=
  match a, b with
  | Some x, Some y => negb (String.eqb x y)
  | None, None => false
  | _, _ => true
  end.

(** [list.includes(v)] for a list of strings and a string or null. *)
Definition includes (list : list string) (v : option string) : bool :=
  match v with
  | Some s => existsb (String.eqb s) list
  | None => false
  end.

(** The snapshot [fetchData] falls back to when both fetches fail. *)
Definition emptySnapshot : Snapshot :=
  {| timestamp := None; pods := []; nodes := [] |}.

(** [fetchData], given what the two requests yield ([None] for a request
    that fails). *)
Definition fetchData (config : Config) (remote local : option Snapshot)
  : Snapshot * string :=
  let fallback :=
    match local with
    | Some localData => (localData, "local")
    | None => (emptySnapshot, "none")
    end in
  if String.eqb (remoteDataUrl config) "" then fallback
  else
    match remote with
    | Some data => (data, "remote")
    | None => fallback
    end.

(** [fetchDataAndUpdate], once [fetchData] has answered.  [lastUpdated0] is
    the value of [lastUpdated] that the closure captured when its effect
    ran; [s] is the state the setters act on. *)
Definition fetchDataAndUpdate (config : Config) (lastUpdated0 : option string)
  (fetched : Snapshot * string) (s : State) : State :=
  let '(data, source) := fetched in
  if strict_neq (timestamp data) lastUpdated0 then
    {| dataQueue :=
         {| queue_pods :=
              filter (fun pod =>
                        negb (includes (excludeNamespaces config) (namespace pod)))
                     (pods data);
            queue_nodes := nodes data |};
       lastUpdated := Some (template (timestamp data) ++ " (" ++ source ++ ")");
       imagesLoaded := imagesLoaded s;
       isMuted := isMuted s;
       isPaused := isPaused s |}
  else s.

(** The callback of [preloadImages]: [setImagesLoaded(true)]. *)
Definition onLoadCallback (s : State) : State :=
  {| dataQueue := dataQueue s;
     lastUpdated := lastUpdated s;
     imagesLoaded := true;
     isMuted := isMuted s;
     isPaused := isPaused s |}.

(** [arr.map((x, index) => f(x, index))] for an [f] that reads the world,
    from [index] on. *)
Fixpoint mapFrom {A B : Type} (f : A -> nat -> M B) (index : nat) (arr : list A)
  : M (list B) :=
  match arr with
  | [] => ret []
  | x :: rest =>
      y <- f x index ;;
      ys <- mapFrom f (S index) rest ;;
      ret (y :: ys)
  end.

(** A whole number as a number. *)
Definition of_nat (n : nat) : number := Fin (inject_Z (Z.of_nat n)).

Section Render.

Variable config : Config.
Variable s : State.

(** The [FlyingItem] element of a pod. *)
Definition podItem (pod : Entity) (index : nat) : M FlyingItem.Props :=
  r <- Math_random ;;
  let initialDuration :=
    (r * (durationMax config - durationMin config) + durationMin config)%js in
  ret {| FlyingItem.data := pod;
         FlyingItem.type := toast;
         FlyingItem.size :=
           Js.min (memoryUsage pod / maxMemoryToast config
                   * (maxSizeToast config - minSizeToast config)
                   + minSizeToast config)%js
                  (maxSizeToast config);
         FlyingItem.initialDuration := initialDuration;
         FlyingItem.delay := (of_nat index * staggerInterval config)%js;
         FlyingItem.isMuted := isMuted s;
         FlyingItem.isPaused := isPaused s |}.

(** The [FlyingItem] element of a node. *)
Definition nodeItem (node : Entity) (index : nat) : M FlyingItem.Props :=
  r <- Math_random ;;
  let initialDuration :=
    (r * (durationMax config - durationMin config) + durationMin config)%js in
  ret {| FlyingItem.data := node;
         FlyingItem.type := toaster;
         FlyingItem.size :=
           Js.min (memoryUsage node
                   * (maxSizeToaster config - minSizeToaster config)
                   + minSizeToaster config)%js
                  (maxSizeToaster config);
         FlyingItem.initialDuration := initialDuration;
         FlyingItem.delay :=
           (of_nat index * staggerInterval config * Fin 5)%js;
         FlyingItem.isMuted := isMuted s;
         FlyingItem.isPaused := isPaused s |}.

(** [!lastUpdated]: null and the empty string are falsy. *)
Definition noUpdate (v : option string) : bool :=
  match v with
  | None => true
  | Some t => String.eqb t ""
  end.

(** The sprites that [App] renders, pods first: [None] while it shows
    "Loading...". *)
Definition render : M (option (list FlyingItem.Props)) :=
  if negb (imagesLoaded s) || noUpdate (lastUpdated s) then ret None
  else
    toasts <- mapFrom podItem 0 (queue_pods (dataQueue s)) ;;
    toasters <- mapFrom nodeItem 0 (queue_nodes (dataQueue s)) ;;
    ret (Some (toasts ++ toasters)%list).

End Render.

(** [const mode = config.christmasMode ? ChristmasMode : NormalMode;] and
    the prop [chooseImageType={mode.chooseImageType}]. *)
Definition chooseImageType (StringToNumber : string -> number)
  (config : Config) (data : Entity) (type : kind) : M (option string) :=
  if christmasMode config
  then ChristmasMode.chooseImageType config data type
  else ret (Some (NormalMode.chooseImageType StringToNumber config data type)).

(** The [keydown] handler. *)
Definition handleKeyPress (key : string) (s : State) : State :=
  let s1 :=
    if String.eqb key "p" || String.eqb key "P" then
      {| dataQueue := dataQueue s;
         lastUpdated := lastUpdated s;
         imagesLoaded := imagesLoaded s;
         isMuted := isMuted s;
         isPaused := negb (isPaused s) |}
    else s in
  if String.eqb key "m" || String.eqb key "M" then
    {| dataQueue := dataQueue s1;
       lastUpdated := lastUpdated s1;
       imagesLoaded := imagesLoaded s1;
       isMuted := negb (isMuted s1);
       isPaused := isPaused s1 |}
  else s1.

(** [unmuteAudio]: the state after it, and whether it starts the Christmas
    music; [audioRef] tells whether [audioRef.current] is set. *)
Definition unmuteAudio (config : Config) (audioRef : bool) (s : State)
  : State * bool :=
  ({| dataQueue := dataQueue s;
      lastUpdated := lastUpdated s;
      imagesLoaded := imagesLoaded s;
      isMuted := false;
      isPaused := isPaused s |},
   christmasMode config && audioRef).

(** The images [mode.preloadImages] loads. *)
Definition imagesToPreload (config : Config) : list ImageToLoad :=
  if christmasMode config
  then ChristmasMode.allImagesToLoad config
  else NormalMode.imagesToLoad.

(** [mode.preloadImages(() => setImagesLoaded(true))]: the cache after the
    call. *)
Definition preloadImages (config : Config) (PUBLIC_URL : string)
  (imageCache : Cache) : Cache :=
  if christmasMode config
  then ChristmasMode.preloadImages config PUBLIC_URL imageCache
  else NormalMode.preloadImages PUBLIC_URL imageCache.

(** The state once the browser has reported [events] for the images:
    [onLoadCallback] has run as often as the loader called it. *)
Definition imagesSettled (config : Config) (events : list ImageEvent)
  (s : State) : State :=
  Nat.iter (called (settle (List.length (imagesToPreload config)) events))
    onLoadCallback s.

(** What changes the state hooks between two renders.  The effect of [App]
    runs at mount and again whenever [lastUpdated] has changed; each run
    calls [mode.preloadImages], with a [loadedCount] of its own, and
    [fetchDataAndUpdate], at once and then at every interval.  So either the
    browser has reported [events] for the images of one run, or a call of
    [fetchDataAndUpdate] whose closure holds [lastUpdated0] has got its
    answer.  (The reports of two runs may come interleaved; as each run
    counts for itself and its callback only sets [imagesLoaded], the state
    is the same as when they come run by run.) *)
Inductive Happening : Type :=
| preloaded (events : list ImageEvent)
| answered (lastUpdated0 : option string) (fetched : Snapshot * string).

Definition happen (config : Config) (s : State) (h : Happening) : State :=
  match h with
  | preloaded events => imagesSettled config events s
  | answered lastUpdated0 fetched =>
      fetchDataAndUpdate config lastUpdated0 fetched s
  end.

(** The state after the happenings [hs], in turn. *)
Definition history (config : Config) (hs : list Happening) (s : State)
  : State :=
  fold_left (happen config) hs s.

End App.

(** ** The single-file variant of the application

    The same application with both modes in one file.  Its [FlyingItem] and
    [fetchDataAndUpdate] are those above, line for line; its selector is
    written inside the component. *)

Module SingleFile.

Definition imagesToLoad : list ImageToLoad := baseImages.

(** [const allImagesToLoad = [...imagesToLoad];
     if (config.christmasMode) { ...push(...) }] *)
Definition allImagesToLoad (config : Config) : list ImageToLoad :=
  if christmasMode config
  then (imagesToLoad ++ christmasImages config)%list
  else imagesToLoad.

(** [preloadImages]: the cache after its [forEach]. *)
Definition preloadImages (config : Config) (PUBLIC_URL : string)
  (imageCache : Cache) : Cache :=
  fold_left (cacheImage PUBLIC_URL) (allImagesToLoad config) imageCache.

Definition imgType (StringToNumber : string -> number) (config : Config)
  (data : Entity) (type : kind) : M (option string) :=
  if christmasMode config then
    r <- Math_random ;;
    if (r <? santaFreq config)%js then ret (Some "santa")
    else
      r' <- Math_random ;;
      ret (Js.index (christmasToasters config)
             (Js.floor (r' * Js.length (christmasToasters config))%js))
  else if is_sentinel (cpuUsage data) then
    ret (Some (if is_toast type then "missing-toast" else "missing-toaster"))
  else
    let usageRatio :=
      if is_toast type
      then UNum (ToNumber StringToNumber (cpuUsage data) / maxCpuToast config)%js
      else cpuUsage data in
    let lessThan v n := (ToNumber StringToNumber v <? n)%js in
    if lessThan usageRatio (Fin (1 # 4)) then ret (Some (kind_name type ++ "1"))
    else if lessThan usageRatio (Fin (1 # 2)) then ret (Some (kind_name type ++ "2"))
    else if lessThan usageRatio (Fin (3 # 4)) then ret (Some (kind_name type ++ "3"))
    else ret (Some (kind_name type ++ "4")).

End SingleFile.

(** ** The calls of [Math.random()] in one leg completion

    Counted from 0 at the entry of the [else] branch of [moveItem]:
    [generateRandomPath] makes calls 0 to 3, whichever side it starts
    from; the zoomie test makes call 4 and the duration call 5; the cop
    test makes call 6, but only for a zoomie with [copsAndRobbers] on; the
    butter test makes the next call and the slice count the one after. *)

Module Draws.

Definition zoomie : nat := 4.
Definition duration : nat := 5.
Definition cop : nat := 6.

Definition butter (config : Config) (zoomieChance : bool) : nat :=
  if zoomieChance && copsAndRobbers config then 7 else 6.

Definition slices (config : Config) (zoomieChance : bool) : nat :=
  S (butter config zoomieChance).

End Draws.

(** ** The specification's reading of the selector

    Section 4.1 of the specification, in its own words; the properties
    below compare the code with these. *)

Module Spec.

(** "ratio = kind == toast ? entity.cpuUsage / config.maxCpuToast
                            : entity.memoryUsage" *)
Definition ratio (StringToNumber : string -> number) (config : Config)
  (entity : Entity) (type : kind) : number :=
  if is_toast type
  then (ToNumber StringToNumber (cpuUsage entity) / maxCpuToast config)%js
  else memoryUsage entity.

(** "Map ratio to one of 4 ordinal variants by thresholds 0.25/0.5/0.75
    (variant 1..4, saturating at 4 for ratio >= 0.75)." *)
Definition ordinal (ratio : number) : nat :=
  if (ratio <? Fin (1 # 4))%js then 1%nat
  else if (ratio <? Fin (1 # 2))%js then 2%nat
  else if (ratio <? Fin (3 # 4))%js then 3%nat
  else 4%nat.

(** The name of the [n]-th variant of a kind, [n] from 1 to 4. *)
Definition variantName (type : kind) (n : nat) : string :=
  kind_name type ++
  match n with
  | 1%nat => "1"
  | 2%nat => "2"
  | 3%nat => "3"
  | _ => "4"
  end.

(** "the snapshot's pods minus excluded namespaces": the pods in their order,
    without those whose namespace is one of the excluded ones. *)
Fixpoint withoutNamespaces (excluded : list string) (pods : list Entity)
  : list Entity :=
  match pods with
  | [] => []
  | pod :: rest =>
      match namespace pod with
      | Some ns =>
          if in_dec string_dec ns excluded
          then withoutNamespaces excluded rest
          else pod :: withoutNamespaces excluded rest
      | None => pod :: withoutNamespaces excluded rest
      end
  end.

End Spec.

(** ** Sample inputs *)

Module Sample.

(** The StringToNumber of the sample runs.  No sample entity carries a
    string that is coerced, so its values are never looked at. *)
Definition stringToNumber (s : string) : number := NaN.

(** A world whose [Math.random()] returns the values of [l] in turn, and 0
    from then on. *)
Definition world (l : list Q) : World :=
  {| randoms := fun i => nth i l 0%Q;
     random_pos := 0;
     uuids := fun _ => "00000000-0000-4000-8000-000000000000";
     uuid_pos := 0 |}.

Definition entity (ns : option string) (cpu : usage) (mem : number) : Entity :=
  {| name := "sample"; namespace := ns; cpuUsage := cpu; memoryUsage := mem |}.

(** A node that is busy on CPU and light on memory. *)
Definition busyNode : Entity :=
  entity None (UNum (Fin (7 # 8))) (Fin (1 # 8)).

(** The entity of the specification's scenario:
    [{cpuUsage: "4040404", memoryUsage: 500}]. *)
Definition noData : Entity := entity None (UStr "4040404") (Fin 500).

(** The entity of the specification's scenario:
    [{cpuUsage: 80, memoryUsage: 500}]. *)
Definition pod80 : Entity := entity (Some "default") (UNum (Fin 80)) (Fin 500).

(** The defaults with Christmas mode switched on and nothing else: the
    list of Christmas toasters stays empty. *)
Definition christmasDefaults : Config := {|
  showLabels := true;
  showStatus := true;
  remoteDataUrl := "https://flyingk8s.milagrofrost.com/flyingk8s.json";
  updateInterval := Fin 60000;
  staggerInterval := Fin 500;
  durationMin := Fin 15000;
  durationMax := Fin 20000;
  minSizeToaster := Fin 200;
  maxSizeToaster := Fin 600;
  minSizeToast := Fin 100;
  maxSizeToast := Fin 400;
  maxMemoryToast := Fin 1000;
  maxCpuToast := Fin 100;
  zoomiesFreq := Fin 10;
  copsFreq := Fin 5;
  copsAndRobbers := true;
  butterChance := Fin 5;
  butterMaxSlices := Fin 10;
  copSoundChance := Fin 5;
  totalPoliceSounds := Fin 14;
  excludeNamespaces := ["argocd"];
  christmasMode := true;
  christmasToasters := [];
  santaFreq := Fin (1 # 10);
|}.

(** Two snapshots of the feed with one timestamp and different pods. *)
Definition podA : Entity := entity (Some "default") (UNum (Fin 10)) (Fin 100).
Definition podB : Entity := entity (Some "kube-system") (UNum (Fin 20)) (Fin 200).
Definition podArgo : Entity := entity (Some "argocd") (UNum (Fin 30)) (Fin 300).
Definition nodeA : Entity := entity None (UNum (Fin (1 # 2))) (Fin (1 # 2)).

Definition snapshot1 : App.Snapshot :=
  {| App.timestamp := Some "2024-11-05T10:00:00Z";
     App.pods := [podA; podArgo];
     App.nodes := [nodeA] |}.

Definition snapshot2 : App.Snapshot :=
  {| App.timestamp := Some "2024-11-05T10:00:00Z";
     App.pods := [podB];
     App.nodes := [] |}.

(** The application after the first snapshot has been shown. *)
Definition shown1 : App.State :=
  App.fetchDataAndUpdate defaultConfig None (snapshot1, "remote")
    App.initialState.

(** A pod sprite on a 1920 by 1080 window. *)
Definition props : FlyingItem.Props :=
  {| FlyingItem.data := pod80;
     FlyingItem.type := toast;
     FlyingItem.size := Fin 250;
     FlyingItem.initialDuration := Fin 15000;
     FlyingItem.delay := Fin 0;
     FlyingItem.isMuted := true;
     FlyingItem.isPaused := false |}.

Definition window : FlyingItem.Window :=
  {| FlyingItem.innerWidth := Fin 1920; FlyingItem.innerHeight := Fin 1080 |}.

Definition path0 : FlyingItem.Path :=
  {| FlyingItem.startX := Fin 0; FlyingItem.startY := Fin 0;
     FlyingItem.endX := Fin 1920; FlyingItem.endY := Fin 1080 |}.

(** The sprite at mount. *)
Definition mounted : FlyingItem.State :=
  FlyingItem.initialState props "00000000-0000-4000-8000-000000000000" path0.

(** The sprite after the given ticks under the default configuration. *)
Definition after (timestamps : list number) (draws : list Q)
  : FlyingItem.State :=
  fst (FlyingItem.ticks defaultConfig window props timestamps mounted
         (world draws)).

(** The draws of two leg completions: the first makes the next leg no
    zoomie and grants butter; the second, which draws 0 throughout, makes
    it a zoomie and a cop. *)
Definition butterThenCop : list Q := [0; 0; 0; 0; 1 # 2; 0; 0].

(** The draws of one leg completion: a zoomie that is no cop and gets
    butter, with 19/20 as the draw of the slice count. *)
Definition butteredZoomie : list Q :=
  [0; 0; 0; 0; 0; 1 # 2; 1 # 2; 0; 19 # 20].

(** The sprite in flight: mounted and ticked once, at time 1000. *)
Definition inFlight : FlyingItem.State := after [Fin 1000] [].

(** A Christmas configuration with three Christmas toasters. *)
Definition christmasThree : Config := {|
  showLabels := true;
  showStatus := true;
  remoteDataUrl := "https://flyingk8s.milagrofrost.com/flyingk8s.json";
  updateInterval := Fin 60000;
  staggerInterval := Fin 500;
  durationMin := Fin 15000;
  durationMax := Fin 20000;
  minSizeToaster := Fin 200;
  maxSizeToaster := Fin 600;
  minSizeToast := Fin 100;
  maxSizeToast := Fin 400;
  maxMemoryToast := Fin 1000;
  maxCpuToast := Fin 100;
  zoomiesFreq := Fin 10;
  copsFreq := Fin 5;
  copsAndRobbers := true;
  butterChance := Fin 5;
  butterMaxSlices := Fin 10;
  copSoundChance := Fin 5;
  totalPoliceSounds := Fin 14;
  excludeNamespaces := ["argocd"];
  christmasMode := true;
  christmasToasters := ["elf"; "reindeer"; "snowman"];
  santaFreq := Fin (1 # 10);
|}.

(** The sample pod sprite with its sound on. *)
Definition unmuted : FlyingItem.Props :=
  {| FlyingItem.data := pod80;
     FlyingItem.type := toast;
     FlyingItem.size := Fin 250;
     FlyingItem.initialDuration := Fin 15000;
     FlyingItem.delay := Fin 0;
     FlyingItem.isMuted := false;
     FlyingItem.isPaused := false |}.

(** A node sprite, of the size App gives to a node that uses half of its
    memory. *)
Definition nodeProps : FlyingItem.Props :=
  {| FlyingItem.data := nodeA;
     FlyingItem.type := toaster;
     FlyingItem.size := Fin 400;
     FlyingItem.initialDuration := Fin 15000;
     FlyingItem.delay := Fin 0;
     FlyingItem.isMuted := true;
     FlyingItem.isPaused := false |}.

(** A cop with its sound on, after the first tick of its leg: two legs
    whose draws are all 0 make the second a zoomie and a cop, on the path
    from (-250, -500) to (1920, 1080), with a duration of 5000 from time
    17000 on. *)
Definition copOnPatrol : FlyingItem.State :=
  fst (FlyingItem.ticks defaultConfig window unmuted
         [Fin 1000; Fin 16000; Fin 17000] mounted (world [])).

(** The application with the first snapshot shown and the images loaded. *)
Definition running : App.State := App.onLoadCallback shown1.

(** The reports of the browser when the last of the fifteen images of
    normal mode fails to load. *)
Definition lastImageFails : list ImageEvent :=
  (repeat onload 14 ++ [onerror])%list.

(** Two runs of the effect, in each of which the last image fails: the run
    at mount with the first snapshot, and the run after that update with
    the second. *)
Definition failingRuns : list App.Happening :=
  [ App.preloaded lastImageFails;
    App.answered None (snapshot1, "remote");
    App.preloaded lastImageFails;
    App.answered (Some "2024-11-05T10:00:00Z (remote)") (snapshot2, "remote") ].

(** The cop of the second leg of the sample sprite under the Christmas
    configuration, whose draws are all 0. *)
Definition christmasCop : FlyingItem.State :=
  fst (FlyingItem.ticks christmasThree window props [Fin 1000; Fin 16000]
         mounted (world [])).

End Sample.

(** * Properties *)

(** ** Facts about numbers *)

Module JsFacts.
Local Open Scope Q_scope.

Lemma Qltb_spec (a b : Q) : reflect (a < b) (Js.Qltb a b).
Proof.
  unfold Js.Qltb. destruct (a ?= b) eqn:E; constructor.
  - apply Qeq_alt in E. lra.
  - now apply Qlt_alt.
  - apply Qgt_alt in E. lra.
Qed.

Lemma Qltb_true (a b : Q) : Js.Qltb a b = true <-> a < b.
Proof. destruct (Qltb_spec a b); intuition congruence. Qed.

Lemma Qltb_false (a b : Q) : Js.Qltb a b = false <-> b <= a.
Proof. destruct (Qltb_spec a b); split; intros; try congruence; lra. Qed.

Lemma Qis_zero_spec (a : Q) : reflect (a == 0) (Js.Qis_zero a).
Proof.
  unfold Js.Qis_zero. destruct (a ?= 0) eqn:E; constructor.
  - now apply Qeq_alt.
  - apply Qlt_alt in E. lra.
  - apply Qgt_alt in E. lra.
Qed.

(** A value at or above a finite bound is not below a smaller bound. *)
Lemma le_not_lt (a b : Q) (r : number) :
  b <= a -> Js.le (Fin a) r = true -> Js.lt r (Fin b) = false.
Proof.
  intros Hba. destruct r as [q | s | ]; simpl; try congruence.
  - rewrite negb_true_iff, !Qltb_false. lra.
  - now destruct s.
Qed.

Lemma lt_weaken (r : number) (a b : Q) :
  a <= b -> Js.lt r (Fin b) = false -> Js.lt r (Fin a) = false.
Proof.
  intros Hab. destruct r as [q | s | ]; simpl; try congruence.
  rewrite !Qltb_false. lra.
Qed.

End JsFacts.

(** ** The sprite image selector *)

Section Selector.

Variable StringToNumber : string -> number.
Variable config : Config.

Local Abbreviation chooseImageType :=
  (NormalMode.chooseImageType StringToNumber config).
Local Abbreviation usageRatio := (NormalMode.usageRatio StringToNumber config).

(** The sentinel test singles out the string ["4040404"]. *)
Lemma is_sentinel_iff (v : usage) :
  is_sentinel v = true <-> v = UStr "4040404".
Proof.
  destruct v as [n | s]; simpl.
  - split; discriminate.
  - rewrite String.eqb_eq. split; [intros -> | intros [= ->]]; reflexivity.
Qed.

(** Past the sentinel test the selector is the threshold map of the
    specification applied to the ratio it computed. *)
Lemma chooseImageType_ordinal (data : Entity) (type : kind) :
  is_sentinel (cpuUsage data) = false ->
  chooseImageType data type =
  Spec.variantName type
    (Spec.ordinal (ToNumber StringToNumber (usageRatio data type))).
Proof.
  intros Hs. unfold NormalMode.chooseImageType, NormalMode.lessThan,
    Spec.ordinal. rewrite Hs.
  destruct (Js.lt _ (Fin (1 # 4))); [reflexivity |].
  destruct (Js.lt _ (Fin (1 # 2))); [reflexivity |].
  destruct (Js.lt _ (Fin (3 # 4))); reflexivity.
Qed.

(** An entity whose [cpuUsage] is the no-data marker gets the missing
    variant of its kind from the normal-mode selector, whatever the rest of
    the entity and the configuration. *)
Lemma normal_mode_sentinel (data : Entity) (type : kind) :
  cpuUsage data = UStr "4040404" ->
  chooseImageType data type =
  match type with
  | toast => "missing-toast"
  | toaster => "missing-toaster"
  end.
Proof.
  intros H. unfold NormalMode.chooseImageType. rewrite H. simpl.
  destruct type; reflexivity.
Qed.

(** C6. For an entity without the no-data marker, in normal mode, with [r]
    the ratio the selector computed: variant 1 for [r] in [[0, 0.25)],
    variant 2 for [r] in [[0.25, 0.5)], variant 3 for [r] in [[0.5, 0.75)],
    variant 4 for [r >= 0.75]; each of the bounds 0.25, 0.5 and 0.75 itself
    goes to the higher bucket, not the lower one. *)
Theorem ratio_buckets (data : Entity) (type : kind) (r : number) :
  is_sentinel (cpuUsage data) = false ->
  r = ToNumber StringToNumber (usageRatio data type) ->
  ((Fin 0 <=? r)%js = true -> (r <? Fin (1 # 4))%js = true ->
   chooseImageType data type = kind_name type ++ "1") /\
  ((Fin (1 # 4) <=? r)%js = true -> (r <? Fin (1 # 2))%js = true ->
   chooseImageType data type = kind_name type ++ "2") /\
  ((Fin (1 # 2) <=? r)%js = true -> (r <? Fin (3 # 4))%js = true ->
   chooseImageType data type = kind_name type ++ "3") /\
  ((r >=? Fin (3 # 4))%js = true ->
   chooseImageType data type = kind_name type ++ "4") /\
  (r = Fin (1 # 4) -> chooseImageType data type = kind_name type ++ "2") /\
  (r = Fin (1 # 2) -> chooseImageType data type = kind_name type ++ "3") /\
  (r = Fin (3 # 4) -> chooseImageType data type = kind_name type ++ "4").
Proof.
  intros Hs Hr. rewrite (chooseImageType_ordinal _ _ Hs), <- Hr. clear Hr.
  unfold Spec.ordinal, Js.ge. repeat split; try (intros ->; reflexivity).
  - intros _ ->. reflexivity.
  - intros Hlo ->.
    rewrite (JsFacts.le_not_lt (1 # 4) (1 # 4) r); [reflexivity | lra | exact Hlo].
  - intros Hlo ->.
    rewrite (JsFacts.le_not_lt (1 # 2) (1 # 4) r); [| lra | exact Hlo].
    rewrite (JsFacts.le_not_lt (1 # 2) (1 # 2) r); [reflexivity | lra | exact Hlo].
  - intros Hlo.
    rewrite (JsFacts.le_not_lt (3 # 4) (1 # 4) r); [| lra | exact Hlo].
    rewrite (JsFacts.le_not_lt (3 # 4) (1 # 2) r); [| lra | exact Hlo].
    rewrite (JsFacts.le_not_lt (3 # 4) (3 # 4) r); [reflexivity | lra | exact Hlo].
Qed.

(** C1, as the code has it.  For an entity without the no-data marker the
    normal-mode selector takes its ratio from [cpuUsage] for both kinds:
    [cpuUsage / config.maxCpuToast] for a toast and [cpuUsage] as it is
    for a toaster.  The variant is the threshold map of that ratio, and
    [memoryUsage] has no part in it: two entities with the same [cpuUsage]
    get the same variant. *)
Theorem ratio_is_cpu_based (data : Entity) (type : kind) :
  is_sentinel (cpuUsage data) = false ->
  let cpu := ToNumber StringToNumber (cpuUsage data) in
  let r := match type with
           | toast => (cpu / maxCpuToast config)%js
           | toaster => cpu
           end in
  ToNumber StringToNumber (usageRatio data type) = r /\
  chooseImageType data type = Spec.variantName type (Spec.ordinal r) /\
  (forall data' : Entity,
      cpuUsage data' = cpuUsage data ->
      chooseImageType data' type = chooseImageType data type).
Proof.
  intros Hs cpu r.
  assert (Hr : ToNumber StringToNumber (usageRatio data type) = r)
    by (destruct type; reflexivity).
  split; [exact Hr |]. split.
  - rewrite (chooseImageType_ordinal _ _ Hs), Hr. reflexivity.
  - intros data' Hcpu.
    unfold NormalMode.chooseImageType, NormalMode.usageRatio.
    rewrite Hcpu. reflexivity.
Qed.

End Selector.

(** ** The selector in both modes *)

Section Modes.

Variable StringToNumber : string -> number.
Variable config : Config.

(** The selector of the single-file variant is the mode dispatch of
    App.js. *)
Lemma imgType_is_mode_dispatch (data : Entity) (type : kind) :
  SingleFile.imgType StringToNumber config data type =
  App.chooseImageType StringToNumber config data type.
Proof.
  unfold SingleFile.imgType, App.chooseImageType,
    ChristmasMode.chooseImageType, NormalMode.chooseImageType,
    NormalMode.usageRatio, NormalMode.lessThan.
  destruct (christmasMode config); [reflexivity |].
  destruct (is_sentinel (cpuUsage data)); [now destruct type |].
  repeat match goal with |- context [if ?b then _ else _] => destruct b end;
    reflexivity.
Qed.

(** With Christmas mode off, the selector a sprite receives from App.js is
    the normal-mode selector; so is that of the single-file variant. *)
Lemma normal_mode_dispatch (data : Entity) (type : kind) (w : World) :
  christmasMode config = false ->
  fst (run (App.chooseImageType StringToNumber config data type) w) =
    Some (NormalMode.chooseImageType StringToNumber config data type) /\
  fst (run (SingleFile.imgType StringToNumber config data type) w) =
    Some (NormalMode.chooseImageType StringToNumber config data type).
Proof.
  intros Hmode. rewrite imgType_is_mode_dispatch.
  unfold App.chooseImageType. rewrite Hmode. split; reflexivity.
Qed.

(** C5, as the code has it.  With Christmas mode off, an entity whose
    [cpuUsage] is the no-data marker ['4040404'] gets the missing variant
    of its kind, ['missing-toast'] for a toast and ['missing-toaster'] for
    a toaster, whatever its [memoryUsage]: from the selector App.js hands
    to the sprite, from the selector of the single-file variant, and from
    the normal-mode selector itself. *)
Theorem sentinel_selects_missing_variant
  (data : Entity) (type : kind) (w : World) :
  christmasMode config = false ->
  cpuUsage data = UStr "4040404" ->
  let missing := match type with
                 | toast => "missing-toast"
                 | toaster => "missing-toaster"
                 end in
  fst (run (App.chooseImageType StringToNumber config data type) w)
    = Some missing /\
  fst (run (SingleFile.imgType StringToNumber config data type) w)
    = Some missing /\
  NormalMode.chooseImageType StringToNumber config data type = missing.
Proof.
  intros Hmode Hcpu missing.
  destruct (normal_mode_dispatch data type w Hmode) as [Happ Hsingle].
  rewrite Happ, Hsingle, (normal_mode_sentinel _ _ _ _ Hcpu).
  repeat split; reflexivity.
Qed.

(** With Christmas mode on, the selector never looks at the entity. *)
Lemma christmas_mode_ignores_entity (data data' : Entity) (type type' : kind) :
  christmasMode config = true ->
  App.chooseImageType StringToNumber config data type =
  App.chooseImageType StringToNumber config data' type'.
Proof.
  intros Hmode. unfold App.chooseImageType. rewrite Hmode. reflexivity.
Qed.

End Modes.

(** ** Running computations *)

Section Running.

Context {A B : Type}.

Lemma run_ret (a : A) (w : World) : run (ret a) w = (a, w).
Proof. reflexivity. Qed.

Lemma run_bind (c : M A) (f : A -> M B) (w : World) :
  run (bind c f) w = run (f (fst (run c w))) (snd (run c w)).
Proof. unfold run. cbn. destruct (runState c w). reflexivity. Qed.

End Running.

Lemma skip_skip (j k : nat) (w : World) : skip j (skip k w) = skip (k + j) w.
Proof. unfold skip. simpl. rewrite Nat.add_assoc. reflexivity. Qed.

Lemma draw_skip (j k : nat) (w : World) : draw (skip k w) j = draw w (k + j).
Proof. unfold draw, skip. simpl. rewrite Nat.add_assoc. reflexivity. Qed.

Lemma draw_next_uuid (k : nat) (w : World) : draw (next_uuid w) k = draw w k.
Proof. reflexivity. Qed.

Lemma run_Math_random (w : World) :
  run Math_random w = (Fin (draw w 0), skip 1 w).
Proof.
  unfold run, draw, skip. cbn. rewrite Nat.add_0_r, Nat.add_1_r. reflexivity.
Qed.

Lemma run_uuidv4 (w : World) :
  run uuidv4 w = (uuids w (uuid_pos w), next_uuid w).
Proof. reflexivity. Qed.

Lemma unit_draws_draw (w : World) (k : nat) :
  unit_draws w -> (0 <= draw w k /\ draw w k < 1)%Q.
Proof. intros H. apply H. Qed.

Lemma unit_draws_sample (l : list Q) :
  Forall (fun q => 0 <= q /\ q < 1)%Q l -> unit_draws (Sample.world l).
Proof.
  intros H i. simpl. revert i.
  induction H as [| q l Hq _ IH]; intros [| i]; simpl; try lra; apply IH.
Qed.

(** One call of [Math.random()] at the head of a computation. *)
Ltac run_draw := rewrite run_bind, run_Math_random; cbn [fst snd].

(** ** Totality of the selector *)

Section SelectorTotal.

Local Open Scope Q_scope.

(** [Math.floor(u * n)] for [u] in [[0, 1)] and a whole [n >= 1] is a
    whole number from [0] to [n - 1]. *)
Lemma floor_scaled_draw (u : Q) (n : Z) :
  0 <= u < 1 -> (1 <= n)%Z ->
  (0 <= Qfloor (u * inject_Z n) < n)%Z.
Proof.
  intros [H0 H1] Hn.
  assert (Hn' : inject_Z 0 < inject_Z n) by (rewrite <- Zlt_Qlt; lia).
  change (inject_Z 0) with 0 in Hn'.
  split.
  - change 0%Z with (Qfloor 0). apply Qfloor_resp_le. nra.
  - rewrite Zlt_Qlt.
    apply Qle_lt_trans with (u * inject_Z n); [apply Qfloor_le | nra].
Qed.

(** Indexing an array at a whole position inside it. *)
Lemma index_whole {T : Type} (arr : list T) (z : Z) :
  (0 <= z < Z.of_nat (List.length arr))%Z ->
  exists x, Js.index arr (Fin (inject_Z z)) = Some x /\ In x arr.
Proof.
  intros Hz. unfold Js.index. rewrite Qfloor_Z.
  assert (E : Qeq_bool (inject_Z z) (inject_Z z) = true)
    by (apply Qeq_bool_iff; reflexivity).
  rewrite E. destruct (Z.leb_spec 0 z) as [_ | ?]; [simpl | lia].
  destruct (nth_error arr (Z.to_nat z)) as [x |] eqn:Ex.
  - exists x. split; [reflexivity | eapply nth_error_In; eassumption].
  - apply nth_error_None in Ex. lia.
Qed.

(** A random pick from a non-empty array is one of its elements. *)
Lemma random_pick {T : Type} (arr : list T) (u : Q) :
  0 <= u < 1 -> arr <> [] ->
  exists x,
    Js.index arr (Js.floor (Fin u * Js.length arr)%js) = Some x /\ In x arr.
Proof.
  intros Hu Hne. simpl. apply index_whole.
  apply floor_scaled_draw; [exact Hu |].
  destruct arr; [congruence | simpl List.length; lia].
Qed.

(** A random pick from the empty array is [undefined]. *)
Lemma random_pick_empty {T : Type} (r : number) :
  Js.index (@nil T) (Js.floor (r * Js.length (@nil T))%js) = None.
Proof.
  unfold Js.index. destruct (Js.floor _); [| reflexivity ..].
  destruct (_ && _); [| reflexivity]. now destruct (Z.to_nat _).
Qed.

Variable StringToNumber : string -> number.
Variable config : Config.

(** What the Christmas selector returns: Santa when the first draw is below
    [santaFreq], else the pick of the second draw. *)
Lemma run_christmas (data : Entity) (type : kind) (w : World) :
  fst (run (ChristmasMode.chooseImageType config data type) w) =
  if (Fin (draw w 0) <? santaFreq config)%js then Some "santa"
  else Js.index (christmasToasters config)
         (Js.floor (Fin (draw w 1) * Js.length (christmasToasters config))%js).
Proof.
  unfold ChristmasMode.chooseImageType.
  run_draw.
  destruct (Js.lt _ _); [reflexivity |].
  run_draw.
  rewrite run_ret, draw_skip. reflexivity.
Qed.

(** C4, as the code has it.  The selector returns a defined variant name
    for every entity and kind in normal mode, and in Christmas mode when
    the configured list of Christmas toasters is not empty; the name is
    then ['santa'] or a member of that list.  ([Math.random()] returns
    values in [[0, 1)].) *)
Theorem chooseImageType_defined (data : Entity) (type : kind) (w : World) :
  unit_draws w ->
  (christmasMode config = true -> christmasToasters config <> []) ->
  exists name : string,
    fst (run (App.chooseImageType StringToNumber config data type) w)
    = Some name /\
    (christmasMode config = true ->
     name = "santa" \/ In name (christmasToasters config)) /\
    (christmasMode config = false ->
     name = NormalMode.chooseImageType StringToNumber config data type).
Proof.
  intros Hw Hne. unfold App.chooseImageType.
  destruct (christmasMode config) eqn:Hmode.
  - rewrite run_christmas.
    destruct (Js.lt _ _).
    + exists "santa". repeat split; auto; discriminate.
    + destruct (random_pick (christmasToasters config) (draw w 1))
        as [x [Hx Hin]]; [apply unit_draws_draw, Hw | auto |].
      exists x. repeat split; auto; discriminate.
  - rewrite run_ret. eexists. split; [reflexivity |].
    split; [discriminate | reflexivity].
Qed.

End SelectorTotal.

(** ** How often a threshold test succeeds

    The decorations are drawn by tests [Math.random() < 1 / freq].  Over
    evenly spread draws the test succeeds for the fraction [1 / freq] of
    them: of the [freq * n] draws [k / (freq * n)], exactly [n] pass. *)

Section Frequency.

Local Open Scope Q_scope.

(** The draw [k / (f * n)] is below [1 / f] exactly for [k < n]. *)
Lemma grid_draw_below (f n k : nat) :
  (1 <= f)%nat -> (1 <= n)%nat ->
  (Fin (inject_Z (Z.of_nat k) / inject_Z (Z.of_nat (f * n)))
   <? Fin 1 / Fin (inject_Z (Z.of_nat f)))%js
  = (k <? n)%nat.
Proof.
  intros Hf Hn.
  assert (HF : 0 < inject_Z (Z.of_nat f))
    by (change 0 with (inject_Z 0); rewrite <- Zlt_Qlt; lia).
  assert (HN : 0 < inject_Z (Z.of_nat n))
    by (change 0 with (inject_Z 0); rewrite <- Zlt_Qlt; lia).
  unfold Js.div.
  destruct (JsFacts.Qis_zero_spec (inject_Z (Z.of_nat f))) as [E | _]; [lra |].
  cbn [Js.lt].
  rewrite Nat2Z.inj_mul, inject_Z_mult.
  set (F := inject_Z (Z.of_nat f)) in *.
  set (N := inject_Z (Z.of_nat n)) in *.
  set (K := inject_Z (Z.of_nat k)).
  assert (Hiff : K / (F * N) < 1 / F <-> K < N).
  { assert (E1 : K / (F * N) == (K / N) * (1 / F)) by (field; lra).
    rewrite E1. clear E1.
    assert (H1F : 0 < 1 / F) by (apply Qlt_shift_div_l; lra).
    split; intros H.
    - assert (H1 : K / N < 1) by nra.
      apply (Qmult_lt_r _ _ N HN) in H1.
      assert (E2 : K / N * N == K) by (field; lra). lra.
    - assert (H1 : K / N < 1) by (apply Qlt_shift_div_r; lra). nra. }
  destruct (Nat.ltb_spec k n) as [Hkn | Hkn].
  - apply JsFacts.Qltb_true, Hiff. unfold K, N. rewrite <- Zlt_Qlt. lia.
  - apply JsFacts.Qltb_false. apply Qnot_lt_le. intros H. apply Hiff in H.
    unfold K, N in H. rewrite <- Zlt_Qlt in H. lia.
Qed.

Lemma count_below (n m : nat) :
  (n <= m)%nat ->
  List.length (filter (fun k => (k <? n)%nat) (seq 0 m)) = n.
Proof.
  induction m as [| m IH]; intros Hnm.
  - simpl. lia.
  - rewrite seq_S, filter_app, length_app. simpl.
    destruct (Nat.ltb_spec m n) as [Hlt | Hge].
    + assert (n = S m) by lia. subst n. simpl.
      assert (E : filter (fun k => (k <? S m)%nat) (seq 0 m) = seq 0 m).
      { apply forallb_filter_id. apply forallb_forall. intros x Hx.
        apply in_seq in Hx. apply Nat.ltb_lt. lia. }
      rewrite E, length_seq. lia.
    + simpl. rewrite IH by lia. lia.
Qed.

(** Of the [f * n] evenly spread draws, [n] are below [1 / f]. *)
Lemma threshold_frequency (f n : nat) :
  (1 <= f)%nat -> (1 <= n)%nat ->
  List.length
    (filter (fun k =>
               (Fin (inject_Z (Z.of_nat k) / inject_Z (Z.of_nat (f * n)))
                <? Fin 1 / Fin (inject_Z (Z.of_nat f)))%js)
            (seq 0 (f * n)))
  = n.
Proof.
  intros Hf Hn.
  rewrite (filter_ext _ (fun k => (k <? n)%nat)
             (fun k => grid_draw_below f n k Hf Hn)).
  apply count_below. nia.
Qed.

End Frequency.

(** ** The sprite animation controller *)

Section Controller.

Import FlyingItem.

Variable config : Config.
Variable window : Window.
Variable props : Props.

Local Abbreviation generateRandomPath := (generateRandomPath window props).
Local Abbreviation decorate := (decorate config props).
Local Abbreviation nextCycle := (nextCycle config window props).
Local Abbreviation moveItem := (moveItem config window props).

Lemma run_andM (b : bool) (e : M bool) (w : World) :
  run (andM b e) w = if b then run e w else (false, w).
Proof. destruct b; reflexivity. Qed.

(** [generateRandomPath] calls [Math.random()] four times. *)
Lemma generateRandomPath_draws (w : World) :
  snd (run generateRandomPath w) = skip 4 w.
Proof.
  unfold FlyingItem.generateRandomPath.
  run_draw.
  destruct (Js.lt _ _);
    repeat run_draw;
    rewrite run_ret; cbn [snd]; rewrite !skip_skip; reflexivity.
Qed.

(** The decoration in closed form, from the draws it makes. *)
Lemma run_decorate (z hb : bool) (w : World) :
  fst (run (decorate z hb) w) =
  let copDrawn := z && copsAndRobbers config in
  let k := if copDrawn then 1%nat else 0%nat in
  if copDrawn && (Fin (draw w 0) <? Fin 1 / copsFreq config)%js
  then (true, hb, Fin 0)
  else if (butterChance config >? Fin 0)%js
          && (Fin (draw w k) <? Fin 1 / butterChance config)%js
          && is_toast (type props)
  then (false, true,
        if z
        then (Js.floor (Fin (draw w (S k)) * butterMaxSlices config) + Fin 1)%js
        else Fin 0)
  else (false, false, Fin 0).
Proof.
  unfold FlyingItem.decorate. rewrite run_bind, run_andM.
  destruct (z && copsAndRobbers config) eqn:Hcd; cbn [andb].
  - run_draw. rewrite run_ret.
    cbn [fst snd].
    destruct (Js.lt (Fin (draw w 0)) _); [reflexivity |].
    rewrite run_bind, run_andM.
    destruct (Js.gt _ _); cbn [andb fst snd].
    + run_draw. rewrite run_ret.
      cbn [fst snd]. rewrite draw_skip. cbn [Nat.add].
      destruct (Js.lt _ _); cbn [andb]; [| reflexivity].
      destruct (is_toast _); [| reflexivity].
      destruct z; [| reflexivity].
      run_draw. rewrite run_ret.
      cbn [fst]. rewrite !draw_skip. reflexivity.
    + reflexivity.
  - cbn [fst snd].
    rewrite run_bind, run_andM.
    destruct (Js.gt _ _); cbn [andb fst snd].
    + run_draw. rewrite run_ret.
      cbn [fst snd].
      destruct (Js.lt _ _); cbn [andb]; [| reflexivity].
      destruct (is_toast _); [| reflexivity].
      destruct z; [| reflexivity].
      run_draw. rewrite run_ret.
      cbn [fst]. rewrite !draw_skip. reflexivity.
    + reflexivity.
Qed.

(** The state after the [else] branch, field by field. *)
Lemma run_nextCycle (s : State) (w : World) :
  let s' := fst (fst (run (nextCycle s) w)) in
  let z := (Fin (draw w Draws.zoomie) <? Fin 1 / zoomiesFreq config)%js in
  let base := (Fin (draw w Draws.duration)
               * (durationMax config - durationMin config)
               + durationMin config)%js in
  isZoomie s' = z /\
  duration s' = (if z then (base / Fin 3)%js else base) /\
  (isCop s', hasButter s', butterSlices s') =
    fst (run (decorate z (hasButter s)) (skip 6 (next_uuid w))) /\
  startTimeRef s' = None /\
  audioPlayed s' = false.
Proof.
  unfold FlyingItem.nextCycle, Draws.zoomie, Draws.duration.
  rewrite run_bind, generateRandomPath_draws.
  rewrite run_bind, run_uuidv4. cbn [fst snd].
  run_draw.
  run_draw.
  rewrite run_bind.
  replace (draw (next_uuid (skip 4 w)) 0) with (draw w 4)
    by (rewrite draw_next_uuid, draw_skip; reflexivity).
  replace (draw (skip 1 (next_uuid (skip 4 w))) 0) with (draw w 5)
    by (unfold draw, skip, next_uuid; simpl; f_equal; lia).
  replace (skip 1 (skip 1 (next_uuid (skip 4 w)))) with (skip 6 (next_uuid w))
    by (unfold skip, next_uuid; simpl; f_equal; lia).
  destruct (fst (run (decorate _ _) _)) as [[cop butter] slices].
  rewrite run_ret. cbn. repeat split; reflexivity.
Qed.

(** A tick that completes a leg makes no call of [Math.random()] before
    the [else] branch, and hands it the butter flag as it was. *)
Lemma moveItem_completes (timestamp : number) (s : State) (w : World) :
  (progress timestamp s <? Fin 1)%js = false ->
  exists s1 : State,
    hasButter s1 = hasButter s /\
    fst (fst (run (moveItem timestamp s) w)) = fst (fst (run (nextCycle s1) w)).
Proof.
  intros Hp. unfold FlyingItem.moveItem.
  rewrite (JsFacts.lt_weaken _ (4 # 5) 1 ltac:(lra) Hp), andb_false_r.
  rewrite run_bind, run_ret. cbn [fst snd]. rewrite Hp.
  rewrite run_bind.
  match goal with
  | |- context [run (nextCycle ?s1) w] => exists s1
  end.
  split; [reflexivity |].
  destruct (fst (run (nextCycle _) w)) as [s2 frame].
  rewrite run_ret. reflexivity.
Qed.

(** A tick inside a leg leaves the decoration as it is. *)
Lemma moveItem_in_progress (timestamp : number) (s : State) (w : World) :
  (progress timestamp s <? Fin 1)%js = true ->
  let s' := fst (fst (run (moveItem timestamp s) w)) in
  isZoomie s' = isZoomie s /\ isCop s' = isCop s /\
  hasButter s' = hasButter s /\ butterSlices s' = butterSlices s /\
  duration s' = duration s.
Proof.
  intros Hp. unfold FlyingItem.moveItem.
  rewrite run_bind. rewrite Hp.
  destruct (fst (run _ w)) as [played sound].
  rewrite run_ret. cbn. repeat split; reflexivity.
Qed.

(** The state after a completing tick, field by field. *)
Lemma moveItem_next_leg (timestamp : number) (s : State) (w : World) :
  (progress timestamp s <? Fin 1)%js = false ->
  let s' := fst (fst (run (moveItem timestamp s) w)) in
  let z := (Fin (draw w Draws.zoomie) <? Fin 1 / zoomiesFreq config)%js in
  let base := (Fin (draw w Draws.duration)
               * (durationMax config - durationMin config)
               + durationMin config)%js in
  isZoomie s' = z /\
  duration s' = (if z then (base / Fin 3)%js else base) /\
  (isCop s', hasButter s', butterSlices s') =
    fst (run (decorate z (hasButter s)) (skip 6 (next_uuid w))).
Proof.
  intros Hp. destruct (moveItem_completes timestamp s w Hp) as [s1 [Hb ->]].
  destruct (run_nextCycle s1 w) as [Hz [Hd [Hdec _]]].
  rewrite Hb in Hdec. auto.
Qed.

(** The duration drawn for a leg, between finite bounds: it is
    [durationMin + u * (durationMax - durationMin)] for the draw [u], so it
    lies in [[durationMin, durationMax]], and below [durationMax] when the
    bounds differ. *)
Lemma base_duration_range (u lo hi : Q) :
  (0 <= u < 1)%Q -> (lo <= hi)%Q ->
  exists b : Q,
    (Fin u * (Fin hi - Fin lo) + Fin lo)%js = Fin b /\
    (b == lo + u * (hi - lo))%Q /\
    (lo <= b <= hi)%Q /\ ((lo < hi)%Q -> (b < hi)%Q).
Proof.
  intros Hu Hlh. eexists. split; [reflexivity |].
  split; [ring |]. split; [| intros Hlt]; nra.
Qed.

(** C8. At a leg completion the sprite is flagged a zoomie exactly when the
    zoomie draw [u] is below [1 / config.zoomiesFreq] (for [u] uniform in
    [[0, 1)] and [zoomiesFreq >= 1], an event of probability
    [1 / zoomiesFreq]).  The new duration is the value
    [u' * (durationMax - durationMin) + durationMin] of a second draw [u'],
    a value of [[durationMin, durationMax]] spread as [u'] is, divided by 3
    for a zoomie and as it is otherwise. *)
Theorem zoomie_and_duration (timestamp : number) (s : State) (w : World) :
  (progress timestamp s <? Fin 1)%js = false ->
  let s' := fst (fst (run (moveItem timestamp s) w)) in
  let base := (Fin (draw w Draws.duration)
               * (durationMax config - durationMin config)
               + durationMin config)%js in
  isZoomie s' = (Fin (draw w Draws.zoomie) <? Fin 1 / zoomiesFreq config)%js /\
  (forall f : Q, zoomiesFreq config = Fin f -> (0 < f)%Q ->
     (isZoomie s' = true <-> (draw w Draws.zoomie < 1 / f)%Q)) /\
  (isZoomie s' = true -> duration s' = (base / Fin 3)%js) /\
  (isZoomie s' = false -> duration s' = base) /\
  (forall lo hi : Q,
     durationMin config = Fin lo -> durationMax config = Fin hi ->
     (lo <= hi)%Q -> unit_draws w ->
     exists b : Q,
       base = Fin b /\
       (b == lo + draw w Draws.duration * (hi - lo))%Q /\
       (lo <= b <= hi)%Q /\ ((lo < hi)%Q -> (b < hi)%Q)).
Proof.
  intros Hp s' base.
  destruct (moveItem_next_leg timestamp s w Hp) as [Hz [Hd _]].
  fold s' in Hz, Hd. fold base in Hd. rewrite <- Hz in Hd.
  split; [exact Hz |]. split; [| split; [| split]].
  - intros f Hf Hpos. rewrite Hz, Hf. unfold Js.div.
    destruct (JsFacts.Qis_zero_spec f) as [E | _]; [lra |].
    unfold Js.lt. apply JsFacts.Qltb_true.
  - intros E. rewrite E in Hd. exact Hd.
  - intros E. rewrite E in Hd. exact Hd.
  - intros lo hi Hlo Hhi Hle Hw. unfold base. rewrite Hlo, Hhi.
    apply base_duration_range; [apply unit_draws_draw, Hw | exact Hle].
Qed.

(** The slice count of a buttered zoomie, for a whole [butterMaxSlices]
    of at least 1: a whole number from 1 to [butterMaxSlices], and it is
    [k] exactly for the draws of [[(k - 1) / max, k / max)], one interval
    of the same length for each [k]. *)
Lemma slice_count_range (u : Q) (m : Z) :
  (0 <= u < 1)%Q -> (1 <= m)%Z ->
  exists k : Z,
    Js.whole (Js.floor (Fin u * Fin (inject_Z m)) + Fin 1)%js = Some k /\
    (1 <= k <= m)%Z /\
    (inject_Z (k - 1) / inject_Z m <= u < inject_Z k / inject_Z m)%Q.
Proof.
  intros Hu Hm.
  pose proof (floor_scaled_draw u m Hu Hm) as Hfl.
  set (z := Qfloor (u * inject_Z m)) in *.
  assert (Hm' : (0 < inject_Z m)%Q)
    by (change 0%Q with (inject_Z 0); rewrite <- Zlt_Qlt; lia).
  assert (E : (inject_Z z + 1 == inject_Z (z + 1))%Q)
    by (rewrite inject_Z_plus; reflexivity).
  exists (z + 1)%Z. split; [| split; [lia |]].
  - cbn [Js.mul Js.floor Js.add Js.whole]. fold z.
    assert (Ef : Qfloor (inject_Z z + 1) = (z + 1)%Z).
    { rewrite <- (Qfloor_Z (z + 1)). unfold Qfloor; simpl. f_equal; lia. }
    rewrite Ef.
    assert (Eb : Qeq_bool (inject_Z z + 1) (inject_Z (z + 1)) = true)
      by (apply Qeq_bool_iff; exact E).
    rewrite Eb. reflexivity.
  - replace (z + 1 - 1)%Z with z by lia.
    pose proof (Qfloor_le (u * inject_Z m)) as Hlo.
    pose proof (Qlt_floor (u * inject_Z m)) as Hhi.
    fold z in Hlo, Hhi. rewrite <- E.
    split.
    + apply Qle_shift_div_r; [exact Hm' | exact Hlo].
    + apply Qlt_shift_div_l; [exact Hm' |].
      rewrite E. exact Hhi.
Qed.

(** C7. At a leg completion that does not choose the cop: butter is
    granted exactly when the kind is toast, [config.butterChance > 0] and
    the butter draw [u] is below [1 / butterChance] (for [u] uniform in
    [[0, 1)] and [butterChance >= 1], an event of probability
    [1 / butterChance]).  Granted on a zoomie leg, the slice count is
    [Math.floor(u' * butterMaxSlices) + 1] for a further draw [u'], a
    whole number from 1 to [butterMaxSlices] with every value as likely
    as any other; granted on another leg, it is 0; not granted, the flag is
    cleared and the count is 0.  With [butterChance] 0 there is no
    butter. *)
Theorem butter_decoration (timestamp : number) (s : State) (w : World) :
  (progress timestamp s <? Fin 1)%js = false ->
  let s' := fst (fst (run (moveItem timestamp s) w)) in
  let u := draw w (Draws.butter config (isZoomie s')) in
  let u' := draw w (Draws.slices config (isZoomie s')) in
  isCop s' = false ->
  hasButter s' =
    is_toast (type props) && (butterChance config >? Fin 0)%js
    && (Fin u <? Fin 1 / butterChance config)%js /\
  (forall c : Q, butterChance config = Fin c -> (0 < c)%Q ->
     (hasButter s' = true <-> type props = toast /\ (u < 1 / c)%Q)) /\
  (hasButter s' = true -> isZoomie s' = true ->
   butterSlices s' = (Js.floor (Fin u' * butterMaxSlices config) + Fin 1)%js) /\
  (forall m : Z, butterMaxSlices config = Fin (inject_Z m) -> (1 <= m)%Z ->
     unit_draws w -> hasButter s' = true -> isZoomie s' = true ->
     exists k : Z,
       Js.whole (butterSlices s') = Some k /\ (1 <= k <= m)%Z /\
       (inject_Z (k - 1) / inject_Z m <= u' < inject_Z k / inject_Z m)%Q) /\
  (hasButter s' = true -> isZoomie s' = false -> butterSlices s' = Fin 0) /\
  (hasButter s' = false -> butterSlices s' = Fin 0) /\
  (forall c : Q, butterChance config = Fin c -> (c == 0)%Q ->
     hasButter s' = false).
Proof.
  intros Hp s' u u' Hcop.
  destruct (moveItem_next_leg timestamp s w Hp) as [Hz [_ Hdec]].
  fold s' in Hz, Hdec. rewrite <- Hz, run_decorate in Hdec.
  cbv zeta in Hdec.
  rewrite draw_skip, !draw_skip, !draw_next_uuid in Hdec.
  assert (Hu : draw w (6 + (if isZoomie s' && copsAndRobbers config
                            then 1 else 0)) = u)
    by (unfold u, Draws.butter;
        destruct (isZoomie s' && copsAndRobbers config); reflexivity).
  assert (Hu' : draw w (6 + S (if isZoomie s' && copsAndRobbers config
                               then 1 else 0)) = u')
    by (unfold u', Draws.slices, Draws.butter;
        destruct (isZoomie s' && copsAndRobbers config); reflexivity).
  rewrite Hu, Hu' in Hdec. clear Hu Hu'.
  destruct (_ && (Fin (draw w (6 + 0)) <? _)%js);
    [rewrite Hcop in Hdec; discriminate |].
  assert (Hgrant : hasButter s' =
            is_toast (type props) && (butterChance config >? Fin 0)%js
            && (Fin u <? Fin 1 / butterChance config)%js).
  { destruct (is_toast (type props)), (butterChance config >? Fin 0)%js,
      (Fin u <? Fin 1 / butterChance config)%js; cbn [andb] in Hdec;
      injection Hdec as _ -> _; reflexivity. }
  split; [exact Hgrant |].
  assert (Hslices : butterSlices s' =
            if hasButter s' && isZoomie s'
            then (Js.floor (Fin u' * butterMaxSlices config) + Fin 1)%js
            else Fin 0).
  { destruct (_ && is_toast (type props)); [| injection Hdec as _ -> ->; reflexivity].
    injection Hdec as _ -> ->. cbn [andb]. reflexivity. }
  split; [| split; [| split; [| split; [| split]]]].
  - intros c Hc Hpos. rewrite Hgrant, Hc.
    unfold Js.gt, Js.div.
    destruct (JsFacts.Qis_zero_spec c) as [E | _]; [lra |].
    cbn [Js.lt].
    assert (E0 : Js.Qltb 0 c = true) by (apply JsFacts.Qltb_true; exact Hpos).
    rewrite E0, andb_true_r, andb_true_iff, JsFacts.Qltb_true.
    destruct (type props); cbn; intuition congruence.
  - intros Hb Hzm. rewrite Hslices, Hb, Hzm. reflexivity.
  - intros m Hm Hm1 Hw Hb Hzm. rewrite Hslices, Hb, Hzm, Hm. cbn [andb].
    apply slice_count_range; [apply unit_draws_draw, Hw | exact Hm1].
  - intros Hb Hzm. rewrite Hslices, Hb, Hzm. reflexivity.
  - intros Hb. rewrite Hslices, Hb. reflexivity.
  - intros c Hc Hc0. rewrite Hgrant, Hc. unfold Js.gt. cbn [Js.lt].
    assert (E0 : Js.Qltb 0 c = false) by (apply JsFacts.Qltb_false; lra).
    rewrite E0, andb_false_r. reflexivity.
Qed.

(** What a leg completion that chooses the cop does to the butter: the
    slice count becomes 0 and the butter flag stays as it was. *)
Lemma cop_leaves_butter_flag (timestamp : number) (s : State) (w : World) :
  (progress timestamp s <? Fin 1)%js = false ->
  let s' := fst (fst (run (moveItem timestamp s) w)) in
  isCop s' = true ->
  butterSlices s' = Fin 0 /\ hasButter s' = hasButter s.
Proof.
  intros Hp s' Hcop.
  destruct (moveItem_next_leg timestamp s w Hp) as [_ [_ Hdec]].
  fold s' in Hdec. rewrite run_decorate in Hdec. cbv zeta in Hdec.
  destruct (_ && (Fin (draw _ 0) <? _)%js).
  - injection Hdec as _ -> ->. split; reflexivity.
  - destruct (_ && is_toast (type props)); congruence.
Qed.

(** The decoration keeps the cop away from the slices. *)
Lemma decorate_cop_slices (z hb : bool) (w : World) :
  let '(cop, _, slices) := fst (run (decorate z hb) w) in
  cop = true -> slices = Fin 0.
Proof.
  rewrite run_decorate. cbv zeta.
  destruct (_ && (Fin (draw _ 0) <? _)%js); [reflexivity |].
  destruct (_ && is_toast (type props)); discriminate.
Qed.

(** Every callback keeps the cop away from the slices. *)
Lemma moveItem_cop_slices (timestamp : number) (s : State) (w : World) :
  (isCop s = true -> butterSlices s = Fin 0) ->
  let s' := fst (fst (run (moveItem timestamp s) w)) in
  isCop s' = true -> butterSlices s' = Fin 0.
Proof.
  intros IH s'.
  destruct (progress timestamp s <? Fin 1)%js eqn:Hp.
  - destruct (moveItem_in_progress timestamp s w Hp) as [_ [Hc [_ [Hs _]]]].
    fold s' in Hc, Hs. rewrite Hc, Hs. exact IH.
  - destruct (moveItem_next_leg timestamp s w Hp) as [_ [_ Hdec]].
    fold s' in Hdec.
    pose proof (decorate_cop_slices
                  (Fin (draw w Draws.zoomie) <? Fin 1 / zoomiesFreq config)%js
                  (hasButter s) (skip 6 (next_uuid w))) as H.
    rewrite <- Hdec in H. exact H.
Qed.

(** C9. In every state a sprite reaches from its mount ([isCop] false,
    [butterSlices] 0) by leg completions, and by any of its other
    callbacks between them, a cop has no butter slices: [isCop] implies
    [butterSlices = 0]. *)
Theorem cop_has_no_slices (s : State) :
  reachable config window props s ->
  isCop s = true -> butterSlices s = Fin 0.
Proof.
  induction 1 as [uuid p | s w _ IH | s _ IH | s _ IH | timestamp s w _ IH].
  - discriminate.
  - unfold startEffect. rewrite run_bind, run_ret. exact IH.
  - exact IH.
  - unfold butterAdjustmentTimeout. destruct (_ && _); exact IH.
  - apply moveItem_cop_slices. exact IH.
Qed.

(** With [butterChance] 0 a sprite never has butter, in any state it
    reaches: the flag stays false and the slice count 0. *)
Lemma no_butter_without_chance (s : State) (c : Q) :
  butterChance config = Fin c -> (c == 0)%Q ->
  reachable config window props s ->
  hasButter s = false /\ butterSlices s = Fin 0.
Proof.
  intros Hc Hc0.
  assert (Hgt : (butterChance config >? Fin 0)%js = false).
  { rewrite Hc. unfold Js.gt. cbn [Js.lt]. apply JsFacts.Qltb_false. lra. }
  induction 1 as [uuid p | s w _ IH | s _ IH | s _ IH | timestamp s w _ IH].
  - split; reflexivity.
  - unfold startEffect. rewrite run_bind, run_ret. exact IH.
  - exact IH.
  - unfold butterAdjustmentTimeout. destruct (_ && _); exact IH.
  - destruct IH as [IHb IHs].
    destruct (progress timestamp s <? Fin 1)%js eqn:Hp.
    + pose proof (moveItem_in_progress timestamp s w Hp) as H.
      cbv zeta in H. destruct H as [_ [_ [Hb [Hs _]]]].
      rewrite Hb, Hs. split; assumption.
    + pose proof (moveItem_next_leg timestamp s w Hp) as H.
      cbv zeta in H. destruct H as [_ [_ Hdec]].
      rewrite run_decorate in Hdec. cbv zeta in Hdec.
      rewrite Hgt, IHb in Hdec. cbn [andb] in Hdec.
      destruct (_ && (Fin (draw _ 0) <? _)%js);
        injection Hdec as _ Hb Hs; (split; [exact Hb | exact Hs]).
Qed.

(** A run of ticks stays within the reachable states. *)
Lemma ticks_reachable (timestamps : list number) (s : State) (w : World) :
  reachable config window props s ->
  reachable config window props
    (fst (ticks config window props timestamps s w)).
Proof.
  revert s w. induction timestamps as [| timestamp rest IH]; intros s w Hs.
  - exact Hs.
  - change (ticks config window props (timestamp :: rest) s w)
      with (let '(s', _, w') := run (moveItem timestamp s) w in
            ticks config window props rest s' w').
    pose proof (reachable_moveItem config window props timestamp s w Hs)
      as Hstep.
    destruct (run (moveItem timestamp s) w) as [[s' ev] w'].
    apply IH. exact Hstep.
Qed.

End Controller.

(** ** The scene composer *)

Section Composer.

Import App.

Variable config : Config.

Lemma includes_iff (list : list string) (v : option string) :
  includes list v = true <-> exists ns, v = Some ns /\ In ns list.
Proof.
  destruct v as [s |]; simpl.
  - rewrite existsb_exists. split.
    + intros [x [Hin Heq]]. apply String.eqb_eq in Heq. subst x.
      exists s. auto.
    + intros [ns [[= <-] Hin]]. exists s. split; [exact Hin |].
      apply String.eqb_refl.
  - split; [discriminate | intros [ns [H _]]; discriminate].
Qed.

(** The filter of the code is the list difference of the specification. *)
Lemma filter_is_withoutNamespaces (excluded : list string) (l : list Entity) :
  filter (fun pod => negb (includes excluded (namespace pod))) l =
  Spec.withoutNamespaces excluded l.
Proof.
  induction l as [| pod rest IH]; simpl; [reflexivity |].
  rewrite IH. destruct (namespace pod) as [ns |] eqn:Hns; simpl.
  - destruct (in_dec string_dec ns excluded) as [Hin | Hout].
    + assert (E : existsb (String.eqb ns) excluded = true).
      { apply existsb_exists. exists ns. split; [exact Hin |].
        apply String.eqb_refl. }
      rewrite E. reflexivity.
    + assert (E : existsb (String.eqb ns) excluded = false).
      { apply not_true_is_false. intros H. apply existsb_exists in H.
        destruct H as [x [Hin Heq]]. apply String.eqb_eq in Heq.
        subst x. contradiction. }
      rewrite E. reflexivity.
  - reflexivity.
Qed.

(** The state after an accepted snapshot. *)
Lemma accepted_state
  (lastUpdated0 : option string) (data : Snapshot) (source : string)
  (s : State) :
  strict_neq (timestamp data) lastUpdated0 = true ->
  fetchDataAndUpdate config lastUpdated0 (data, source) s =
  {| dataQueue :=
       {| queue_pods :=
            Spec.withoutNamespaces (excludeNamespaces config) (pods data);
          queue_nodes := nodes data |};
     lastUpdated := Some (template (timestamp data) ++ " (" ++ source ++ ")");
     imagesLoaded := imagesLoaded s;
     isMuted := isMuted s;
     isPaused := isPaused s |}.
Proof.
  intros Hacc. unfold fetchDataAndUpdate. rewrite Hacc.
  rewrite filter_is_withoutNamespaces. reflexivity.
Qed.

(** What [arr.map] keeps of the elements it maps. *)
Lemma mapFrom_map {A B C : Type} (f : A -> nat -> M B) (g : B -> C) (h : A -> C)
  (arr : list A) :
  (forall x i w, g (fst (run (f x i) w)) = h x) ->
  forall index w, map g (fst (run (mapFrom f index arr) w)) = map h arr.
Proof.
  intros Hf. induction arr as [| x rest IH]; intros index w.
  - reflexivity.
  - cbn [mapFrom]. rewrite run_bind, run_bind, run_ret. cbn [fst map].
    rewrite Hf, IH. reflexivity.
Qed.

(** The status text of an accepted update is not empty. *)
Lemma status_text_not_empty (t source : string) :
  noUpdate (Some (t ++ " (" ++ source ++ ")")) = false.
Proof. destruct t; reflexivity. Qed.

(** C10. When a snapshot is accepted, the displayed pods are the pods of
    the snapshot minus those whose namespace is listed in
    [config.excludeNamespaces]: a pod is displayed exactly when it is in
    the snapshot and its namespace is not excluded.  The displayed nodes
    are the nodes of the snapshot, unchanged and unfiltered.  The sprites
    rendered from them are one toast for each pod that is left and one
    toaster for each node, so an excluded pod is never made a sprite. *)
Theorem accepted_snapshot_drops_excluded_pods
  (lastUpdated0 : option string) (data : Snapshot) (source : string)
  (s : State) (w : World) :
  strict_neq (timestamp data) lastUpdated0 = true ->
  let s' := fetchDataAndUpdate config lastUpdated0 (data, source) s in
  queue_pods (dataQueue s') =
    Spec.withoutNamespaces (excludeNamespaces config) (pods data) /\
  (forall pod : Entity,
     In pod (queue_pods (dataQueue s')) <->
     In pod (pods data) /\
     ~ (exists ns, namespace pod = Some ns /\ In ns (excludeNamespaces config)))
  /\
  queue_nodes (dataQueue s') = nodes data /\
  (imagesLoaded s = true ->
   exists items : list FlyingItem.Props,
     fst (run (render config s') w) = Some items /\
     map (fun item => (FlyingItem.data item, FlyingItem.type item)) items =
     (map (fun pod => (pod, toast))
          (Spec.withoutNamespaces (excludeNamespaces config) (pods data))
      ++ map (fun node => (node, toaster)) (nodes data))%list).
Proof.
  intros Hacc s'.
  assert (Hs' : s' = fetchDataAndUpdate config lastUpdated0 (data, source) s)
    by reflexivity.
  rewrite (accepted_state _ _ _ _ Hacc) in Hs'.
  split; [rewrite Hs'; reflexivity |]. split; [| split].
  - intros pod. unfold s', fetchDataAndUpdate. rewrite Hacc. cbn.
    rewrite filter_In, negb_true_iff, <- not_true_iff_false, includes_iff.
    reflexivity.
  - rewrite Hs'. reflexivity.
  - intros Hloaded. unfold render.
    replace (imagesLoaded s') with true by (rewrite Hs'; symmetry; exact Hloaded).
    replace (lastUpdated s')
      with (Some (template (timestamp data) ++ " (" ++ source ++ ")"))
      by (rewrite Hs'; reflexivity).
    rewrite status_text_not_empty. cbn [negb orb].
    rewrite run_bind, run_bind, run_ret. cbn [fst].
    eexists. split; [reflexivity |].
    rewrite map_app.
    rewrite (mapFrom_map (podItem config s') _ (fun pod => (pod, toast)))
      by reflexivity.
    rewrite (mapFrom_map (nodeItem config s') _ (fun node => (node, toaster)))
      by reflexivity.
    rewrite Hs'. reflexivity.
Qed.

(** An accepted snapshot replaces the displayed lists and the status text
    wholesale: nothing of what was displayed before is kept. *)
Lemma accepted_snapshot_replaces
  (lastUpdated0 : option string) (data : Snapshot) (source : string)
  (s s0 : State) :
  strict_neq (timestamp data) lastUpdated0 = true ->
  dataQueue (fetchDataAndUpdate config lastUpdated0 (data, source) s) =
  dataQueue (fetchDataAndUpdate config lastUpdated0 (data, source) s0) /\
  lastUpdated (fetchDataAndUpdate config lastUpdated0 (data, source) s) =
  lastUpdated (fetchDataAndUpdate config lastUpdated0 (data, source) s0).
Proof.
  intros Hacc. unfold fetchDataAndUpdate. rewrite Hacc. split; reflexivity.
Qed.

(** A snapshot the test rejects leaves the state as it is. *)
Lemma rejected_snapshot_skips
  (lastUpdated0 : option string) (data : Snapshot) (source : string)
  (s : State) :
  strict_neq (timestamp data) lastUpdated0 = false ->
  fetchDataAndUpdate config lastUpdated0 (data, source) s = s.
Proof. intros Hrej. unfold fetchDataAndUpdate. rewrite Hrej. reflexivity. Qed.

(** A string is not itself followed by a non-empty suffix. *)
Lemma append_neq (t x : string) : x <> "" -> t <> t ++ x.
Proof.
  intros Hx H. apply Hx. clear Hx.
  induction t as [| c t IH]; simpl in H.
  - symmetry. exact H.
  - injection H as H. exact (IH H).
Qed.

(** The test of [fetchDataAndUpdate] compares the timestamp of the feed
    with the status text [`${timestamp} (${source})`] that the last
    accepted update stored.  A snapshot with a string timestamp is never
    equal to the status text made from that very timestamp, so it is
    accepted again. *)
Lemma same_timestamp_accepted
  (lastUpdated0 : option string) (data data' : Snapshot)
  (source source' : string) (s : State) (t : string) :
  timestamp data = Some t ->
  timestamp data' = Some t ->
  strict_neq (timestamp data) lastUpdated0 = true ->
  let s1 := fetchDataAndUpdate config lastUpdated0 (data, source) s in
  let s2 := fetchDataAndUpdate config (lastUpdated s1) (data', source') s1 in
  strict_neq (timestamp data') (lastUpdated s1) = true /\
  dataQueue s2 =
    {| queue_pods :=
         Spec.withoutNamespaces (excludeNamespaces config) (pods data');
       queue_nodes := nodes data' |} /\
  lastUpdated s2 = Some (t ++ " (" ++ source' ++ ")").
Proof.
  intros Ht Ht' Hacc s1 s2.
  assert (Hneq : strict_neq (timestamp data') (lastUpdated s1) = true).
  { unfold s1, fetchDataAndUpdate. rewrite Hacc, Ht, Ht'. cbn.
    apply negb_true_iff, String.eqb_neq, append_neq. discriminate. }
  split; [exact Hneq |].
  unfold s2. rewrite (accepted_state _ _ _ _ Hneq), Ht'.
  split; reflexivity.
Qed.

End Composer.

(** C2, on a run of the code.  The feed answers twice with the timestamp
    ["2024-11-05T10:00:00Z"], first with the pods A and Argo and node A,
    then with pod B alone.  The second answer is not skipped: the displayed
    pods and nodes are replaced by those of the second answer. *)
Theorem same_timestamp_is_not_skipped :
  let s2 := App.fetchDataAndUpdate defaultConfig
              (App.lastUpdated Sample.shown1) (Sample.snapshot2, "remote")
              Sample.shown1 in
  App.timestamp Sample.snapshot2 = App.timestamp Sample.snapshot1 /\
  App.lastUpdated Sample.shown1 = Some "2024-11-05T10:00:00Z (remote)" /\
  App.queue_pods (App.dataQueue Sample.shown1) = [Sample.podA] /\
  App.queue_nodes (App.dataQueue Sample.shown1) = [Sample.nodeA] /\
  App.queue_pods (App.dataQueue s2) = [Sample.podB] /\
  App.queue_nodes (App.dataQueue s2) = [] /\
  s2 <> Sample.shown1.
Proof.
  cbv zeta. repeat split; try reflexivity.
  intros H. apply (f_equal (fun s => List.length
    (App.queue_nodes (App.dataQueue s)))) in H. vm_compute in H. discriminate.
Qed.

(** C3, on a run of the code.  A toast sprite completes two legs.  The first
    completion grants butter; the second chooses the cop.  After the second
    the sprite is a cop whose butter flag is still set: only the slice
    count was cleared. *)
Theorem cop_keeps_butter_flag :
  let s1 := Sample.after [Fin 1000; Fin 16000] Sample.butterThenCop in
  let s2 := Sample.after [Fin 1000; Fin 16000; Fin 17000]
              Sample.butterThenCop in
  let s3 := Sample.after [Fin 1000; Fin 16000; Fin 17000; Fin 32000]
              Sample.butterThenCop in
  FlyingItem.isCop s1 = false /\ FlyingItem.hasButter s1 = true /\
  (FlyingItem.progress (Fin 32000) s2 <? Fin 1)%js = false /\
  FlyingItem.isCop s3 = true /\
  FlyingItem.hasButter s3 = true /\
  FlyingItem.butterSlices s3 = Fin 0.
Proof. vm_compute. repeat split; reflexivity. Qed.

(** * The theorems at sample inputs *)

Lemma ratio_is_cpu_based_witness :
  is_sentinel (cpuUsage Sample.busyNode) = false /\
  NormalMode.chooseImageType Sample.stringToNumber defaultConfig
    Sample.busyNode toaster
  = Spec.variantName toaster (Spec.ordinal (Fin (7 # 8))).
Proof.
  split; [reflexivity |].
  exact (proj1 (proj2 (ratio_is_cpu_based Sample.stringToNumber defaultConfig
                         Sample.busyNode toaster eq_refl))).
Defined.

(** C1 as it is stated fails on a node that is busy on CPU and light on
    memory ([cpuUsage] 0.875, [memoryUsage] 0.125): the ratio of the
    selector is not the [memoryUsage] of the entity, and the variant it
    returns, ['toaster4'], is not the variant of the memory-based ratio,
    ['toaster1']. *)
Lemma toaster_ratio_is_not_memory_based :
  is_sentinel (cpuUsage Sample.busyNode) = false /\
  ToNumber Sample.stringToNumber
    (NormalMode.usageRatio Sample.stringToNumber defaultConfig
       Sample.busyNode toaster)
  <> Spec.ratio Sample.stringToNumber defaultConfig Sample.busyNode toaster /\
  NormalMode.chooseImageType Sample.stringToNumber defaultConfig
    Sample.busyNode toaster = "toaster4" /\
  Spec.variantName toaster
    (Spec.ordinal
       (Spec.ratio Sample.stringToNumber defaultConfig Sample.busyNode toaster))
  = "toaster1".
Proof.
  split; [reflexivity |]. split; [| split; reflexivity].
  vm_compute. discriminate.
Qed.

Lemma chooseImageType_defined_witness :
  unit_draws (Sample.world [1 # 2; 1 # 2]) /\
  christmasMode Sample.christmasThree = true /\
  christmasToasters Sample.christmasThree <> [] /\
  exists name : string,
    fst (run (App.chooseImageType Sample.stringToNumber Sample.christmasThree
                Sample.pod80 toast) (Sample.world [1 # 2; 1 # 2]))
    = Some name /\
    (name = "santa" \/ In name (christmasToasters Sample.christmasThree)).
Proof.
  assert (Hw : unit_draws (Sample.world [1 # 2; 1 # 2])).
  { apply unit_draws_sample. repeat constructor; vm_compute; congruence. }
  assert (Hne : christmasToasters Sample.christmasThree <> [])
    by discriminate.
  split; [exact Hw |]. split; [reflexivity |]. split; [exact Hne |].
  destruct (chooseImageType_defined Sample.stringToNumber
              Sample.christmasThree Sample.pod80 toast _ Hw (fun _ => Hne))
    as [name [H [Hin _]]].
  exists name. split; [exact H | exact (Hin eq_refl)].
Defined.

(** C4 as it is stated fails in Christmas mode with the empty list of
    Christmas toasters, which is the default: when the first draw is not
    below [santaFreq], the selector returns [undefined]. *)
Lemma empty_christmas_list_selects_undefined :
  unit_draws (Sample.world [1 # 2; 1 # 2]) /\
  christmasMode Sample.christmasDefaults = true /\
  christmasToasters Sample.christmasDefaults = [] /\
  fst (run (App.chooseImageType Sample.stringToNumber Sample.christmasDefaults
              Sample.pod80 toast) (Sample.world [1 # 2; 1 # 2]))
  = None /\
  fst (run (SingleFile.imgType Sample.stringToNumber Sample.christmasDefaults
              Sample.pod80 toast) (Sample.world [1 # 2; 1 # 2]))
  = None.
Proof.
  split.
  - apply unit_draws_sample. repeat constructor; vm_compute; congruence.
  - repeat split; reflexivity.
Qed.

Lemma sentinel_selects_missing_variant_witness :
  christmasMode defaultConfig = false /\
  cpuUsage Sample.noData = UStr "4040404" /\
  fst (run (App.chooseImageType Sample.stringToNumber defaultConfig
              Sample.noData toast) (Sample.world []))
  = Some "missing-toast".
Proof.
  split; [reflexivity |]. split; [reflexivity |].
  exact (proj1 (sentinel_selects_missing_variant Sample.stringToNumber
                  defaultConfig Sample.noData toast (Sample.world [])
                  eq_refl eq_refl)).
Defined.

(** C5 as it is stated fails in Christmas mode: the selector does not look
    at the entity, and an entity with the no-data marker gets ['santa']
    when the first draw is below [santaFreq]. *)
Lemma christmas_mode_ignores_sentinel :
  unit_draws (Sample.world [0]) /\
  cpuUsage Sample.noData = UStr "4040404" /\
  fst (run (App.chooseImageType Sample.stringToNumber Sample.christmasDefaults
              Sample.noData toast) (Sample.world [0]))
  = Some "santa" /\
  fst (run (SingleFile.imgType Sample.stringToNumber Sample.christmasDefaults
              Sample.noData toast) (Sample.world [0]))
  = Some "santa".
Proof.
  split.
  - apply unit_draws_sample. repeat constructor; vm_compute; congruence.
  - repeat split; reflexivity.
Qed.

Lemma ratio_buckets_witness :
  is_sentinel (cpuUsage Sample.pod80) = false /\
  (Fin (80 / 100) >=? Fin (3 # 4))%js = true /\
  NormalMode.chooseImageType Sample.stringToNumber defaultConfig
    Sample.pod80 toast = "toast4".
Proof.
  split; [reflexivity |]. split; [reflexivity |].
  exact (proj1 (proj2 (proj2 (proj2
           (ratio_buckets Sample.stringToNumber defaultConfig Sample.pod80
              toast (Fin (80 / 100)) eq_refl eq_refl)))) eq_refl).
Defined.

Lemma butter_decoration_witness :
  let w := Sample.world Sample.butteredZoomie in
  let s' := fst (fst (run (FlyingItem.moveItem defaultConfig Sample.window
                             Sample.props (Fin 16000) Sample.inFlight) w)) in
  (FlyingItem.progress (Fin 16000) Sample.inFlight <? Fin 1)%js = false /\
  FlyingItem.isCop s' = false /\
  unit_draws w /\
  FlyingItem.hasButter s' = true /\
  exists k : Z,
    Js.whole (FlyingItem.butterSlices s') = Some k /\ (1 <= k <= 10)%Z.
Proof.
  intros w s'.
  assert (Hp : (FlyingItem.progress (Fin 16000) Sample.inFlight <? Fin 1)%js
               = false) by reflexivity.
  assert (Hcop : FlyingItem.isCop s' = false) by reflexivity.
  assert (Hw : unit_draws w).
  { apply unit_draws_sample. repeat constructor; vm_compute; congruence. }
  destruct (butter_decoration defaultConfig Sample.window Sample.props
              (Fin 16000) Sample.inFlight w Hp Hcop)
    as [Hgrant [_ [_ [Hrange _]]]].
  split; [exact Hp |]. split; [exact Hcop |]. split; [exact Hw |]. split.
  - exact Hgrant.
  - destruct (Hrange 10%Z eq_refl ltac:(lia) Hw eq_refl eq_refl)
      as [k [Hk [Hb _]]].
    exists k. split; [exact Hk | exact Hb].
Defined.

Lemma zoomie_and_duration_witness :
  let w := Sample.world Sample.butteredZoomie in
  let s' := fst (fst (run (FlyingItem.moveItem defaultConfig Sample.window
                             Sample.props (Fin 16000) Sample.inFlight) w)) in
  (FlyingItem.progress (Fin 16000) Sample.inFlight <? Fin 1)%js = false /\
  FlyingItem.isZoomie s' =
    (Fin (draw w Draws.zoomie) <? Fin 1 / zoomiesFreq defaultConfig)%js.
Proof.
  intros w s'.
  assert (Hp : (FlyingItem.progress (Fin 16000) Sample.inFlight <? Fin 1)%js
               = false) by reflexivity.
  split; [exact Hp |].
  exact (proj1 (zoomie_and_duration defaultConfig Sample.window Sample.props
                  (Fin 16000) Sample.inFlight w Hp)).
Defined.

Lemma cop_has_no_slices_witness :
  let s := Sample.after [Fin 1000; Fin 16000] [] in
  FlyingItem.reachable defaultConfig Sample.window Sample.props s /\
  FlyingItem.isCop s = true /\
  FlyingItem.butterSlices s = Fin 0.
Proof.
  intros s.
  assert (Hr : FlyingItem.reachable defaultConfig Sample.window Sample.props s).
  { apply ticks_reachable. apply FlyingItem.reachable_mount. }
  assert (Hc : FlyingItem.isCop s = true) by reflexivity.
  split; [exact Hr |]. split; [exact Hc |].
  exact (cop_has_no_slices defaultConfig Sample.window Sample.props s Hr Hc).
Defined.

Lemma accepted_snapshot_drops_excluded_pods_witness :
  let s' := App.fetchDataAndUpdate defaultConfig None
              (Sample.snapshot1, "remote") App.initialState in
  App.strict_neq (App.timestamp Sample.snapshot1) None = true /\
  App.queue_pods (App.dataQueue s') =
    Spec.withoutNamespaces (excludeNamespaces defaultConfig)
      (App.pods Sample.snapshot1) /\
  App.queue_nodes (App.dataQueue s') = App.nodes Sample.snapshot1.
Proof.
  intros s'. split; [reflexivity |].
  destruct (accepted_snapshot_drops_excluded_pods defaultConfig None
              Sample.snapshot1 "remote" App.initialState (Sample.world [])
              eq_refl)
    as [Hpods [_ [Hnodes _]]].
  split; [exact Hpods | exact Hnodes].
Defined.

(** * Further properties of the code *)

(** ** Preloading the images *)

Section Preloading.

Variable PUBLIC_URL : string.

Lemma cache_get_cacheImage (imageCache : Cache) (i : ImageToLoad)
  (name : string) :
  cache_get name (cacheImage PUBLIC_URL imageCache i) =
  if String.eqb (image_name i) name
  then cache_get name (cacheImage PUBLIC_URL [] i)
  else cache_get name imageCache.
Proof.
  unfold cacheImage, cache_set. simpl.
  destruct (String.eqb (image_name i) name); reflexivity.
Qed.

(** Loading images leaves the entries of other names as they are. *)
Lemma cache_get_others (l : list ImageToLoad) (imageCache : Cache)
  (name : string) :
  ~ In name (map image_name l) ->
  cache_get name (fold_left (cacheImage PUBLIC_URL) l imageCache) =
  cache_get name imageCache.
Proof.
  revert imageCache. induction l as [| i l IH]; intros imageCache Hout.
  - reflexivity.
  - simpl fold_left. rewrite IH by (intros H; apply Hout; right; exact H).
    rewrite cache_get_cacheImage.
    destruct (String.eqb_spec (image_name i) name) as [E | _]; [| reflexivity].
    exfalso. apply Hout. left. exact E.
Qed.

(** A name all of whose entries in the list carry one image gets that
    image. *)
Lemma cache_get_loaded (l : list ImageToLoad) (imageCache : Cache)
  (name : string) (img : Image) :
  In name (map image_name l) ->
  (forall i, In i l -> image_name i = name ->
             cache_get name (cacheImage PUBLIC_URL [] i) = Some img) ->
  cache_get name (fold_left (cacheImage PUBLIC_URL) l imageCache) = Some img.
Proof.
  revert imageCache. induction l as [| i l IH]; intros imageCache Hin Himg.
  - destruct Hin.
  - simpl fold_left.
    destruct (in_dec string_dec name (map image_name l)) as [Hl | Hl].
    + apply IH; [exact Hl |]. intros j Hj. apply Himg. right. exact Hj.
    + rewrite (cache_get_others _ _ _ Hl), cache_get_cacheImage.
      destruct Hin as [Hi | Hl']; [| contradiction].
      rewrite Hi, String.eqb_refl. apply Himg; [left; reflexivity | exact Hi].
Qed.

(** A name among the images loaded has a cache entry afterwards. *)
Lemma cache_get_present (l : list ImageToLoad) (imageCache : Cache)
  (name : string) :
  In name (map image_name l) ->
  exists img,
    cache_get name (fold_left (cacheImage PUBLIC_URL) l imageCache) = Some img.
Proof.
  revert imageCache. induction l as [| i l IH]; intros imageCache Hin.
  - destruct Hin.
  - simpl fold_left.
    destruct (in_dec string_dec name (map image_name l)) as [Hl | Hl].
    + apply IH. exact Hl.
    + rewrite (cache_get_others _ _ _ Hl), cache_get_cacheImage.
      destruct Hin as [Hi | Hl']; [| contradiction].
      rewrite Hi, String.eqb_refl. unfold cacheImage, cache_set. simpl.
      rewrite Hi, String.eqb_refl. eexists. reflexivity.
Qed.

(** X1. In normal mode the image the selector names is in the cache after
    [preloadImages], whatever the cache held before, with the file of that
    name as its source: a [.gif] for the two missing variants and a [.png]
    for the eight usage variants. *)
Theorem normal_selection_is_preloaded
  (StringToNumber : string -> number) (config : Config)
  (data : Entity) (type : kind) (imageCache : Cache) :
  let imgType := NormalMode.chooseImageType StringToNumber config data type in
  cache_get imgType (NormalMode.preloadImages PUBLIC_URL imageCache) =
  Some {| src := PUBLIC_URL ++ "/" ++ imgType ++
                 if is_sentinel (cpuUsage data) then ".gif" else ".png" |}.
Proof.
  unfold NormalMode.chooseImageType, NormalMode.lessThan.
  destruct (is_sentinel (cpuUsage data)).
  - destruct type; reflexivity.
  - repeat match goal with
           | |- context [if Js.lt ?a ?b then _ else _] => destruct (Js.lt a b)
           end; destruct type; reflexivity.
Qed.

Lemma index_In {T : Type} (arr : list T) (i : number) (x : T) :
  Js.index arr i = Some x -> In x arr.
Proof.
  unfold Js.index. destruct i as [a | |]; try discriminate.
  destruct (_ && _); [| discriminate]. apply nth_error_In.
Qed.

(** What the Christmas selector returns is Santa or a Christmas toaster. *)
Lemma christmas_names (config : Config) (data : Entity) (type : kind)
  (w : World) (name : string) :
  fst (run (ChristmasMode.chooseImageType config data type) w) = Some name ->
  In name (map image_name (christmasImages config)).
Proof.
  rewrite run_christmas. unfold christmasImages.
  rewrite map_app, map_map. cbn [map image_name christmasImage].
  rewrite map_id, in_app_iff.
  destruct (Js.lt _ _).
  - intros [= <-]. right. left. reflexivity.
  - intros H. left. eapply index_In. exact H.
Qed.

(** X2. In Christmas mode the image the selector names is in the cache
    after [preloadImages], whatever the cache held before and whatever the
    configured names are, with the file [xmas/<name>.gif] as its source. *)
Theorem christmas_selection_is_preloaded
  (config : Config) (data : Entity) (type : kind) (w : World)
  (imageCache : Cache) (imgType : string) :
  fst (run (ChristmasMode.chooseImageType config data type) w) = Some imgType ->
  cache_get imgType (ChristmasMode.preloadImages config PUBLIC_URL imageCache) =
  Some {| src := PUBLIC_URL ++ "/" ++ "xmas/" ++ imgType ++ ".gif" |}.
Proof.
  intros Hsel. apply christmas_names in Hsel.
  unfold ChristmasMode.preloadImages, ChristmasMode.allImagesToLoad.
  rewrite fold_left_app. apply cache_get_loaded; [exact Hsel |].
  intros i Hi Hname.
  assert (Hchr : exists n, i = christmasImage n).
  { unfold christmasImages in Hi. apply in_app_iff in Hi.
    destruct Hi as [Hi | [Hi | []]].
    - apply in_map_iff in Hi. destruct Hi as [n [Hn _]]. exists n. auto.
    - exists "santa". auto. }
  destruct Hchr as [n ->]. simpl in Hname. subst n.
  unfold cacheImage, cache_set. simpl. rewrite String.eqb_refl. reflexivity.
Qed.

Lemma normal_names (StringToNumber : string -> number) (config : Config)
  (data : Entity) (type : kind) :
  In (NormalMode.chooseImageType StringToNumber config data type)
     (map image_name baseImages).
Proof.
  unfold NormalMode.chooseImageType, NormalMode.lessThan.
  destruct (is_sentinel (cpuUsage data)).
  - destruct type; simpl; tauto.
  - repeat match goal with
           | |- context [if Js.lt ?a ?b then _ else _] => destruct (Js.lt a b)
           end; destruct type; simpl; tauto.
Qed.

(** The images App.js preloads, in either mode, begin with the base list. *)
Lemma preload_has_base (config : Config) (name : string) :
  In name (map image_name baseImages) ->
  In name (map image_name (App.imagesToPreload config)).
Proof.
  intros H. unfold App.imagesToPreload, ChristmasMode.allImagesToLoad,
    ChristmasMode.imagesToLoad, NormalMode.imagesToLoad.
  destruct (christmasMode config); [| exact H].
  rewrite map_app, in_app_iff. left. exact H.
Qed.

Lemma preloadImages_fold (config : Config) (imageCache : Cache) :
  App.preloadImages config PUBLIC_URL imageCache =
  fold_left (cacheImage PUBLIC_URL) (App.imagesToPreload config) imageCache.
Proof.
  unfold App.preloadImages, App.imagesToPreload. 
  destruct (christmasMode config); reflexivity.
Qed.

(** No image is called ["undefined"] unless a Christmas toaster is. *)
Lemma undefined_is_no_image (config : Config) :
  christmasToasters config = [] ->
  ~ In "undefined" (map image_name (App.imagesToPreload config)).
Proof.
  intros Hnil. unfold App.imagesToPreload, ChristmasMode.allImagesToLoad,
    ChristmasMode.imagesToLoad, NormalMode.imagesToLoad, christmasImages.
  rewrite Hnil.
  destruct (christmasMode config); simpl; intros H;
    repeat (destruct H as [H | H]; [discriminate H |]); exact H.
Qed.

(** X3. The keys of [imageCache] that the render of a sprite reads are the
    police image of a cop, the two butter images of a buttered toast and
    the image the selector named.  Whenever the selector returned a name,
    every one of them is in the cache that App.js preloaded for the mode in
    force.  With [Math.random()] in [[0, 1)] the selector returns
    [undefined] in one case only: in Christmas mode with an empty list of
    Christmas toasters, when the draw for Santa fails.  The render then
    reads [imageCache[undefined]], an entry that [preloadImages] does not
    set. *)
Theorem render_reads_are_preloaded
  (StringToNumber : string -> number) (config : Config)
  (data : Entity) (type : kind) (w : World)
  (s : FlyingItem.State) (keys : list string) (imageCache : Cache) :
  let imgType :=
    fst (run (App.chooseImageType StringToNumber config data type) w) in
  FlyingItem.cacheReads s (FlyingItem.cacheKey imgType) = Some keys ->
  (imgType <> None ->
   Forall (fun key =>
             exists img,
               cache_get key (App.preloadImages config PUBLIC_URL imageCache)
               = Some img)
          keys) /\
  (unit_draws w ->
   (imgType = None <->
    christmasMode config = true /\ christmasToasters config = [] /\
    (Fin (draw w 0) <? santaFreq config)%js = false)) /\
  (christmasMode config = true -> christmasToasters config = [] ->
   (Fin (draw w 0) <? santaFreq config)%js = false ->
   imgType = None /\ In "undefined" keys /\
   cache_get "undefined" (App.preloadImages config PUBLIC_URL imageCache)
   = cache_get "undefined" imageCache /\
   cache_get "undefined" (App.preloadImages config PUBLIC_URL []) = None).
Proof.
  intros imgType Hkeys.
  assert (Hempty : christmasMode config = true ->
                   christmasToasters config = [] ->
                   (Fin (draw w 0) <? santaFreq config)%js = false ->
                   imgType = None).
  { intros Hmode Hnil Hsanta. unfold imgType, App.chooseImageType.
    rewrite Hmode, run_christmas, Hsanta, Hnil. apply random_pick_empty. }
  assert (Hin : In (FlyingItem.cacheKey imgType) keys).
  { unfold FlyingItem.cacheReads in Hkeys.
    destruct (FlyingItem.hasButter s).
    - destruct (FlyingItem.Array _) as [n |]; [| discriminate].
      injection Hkeys as <-. apply in_or_app. right. right. left. reflexivity.
    - injection Hkeys as <-. apply in_or_app. right. left. reflexivity. }
  assert (Hdef : fst (run (App.chooseImageType StringToNumber config data
                             type) w) = imgType) by reflexivity.
  clearbody imgType.
  split; [| split].
  - intros Hsome. destruct imgType as [name |]; [| congruence].
    rename Hdef into Hsel.
    clear Hsome Hempty Hin. cbn [FlyingItem.cacheKey] in Hkeys.
    rewrite preloadImages_fold.
    assert (Hbase : forall key, In key (map image_name baseImages) ->
              exists img,
                cache_get key
                  (fold_left (cacheImage PUBLIC_URL)
                     (App.imagesToPreload config) imageCache) = Some img).
    { intros key Hk. apply cache_get_present, preload_has_base, Hk. }
    assert (Himg : exists img,
              cache_get name
                (fold_left (cacheImage PUBLIC_URL)
                   (App.imagesToPreload config) imageCache) = Some img).
    { unfold App.chooseImageType in Hsel. unfold App.imagesToPreload in *.
      destruct (christmasMode config).
      - apply cache_get_present. apply christmas_names in Hsel.
        unfold ChristmasMode.allImagesToLoad. rewrite map_app, in_app_iff.
        right. exact Hsel.
      - rewrite run_ret in Hsel. injection Hsel as <-.
        apply cache_get_present, normal_names. }
    unfold FlyingItem.cacheReads in Hkeys.
    assert (Hcop : Forall (fun key => exists img,
               cache_get key (fold_left (cacheImage PUBLIC_URL)
                                (App.imagesToPreload config) imageCache)
               = Some img)
              (if FlyingItem.isCop s then ["police"] else [])).
    { destruct (FlyingItem.isCop s); repeat constructor.
      apply Hbase. simpl. tauto. }
    destruct (FlyingItem.hasButter s).
    + destruct (FlyingItem.Array _) as [n |]; [| discriminate].
      injection Hkeys as <-.
      apply Forall_app. split; [exact Hcop |].
      constructor; [apply Hbase; simpl; tauto |].
      constructor; [exact Himg |].
      apply Forall_forall. intros key Hk. apply repeat_spec in Hk. subst key.
      apply Hbase. simpl. tauto.
    + injection Hkeys as <-.
      apply Forall_app. split; [exact Hcop |].
      constructor; [exact Himg | constructor].
  - intros Hw. split.
    + intros Hnone. rewrite <- Hdef in Hnone.
      unfold App.chooseImageType in Hnone.
      destruct (christmasMode config) eqn:Hmode;
        [| rewrite run_ret in Hnone; discriminate Hnone].
      rewrite run_christmas in Hnone.
      destruct (Fin (draw w 0) <? santaFreq config)%js eqn:Hsanta;
        [discriminate Hnone |].
      split; [reflexivity |]. split; [| reflexivity].
      destruct (christmasToasters config) as [| x rest] eqn:Hlist;
        [reflexivity |].
      destruct (random_pick (x :: rest) (draw w 1)) as [y [Hy _]];
        [apply unit_draws_draw, Hw | discriminate |].
      rewrite Hy in Hnone. discriminate Hnone.
    + intros [Hmode [Hnil Hsanta]]. apply Hempty; assumption.
  - intros Hmode Hnil Hsanta.
    pose proof (Hempty Hmode Hnil Hsanta) as Hnone.
    rewrite Hnone in Hin. cbn [FlyingItem.cacheKey] in Hin.
    split; [exact Hnone |]. split; [exact Hin |].
    rewrite !preloadImages_fold.
    rewrite !(cache_get_others _ _ _ (undefined_is_no_image config Hnil)).
    split; reflexivity.
Qed.

End Preloading.

(** ** The image loader *)

Section Loader.

Lemma loads_cons (e : ImageEvent) (events : list ImageEvent) :
  loads (e :: events) =
  match e with onload => S (loads events) | onerror => loads events end.
Proof. destruct e; reflexivity. Qed.

(** The loader after some events, from any point on. *)
Lemma settle_from (length : nat) (events : list ImageEvent) (l : Loader) :
  let r := fold_left (handle length) events l in
  loadedCount r = (loadedCount l + loads events)%nat /\
  called r =
    (called l +
     if (loadedCount l <? length)%nat
        && (length <=? loadedCount l + loads events)%nat
     then 1 else 0)%nat.
Proof.
  revert l. induction events as [| e events IH]; intros l; cbn zeta.
  - unfold loads. simpl. rewrite Nat.add_0_r.
    split; [reflexivity |].
    destruct (Nat.ltb_spec (loadedCount l) length),
      (Nat.leb_spec length (loadedCount l)); simpl; lia.
  - simpl fold_left. specialize (IH (handle length l e)). cbn zeta in IH.
    destruct IH as [IHc IHk]. rewrite IHc, IHk, loads_cons.
    destruct e; cbn [handle loadedCount called].
    + split; [lia |].
      destruct (Nat.eqb_spec (S (loadedCount l)) length),
        (Nat.ltb_spec (S (loadedCount l)) length),
        (Nat.leb_spec length (S (loadedCount l) + loads events)),
        (Nat.ltb_spec (loadedCount l) length),
        (Nat.leb_spec length (loadedCount l + S (loads events)));
        simpl; lia.
    + split; reflexivity.
Qed.

(** X4. Whatever the browser reports for the images and in whatever order,
    [preloadImages] counts the loads and calls [onLoadCallback] at most
    once: once when the number of loads has reached the number of images,
    never before, and never for an empty list of images.  An error counts
    for nothing. *)
Theorem callback_once_all_loaded (length : nat) (events : list ImageEvent) :
  loadedCount (settle length events) = loads events /\
  called (settle length events) =
    if (1 <=? length)%nat && (length <=? loads events)%nat then 1%nat else 0%nat.
Proof.
  destruct (settle_from length events {| loadedCount := 0; called := 0 |})
    as [Hc Hk].
  unfold settle. rewrite Hc, Hk. simpl. split; [reflexivity |].
  destruct length; reflexivity.
Qed.

End Loader.

(** ** Loading and the first render *)

Section Startup.

Import App.

Variable config : Config.

Lemma loads_le (events : list ImageEvent) :
  (loads events <= List.length events)%nat.
Proof.
  induction events as [| e events IH]; [apply Nat.le_refl |].
  rewrite loads_cons. destruct e; simpl; lia.
Qed.

Lemma loads_all (events : list ImageEvent) :
  loads events = List.length events <-> (forall e, In e events -> e = onload).
Proof.
  induction events as [| e events IH].
  - split; [intros _ e [] | reflexivity].
  - rewrite loads_cons. pose proof (loads_le events) as Hle. destruct e; simpl.
    + split.
      * intros H e [<- | He]; [reflexivity |]. apply IH; [lia | exact He].
      * intros H. f_equal. apply IH. intros e He. apply H. right. exact He.
    + split; [lia |]. intros H. discriminate (H onerror (or_introl eq_refl)).
Qed.

(** There is always an image to preload. *)
Lemma imagesToPreload_not_empty :
  (1 <= List.length (imagesToPreload config))%nat.
Proof.
  unfold imagesToPreload, ChristmasMode.allImagesToLoad.
  destruct (christmasMode config); [rewrite length_app |]; simpl; lia.
Qed.

(** A data refresh does not touch [imagesLoaded]. *)
Lemma fetchDataAndUpdate_imagesLoaded
  (lastUpdated0 : option string) (fetched : Snapshot * string) (s : State) :
  imagesLoaded (fetchDataAndUpdate config lastUpdated0 fetched s) =
  imagesLoaded s.
Proof.
  unfold fetchDataAndUpdate. destruct fetched as [data source].
  destruct (strict_neq _ _); reflexivity.
Qed.

(** One run of [preloadImages], reported on image by image, sets
    [imagesLoaded] exactly when every image has loaded. *)
Lemma imagesSettled_loaded (events : list ImageEvent) (s : State) :
  List.length events = List.length (imagesToPreload config) ->
  (imagesLoaded (imagesSettled config events s) = true <->
   imagesLoaded s = true \/ (forall e, In e events -> e = onload)).
Proof.
  intros Hlen.
  pose proof imagesToPreload_not_empty as Hne.
  pose proof (loads_le events) as Hle.
  destruct (settle_from (List.length (imagesToPreload config)) events
              {| loadedCount := 0; called := 0 |}) as [_ Hk].
  cbn [loadedCount called Nat.add] in Hk.
  rewrite <- loads_all. unfold imagesSettled, settle. rewrite Hk.
  destruct (Nat.ltb_spec 0 (List.length (imagesToPreload config))); [| lia].
  destruct (Nat.leb_spec (List.length (imagesToPreload config)) (loads events));
    simpl.
  - split; [intros _; right; lia | reflexivity].
  - split; [intros H'; left; exact H' | intros [H' | H']; [exact H' | lia]].
Qed.

Lemma history_snoc (hs : list Happening) (h : Happening) (s : State) :
  history config (hs ++ [h]) s = happen config (history config hs s) h.
Proof. unfold history. rewrite fold_left_app. reflexivity. Qed.

(** X5. [imagesLoaded], false at mount, is set exactly when in some run of
    [preloadImages] every image has loaded; a run in which an image fails
    never sets it, and a data refresh does not touch it.  (Each run of the
    effect of App preloads the images again, with a count of its own, and
    the browser reports on every image of a run.)  So while every run has
    an image that fails, the application renders "Loading..." and no
    sprite, whatever data has arrived. *)
Theorem loading_ends_with_a_full_run (hs : list Happening) (s : State) :
  imagesLoaded s = false ->
  Forall (fun h => forall events, h = preloaded events ->
            List.length events = List.length (imagesToPreload config)) hs ->
  (imagesLoaded (history config hs s) = true <->
   exists events,
     In (preloaded events) hs /\ (forall e, In e events -> e = onload)) /\
  ((forall events, In (preloaded events) hs -> In onerror events) ->
   forall w : World, fst (run (render config (history config hs s)) w) = None).
Proof.
  intros Hs Hruns.
  assert (Hiff : imagesLoaded (history config hs s) = true <->
                 exists events,
                   In (preloaded events) hs /\
                   (forall e, In e events -> e = onload)).
  { induction hs as [| h hs IH] using rev_ind.
    - unfold history. simpl. rewrite Hs.
      split; [discriminate | intros [events [[] _]]].
    - apply Forall_app in Hruns. destruct Hruns as [Hruns Hh].
      specialize (IH Hruns). rewrite history_snoc.
      destruct h as [events | lastUpdated0 fetched]; cbn [happen].
      + rewrite imagesSettled_loaded
          by (inversion Hh as [| ? ? Hlen _]; subst; apply Hlen; reflexivity).
        rewrite IH. split.
        * intros [[ev [Hin Hall]] | Hall].
          -- exists ev. split; [apply in_or_app; left; exact Hin | exact Hall].
          -- exists events.
             split; [apply in_or_app; right; left; reflexivity | exact Hall].
        * intros [ev [Hin Hall]]. apply in_app_or in Hin.
          destruct Hin as [Hin | [Hin | []]].
          -- left. exists ev. split; assumption.
          -- injection Hin as <-. right. exact Hall.
      + rewrite fetchDataAndUpdate_imagesLoaded, IH. split.
        * intros [ev [Hin Hall]]. exists ev.
          split; [apply in_or_app; left; exact Hin | exact Hall].
        * intros [ev [Hin Hall]]. apply in_app_or in Hin.
          destruct Hin as [Hin | [Hin | []]]; [| discriminate Hin].
          exists ev. split; assumption. }
  split; [exact Hiff |].
  intros Herr w. unfold render.
  destruct (imagesLoaded (history config hs s)) eqn:E; [| reflexivity].
  destruct (proj1 Hiff eq_refl) as [events [Hin Hall]].
  discriminate (Hall onerror (Herr events Hin)).
Qed.

(** X6. When no source answers, [fetchData] marks the result "none", and
    then: on a first load (the closure holds a null [lastUpdated]) the
    update is skipped and the state stays as it is, so the application
    keeps rendering "Loading..."; after any accepted update (the closure
    holds a status text) the empty snapshot is accepted, every sprite is
    dropped and the status text becomes "null (none)". *)
Theorem no_source_skips_or_clears
  (remote local : option Snapshot) (lastUpdated0 : option string) (s : State) :
  snd (fetchData config remote local) = "none" ->
  let s' := fetchDataAndUpdate config lastUpdated0
              (fetchData config remote local) s in
  (lastUpdated0 = None -> s' = s) /\
  (lastUpdated0 <> None ->
   queue_pods (dataQueue s') = [] /\ queue_nodes (dataQueue s') = [] /\
   lastUpdated s' = Some "null (none)").
Proof.
  intros Hnone s'.
  assert (Hfetch : fetchData config remote local = (emptySnapshot, "none")).
  { revert Hnone. unfold fetchData.
    destruct (String.eqb _ _), remote, local; simpl;
      intros H; try discriminate H; reflexivity. }
  unfold s'. rewrite Hfetch. unfold fetchDataAndUpdate. simpl.
  split.
  - intros ->. reflexivity.
  - intros Hl. destruct lastUpdated0 as [t |]; [| congruence].
    simpl. repeat split; reflexivity.
Qed.

(** X7. A data refresh never empties the status text: once an update has
    been accepted and the images are loaded, every later refresh, whatever
    it fetches and whatever its closure holds, leaves the application
    rendering sprites, never "Loading..." again. *)
Theorem refresh_never_returns_to_loading
  (lastUpdated0 : option string) (fetched : Snapshot * string) (s : State)
  (w : World) :
  imagesLoaded s = true ->
  noUpdate (lastUpdated s) = false ->
  let s' := fetchDataAndUpdate config lastUpdated0 fetched s in
  noUpdate (lastUpdated s') = false /\
  exists items, fst (run (render config s') w) = Some items.
Proof.
  intros Himg Hupd s'.
  assert (Hupd' : noUpdate (lastUpdated s') = false).
  { unfold s', fetchDataAndUpdate. destruct fetched as [data source].
    destruct (strict_neq _ _); [| exact Hupd].
    cbn [lastUpdated]. apply status_text_not_empty. }
  split; [exact Hupd' |].
  unfold render. unfold s' at 1. rewrite fetchDataAndUpdate_imagesLoaded.
  rewrite Himg, Hupd'. cbn [negb orb].
  rewrite run_bind, run_bind, run_ret. eexists. reflexivity.
Qed.

End Startup.

(** ** The sprites App renders *)

Section Sprites.

Import App.
Local Open Scope Q_scope.

Variable config : Config.
Variable s : State.

Lemma run_podItem (pod : Entity) (index : nat) (w : World) :
  snd (run (podItem config s pod index) w) = skip 1 w /\
  FlyingItem.initialDuration (fst (run (podItem config s pod index) w)) =
    (Fin (draw w 0) * (durationMax config - durationMin config)
     + durationMin config)%js.
Proof. unfold podItem. run_draw. rewrite run_ret. split; reflexivity. Qed.

Lemma run_nodeItem (node : Entity) (index : nat) (w : World) :
  snd (run (nodeItem config s node index) w) = skip 1 w /\
  FlyingItem.initialDuration (fst (run (nodeItem config s node index) w)) =
    (Fin (draw w 0) * (durationMax config - durationMin config)
     + durationMin config)%js.
Proof. unfold nodeItem. run_draw. rewrite run_ret. split; reflexivity. Qed.

(** X8. The size of a pod sprite, for a memory usage that is not negative
    and a configuration with [maxMemoryToast > 0] and
    [minSizeToast <= maxSizeToast]: it grows linearly with the memory
    usage from [minSizeToast], and is clamped at [maxSizeToast], which it
    reaches at [maxMemoryToast]; so it always lies between the two
    sizes. *)
Theorem pod_size_is_clamped
  (pod : Entity) (index : nat) (w : World) (m M a b : Q) :
  memoryUsage pod = Fin m -> maxMemoryToast config = Fin M ->
  minSizeToast config = Fin a -> maxSizeToast config = Fin b ->
  0 <= m -> 0 < M -> a <= b ->
  exists sz : Q,
    FlyingItem.size (fst (run (podItem config s pod index) w)) = Fin sz /\
    a <= sz <= b /\
    (m <= M -> sz == a + m / M * (b - a)) /\
    (M <= m -> sz == b).
Proof.
  intros Hm HM Ha Hb Hm0 HM0 Hab.
  unfold podItem. run_draw. rewrite run_ret. cbn [fst FlyingItem.size].
  rewrite Hm, HM, Ha, Hb. unfold Js.div.
  destruct (JsFacts.Qis_zero_spec M) as [E | _]; [lra |].
  cbn [Js.sub Js.neg Js.add Js.mul Js.min Js.lt].
  set (q := m / M).
  assert (Hq : q * M == m) by (unfold q; field; lra).
  assert (Hq0 : 0 <= q) by (unfold q; apply Qle_shift_div_l; lra).
  assert (Hq1 : m <= M -> q <= 1).
  { intros H. unfold q. apply Qle_shift_div_r; lra. }
  assert (Hq2 : M <= m -> 1 <= q).
  { intros H. unfold q. apply Qle_shift_div_l; lra. }
  destruct (JsFacts.Qltb_spec b (q * (b + - a) + a)) as [Hlt | Hge].
  - exists b. split; [reflexivity |]. split; [lra |]. split.
    + intros H. specialize (Hq1 H). nra.
    + intros _. reflexivity.
  - eexists. split; [reflexivity |]. split; [nra |]. split.
    + intros _. ring.
    + intros H. specialize (Hq2 H). nra.
Qed.

(** X9. The size of a node sprite, for a memory usage that is not negative
    and [minSizeToaster <= maxSizeToaster]: it grows linearly with the
    memory usage (no maximum divides it) from [minSizeToaster] and is
    clamped at [maxSizeToaster], which it reaches at memory usage 1. *)
Theorem node_size_is_clamped
  (node : Entity) (index : nat) (w : World) (m a b : Q) :
  memoryUsage node = Fin m ->
  minSizeToaster config = Fin a -> maxSizeToaster config = Fin b ->
  0 <= m -> a <= b ->
  exists sz : Q,
    FlyingItem.size (fst (run (nodeItem config s node index) w)) = Fin sz /\
    a <= sz <= b /\
    (m <= 1 -> sz == a + m * (b - a)) /\
    (1 <= m -> sz == b).
Proof.
  intros Hm Ha Hb Hm0 Hab.
  unfold nodeItem. run_draw. rewrite run_ret. cbn [fst FlyingItem.size].
  rewrite Hm, Ha, Hb.
  cbn [Js.sub Js.neg Js.add Js.mul Js.min Js.lt].
  destruct (JsFacts.Qltb_spec b (m * (b + - a) + a)) as [Hlt | Hge].
  - exists b. split; [reflexivity |]. split; [lra |]. split.
    + intros H. nra.
    + intros _. reflexivity.
  - eexists. split; [reflexivity |]. split; [nra |]. split.
    + intros _. ring.
    + intros H. nra.
Qed.

(** What [arr.map] makes of the index alone. *)
Lemma mapFrom_index {A B C : Type} (f : A -> nat -> M B) (g : B -> C)
  (h : nat -> C) (arr : list A) :
  (forall x i w, g (fst (run (f x i) w)) = h i) ->
  forall index w,
    map g (fst (run (mapFrom f index arr) w)) =
    map h (seq index (List.length arr)).
Proof.
  intros Hf. induction arr as [| x rest IH]; intros index w.
  - reflexivity.
  - cbn [mapFrom]. rewrite run_bind, run_bind, run_ret.
    cbn [fst map List.length seq]. rewrite Hf, IH. reflexivity.
Qed.

(** What holds of every element [arr.map] makes, when it holds of each
    call in a world of unit draws and each call leaves such a world. *)
Lemma mapFrom_Forall {A B : Type} (f : A -> nat -> M B) (P : B -> Prop)
  (arr : list A) :
  (forall x i w, unit_draws w ->
                 P (fst (run (f x i) w)) /\ unit_draws (snd (run (f x i) w))) ->
  forall index w,
    unit_draws w ->
    Forall P (fst (run (mapFrom f index arr) w)) /\
    unit_draws (snd (run (mapFrom f index arr) w)).
Proof.
  intros Hf. induction arr as [| x rest IH]; intros index w Hw.
  - split; [constructor | exact Hw].
  - cbn [mapFrom]. rewrite run_bind, run_bind, run_ret. cbn [fst snd].
    destruct (Hf x index w Hw) as [Hx Hw'].
    destruct (IH (S index) _ Hw') as [Hrest Hw''].
    split; [constructor; assumption | exact Hw''].
Qed.

(** The sprites of a state that is past "Loading...". *)
Lemma run_render (w : World) :
  imagesLoaded s = true -> noUpdate (lastUpdated s) = false ->
  fst (run (render config s) w) =
  Some (fst (run (mapFrom (podItem config s) 0 (queue_pods (dataQueue s))) w)
        ++ fst (run (mapFrom (nodeItem config s) 0 (queue_nodes (dataQueue s)))
                  (snd (run (mapFrom (podItem config s) 0
                               (queue_pods (dataQueue s))) w))))%list.
Proof.
  intros Himg Hupd. unfold render. rewrite Himg, Hupd. cbn [negb orb].
  rewrite run_bind, run_bind, run_ret. reflexivity.
Qed.

(** X10. Past "Loading...", App renders one sprite for each displayed pod
    and then one for each displayed node.  The sprites enter staggered: the
    pod at position [k] of its list waits [k * staggerInterval], and the
    node at position [k] of its list waits [k * staggerInterval * 5]. *)
Theorem sprites_are_staggered (w : World) :
  imagesLoaded s = true -> noUpdate (lastUpdated s) = false ->
  exists items : list FlyingItem.Props,
    fst (run (render config s) w) = Some items /\
    List.length items =
      (List.length (queue_pods (dataQueue s))
       + List.length (queue_nodes (dataQueue s)))%nat /\
    map FlyingItem.delay items =
      (map (fun k => (of_nat k * staggerInterval config)%js)
           (seq 0 (List.length (queue_pods (dataQueue s))))
       ++ map (fun k => (of_nat k * staggerInterval config * Fin 5)%js)
              (seq 0 (List.length (queue_nodes (dataQueue s)))))%list.
Proof.
  intros Himg Hupd. eexists. split; [apply run_render; assumption |].
  assert (Hd : forall w',
    map FlyingItem.delay
      (fst (run (mapFrom (podItem config s) 0 (queue_pods (dataQueue s))) w'))
    = map (fun k => (of_nat k * staggerInterval config)%js)
          (seq 0 (List.length (queue_pods (dataQueue s)))))
    by (intros w'; apply mapFrom_index; reflexivity).
  assert (Hn : forall w',
    map FlyingItem.delay
      (fst (run (mapFrom (nodeItem config s) 0 (queue_nodes (dataQueue s))) w'))
    = map (fun k => (of_nat k * staggerInterval config * Fin 5)%js)
          (seq 0 (List.length (queue_nodes (dataQueue s)))))
    by (intros w'; apply mapFrom_index; reflexivity).
  split.
  - rewrite length_app.
    rewrite <- (length_map FlyingItem.delay), Hd, length_map, length_seq.
    rewrite <- (length_map FlyingItem.delay
                  (fst (run (mapFrom (nodeItem config s) 0 _) _))),
      Hn, length_map, length_seq.
    reflexivity.
  - rewrite map_app, Hd, Hn. reflexivity.
Qed.

Lemma unit_draws_skip (k : nat) (w : World) :
  unit_draws w -> unit_draws (skip k w).
Proof. intros H i. apply H. Qed.

(** X11. Every sprite App renders starts with a first-leg duration drawn
    from [[durationMin, durationMax]], for finite bounds in that order and
    [Math.random()] in [[0, 1)]: never shorter than [durationMin], never
    longer than [durationMax]. *)
Theorem initial_durations_in_range (w : World) (lo hi : Q) :
  imagesLoaded s = true -> noUpdate (lastUpdated s) = false ->
  durationMin config = Fin lo -> durationMax config = Fin hi -> lo <= hi ->
  unit_draws w ->
  exists items : list FlyingItem.Props,
    fst (run (render config s) w) = Some items /\
    Forall (fun item =>
              exists d : Q,
                FlyingItem.initialDuration item = Fin d /\ lo <= d <= hi)
           items.
Proof.
  intros Himg Hupd Hlo Hhi Hle Hw.
  eexists. split; [apply run_render; assumption |].
  assert (Hrange : forall w', unit_draws w' ->
    exists d : Q,
      (Fin (draw w' 0) * (durationMax config - durationMin config)
       + durationMin config)%js = Fin d /\ lo <= d <= hi).
  { intros w' Hw'. rewrite Hlo, Hhi.
    destruct (base_duration_range (draw w' 0) lo hi
                (unit_draws_draw w' 0 Hw') Hle) as [b [Hb [_ [Hin _]]]].
    exists b. split; assumption. }
  destruct (mapFrom_Forall (podItem config s)
              (fun item => exists d : Q,
                   FlyingItem.initialDuration item = Fin d /\ lo <= d <= hi)
              (queue_pods (dataQueue s))) with (index := 0%nat) (w := w)
    as [Hpods Hw1]; [| exact Hw |].
  { intros x i w' Hw'. destruct (run_podItem x i w') as [Hsnd Hdur].
    rewrite Hsnd, Hdur. split; [apply Hrange, Hw' | apply unit_draws_skip, Hw']. }
  destruct (mapFrom_Forall (nodeItem config s)
              (fun item => exists d : Q,
                   FlyingItem.initialDuration item = Fin d /\ lo <= d <= hi)
              (queue_nodes (dataQueue s))) with (index := 0%nat)
      (w := snd (run (mapFrom (podItem config s) 0
                        (queue_pods (dataQueue s))) w))
    as [Hnodes _]; [| exact Hw1 |].
  { intros x i w' Hw'. destruct (run_nodeItem x i w') as [Hsnd Hdur].
    rewrite Hsnd, Hdur. split; [apply Hrange, Hw' | apply unit_draws_skip, Hw']. }
  apply Forall_app. split; assumption.
Qed.

End Sprites.

(** ** The flight of a sprite *)

Section Flight.

Import FlyingItem.
Local Open Scope Q_scope.

Variable config : Config.
Variable window : Window.
Variable props : Props.

(** X12. A path starts off screen and leads off screen, for a sprite of
    positive size on a window of positive width and height and
    [Math.random()] in [[0, 1)].  When the first draw is below 0.5 it starts
    above the window ([startY = -2 * size]) and ends at or right of the
    right edge, at most half a size above the bottom; otherwise it starts
    left of the window ([startX = -2 * size]) and ends at or below the
    bottom edge, at most half a size left of the right edge. *)
Theorem path_starts_and_ends_off_screen (w : World) (z W H : Q) :
  size props = Fin z -> innerWidth window = Fin W ->
  innerHeight window = Fin H ->
  0 < z -> 0 < W -> 0 < H -> unit_draws w ->
  exists sx sy ex ey : Q,
    fst (run (generateRandomPath window props) w) =
      {| startX := Fin sx; startY := Fin sy; endX := Fin ex; endY := Fin ey |} /\
    (draw w 0 < 1 # 2 ->
     sy == - (2 * z) /\ - z <= sx < W - z /\
     W <= ex < W + W / 2 /\ H - z / 2 < ey <= H) /\
    (1 # 2 <= draw w 0 ->
     sx == - (2 * z) /\ - z <= sy < H - z /\
     W - z / 2 < ex <= W /\ H <= ey < H + H / 2).
Proof.
  intros Hz HW HH Hz0 HW0 HH0 Hw.
  pose proof (unit_draws_draw w 1 Hw) as H1.
  pose proof (unit_draws_draw w 2 Hw) as H2.
  pose proof (unit_draws_draw w 3 Hw) as H3.
  unfold generateRandomPath. run_draw. rewrite Hz, HW, HH.
  cbn [Js.lt].
  destruct (JsFacts.Qltb_spec (draw w 0) (1 # 2)) as [Htop | Hleft].
  - repeat run_draw. rewrite run_ret. cbn [fst].
    rewrite !draw_skip. cbn [Nat.add].
    unfold Js.div, Js.Qis_zero.
    cbn [Js.neg Js.mul Js.sub Js.add Qcompare Z.compare Qnum Qden Z.mul
         Pos.mul Pos.compare Pos.compare_cont].
    do 4 eexists. split; [reflexivity |]. split.
    + intros _.
      assert (Hx : 0 <= draw w 1 * W < W) by nra.
      assert (He : 0 <= draw w 2 * W < W) by nra.
      assert (Hy : 0 <= draw w 3 * z < z) by nra.
      set (a := draw w 1 * W) in *. set (b := draw w 2 * W) in *.
      set (c := draw w 3 * z) in *.
      unfold Qdiv. change (/ 2) with (1 # 2).
      repeat split; lra.
    + intros Hc. lra.
  - repeat run_draw. rewrite run_ret. cbn [fst].
    rewrite !draw_skip. cbn [Nat.add].
    unfold Js.div, Js.Qis_zero.
    cbn [Js.neg Js.mul Js.sub Js.add Qcompare Z.compare Qnum Qden Z.mul
         Pos.mul Pos.compare Pos.compare_cont].
    do 4 eexists. split; [reflexivity |]. split.
    + intros Hc. lra.
    + intros _.
      assert (Hy : 0 <= draw w 1 * H < H) by nra.
      assert (He : 0 <= draw w 2 * z < z) by nra.
      assert (Hx : 0 <= draw w 3 * H < H) by nra.
      set (a := draw w 1 * H) in *. set (b := draw w 2 * z) in *.
      set (c := draw w 3 * H) in *.
      unfold Qdiv. change (/ 2) with (1 # 2).
      repeat split; lra.
Qed.

(** The [else] branch keeps the position and asks for a frame unless
    paused. *)
Lemma nextCycle_frame (s : State) (w : World) :
  position (fst (fst (run (nextCycle config window props s) w))) = position s /\
  snd (fst (run (nextCycle config window props s) w)) =
    if isPaused props then [] else [RequestAnimationFrame].
Proof.
  unfold nextCycle.
  rewrite run_bind, run_bind, run_bind, run_bind, run_bind.
  destruct (fst (run (decorate _ _ _ _) _)) as [[cop butter] slices].
  rewrite run_ret. split; reflexivity.
Qed.

Lemma lt_below (r : number) (a b : Q) :
  a <= b -> (r <? Fin a)%js = true -> (r <? Fin b)%js = true.
Proof.
  intros Hab. destruct r as [q | neg |]; simpl; try congruence.
  rewrite !JsFacts.Qltb_true. lra.
Qed.

(** What one call of [moveItem] asks of the browser, and what it does to
    [audioPlayed], [startTimeRef] and the position. *)
Lemma moveItem_events (timestamp : number) (s : State) (w : World) :
  let p := progress timestamp s in
  let currentX :=
    (startX (path s) + (endX (path s) - startX (path s)) * p)%js in
  let currentY :=
    (startY (path s) + (endY (path s) - startY (path s)) * p)%js in
  let due := isCop s && negb (audioPlayed s)
             && (p >? Fin (1 # 5))%js && (p <? Fin (4 # 5))%js in
  let heard := (currentX >=? Fin 0)%js && (currentX <=? innerWidth window)%js
               && (currentY >=? Fin 0)%js && (currentY <=? innerHeight window)%js
               && negb (isMuted props) in
  let r := fst (run (moveItem config window props timestamp s) w) in
  snd r =
    ((if due && heard
      then [PlayPoliceSound
              (Js.floor (Fin (draw w 0) * totalPoliceSounds config) + Fin 1)%js]
      else [])
     ++ if isPaused props then [] else [RequestAnimationFrame])%list /\
  position (fst r) = Some (currentX, currentY) /\
  ((p <? Fin 1)%js = true ->
   audioPlayed (fst r) = (due || audioPlayed s) /\
   startTimeRef (fst r) = Some (startTime timestamp s)).
Proof.
  intros p currentX currentY due heard r. unfold r, moveItem.
  fold p. fold currentX. fold currentY. fold due. fold heard.
  rewrite run_bind.
  destruct due eqn:Hdue.
  - assert (Hp1 : (p <? Fin 1)%js = true).
    { apply (lt_below p (4 # 5) 1); [lra |].
      unfold due in Hdue. apply andb_true_iff in Hdue. apply Hdue. }
    destruct heard.
    + rewrite run_bind. unfold playRandomPoliceSound. run_draw.
      rewrite run_ret, run_ret. cbn [fst snd]. rewrite Hp1, run_ret.
      cbn [fst snd position audioPlayed startTimeRef andb orb].
      repeat split; reflexivity.
    + rewrite run_ret. cbn [fst snd]. rewrite Hp1, run_ret.
      cbn [fst snd position audioPlayed startTimeRef andb orb].
      repeat split; reflexivity.
  - rewrite run_ret. cbn [fst snd andb orb].
    destruct (p <? Fin 1)%js.
    + rewrite run_ret. cbn [fst snd position audioPlayed startTimeRef].
      repeat split; reflexivity.
    + rewrite run_bind.
      match goal with
      | |- context [run (nextCycle config window props ?s1) w] =>
          destruct (nextCycle_frame s1 w) as [Hpos Hfr];
          destruct (fst (run (nextCycle config window props s1) w))
            as [s2 frame]
      end.
      rewrite run_ret. cbn [fst snd] in *. rewrite Hpos, Hfr.
      cbn [position app]. repeat split; try reflexivity; discriminate.
Qed.

(** X13. Every call of [moveItem], whether or not it completes the leg,
    puts the sprite on the line through the start and the end of its
    path, at the fraction [progress] of the way (for finite numbers).  For
    a progress between 0 and 1 the position lies between the start and the
    end in both coordinates; for a progress above 1, as a call that completes
    the leg finds it, the position lies beyond the end. *)
Theorem position_is_on_the_path
  (timestamp : number) (s : State) (w : World) (p sx sy ex ey : Q) :
  progress timestamp s = Fin p ->
  path s = {| startX := Fin sx; startY := Fin sy;
              endX := Fin ex; endY := Fin ey |} ->
  exists x y : Q,
    position (fst (fst (run (moveItem config window props timestamp s) w)))
      = Some (Fin x, Fin y) /\
    x == sx + (ex - sx) * p /\ y == sy + (ey - sy) * p /\
    (0 <= p <= 1 ->
     (sx <= ex -> sx <= x <= ex) /\ (ex <= sx -> ex <= x <= sx) /\
     (sy <= ey -> sy <= y <= ey) /\ (ey <= sy -> ey <= y <= sy)) /\
    (1 < p -> (sx < ex -> ex < x) /\ (sy < ey -> ey < y)).
Proof.
  intros Hp Hpath.
  destruct (moveItem_events timestamp s w) as [_ [Hpos _]].
  rewrite Hpos, Hp, Hpath. cbn [startX startY endX endY Js.sub Js.neg Js.add Js.mul].
  do 2 eexists. split; [reflexivity |].
  split; [ring |]. split; [ring |]. split.
  - intros Hp01. repeat split; intros; nra.
  - intros Hp1. split; intros; nra.
Qed.

(** X14. The first call of [moveItem] in a leg, which finds no start time
    ([startTimeRef.current] null or 0), takes its own time as the start
    of the leg: for a finite duration that is not 0 the progress is 0, the
    sprite is put at the start of its path, and the start time is
    recorded. *)
Theorem first_tick_starts_the_leg
  (t d : Q) (s : State) (w : World) (sx sy ex ey : Q) :
  unset (startTimeRef s) = true ->
  duration s = Fin d -> ~ d == 0 ->
  path s = {| startX := Fin sx; startY := Fin sy;
              endX := Fin ex; endY := Fin ey |} ->
  let s' := fst (fst (run (moveItem config window props (Fin t) s) w)) in
  startTimeRef s' = Some (Fin t) /\
  exists x y : Q,
    position s' = Some (Fin x, Fin y) /\ x == sx /\ y == sy.
Proof.
  intros Hunset Hd Hd0 Hpath s'.
  assert (Hstart : startTime (Fin t) s = Fin t).
  { unfold startTime. destruct (startTimeRef s) as [t0 |]; [| reflexivity].
    rewrite Hunset. reflexivity. }
  assert (Hp : exists p, progress (Fin t) s = Fin p /\ p == 0).
  { unfold progress. rewrite Hstart, Hd. unfold Js.div.
    cbn [Js.sub Js.neg Js.add].
    destruct (JsFacts.Qis_zero_spec d) as [E | _]; [contradiction |].
    eexists. split; [reflexivity |]. field. exact Hd0. }
  destruct Hp as [p [Hp Hp0]].
  destruct (moveItem_events (Fin t) s w) as [_ [Hpos Hin]].
  fold s' in Hpos, Hin.
  destruct Hin as [_ Hst].
  { rewrite Hp. cbn [Js.lt]. apply JsFacts.Qltb_true. lra. }
  rewrite Hst, Hstart. split; [reflexivity |].
  rewrite Hpos, Hp, Hpath.
  cbn [startX startY endX endY Js.sub Js.neg Js.add Js.mul].
  do 2 eexists. split; [reflexivity |].
  split; rewrite Hp0; ring.
Qed.

(** X15. [moveItem] plays a police sound only for a cop that has not
    sounded in this leg, that is not muted, whose progress is strictly
    between 0.2 and 0.8 and whose position is inside the window.  The
    sound is then marked as played, and its index is
    [Math.floor(Math.random() * totalPoliceSounds) + 1]: for a whole
    [totalPoliceSounds >= 1] and [Math.random()] in [[0, 1)], a whole
    number from 1 to [totalPoliceSounds], the index of one of the sound
    files. *)
Theorem police_sound_conditions
  (timestamp : number) (s : State) (w : World) (i : number) :
  let r := fst (run (moveItem config window props timestamp s) w) in
  In (PlayPoliceSound i) (snd r) ->
  isCop s = true /\ audioPlayed s = false /\ isMuted props = false /\
  (progress timestamp s >? Fin (1 # 5))%js = true /\
  (progress timestamp s <? Fin (4 # 5))%js = true /\
  (exists x y : number,
     position (fst r) = Some (x, y) /\
     (x >=? Fin 0)%js = true /\ (x <=? innerWidth window)%js = true /\
     (y >=? Fin 0)%js = true /\ (y <=? innerHeight window)%js = true) /\
  audioPlayed (fst r) = true /\
  i = (Js.floor (Fin (draw w 0) * totalPoliceSounds config) + Fin 1)%js /\
  (forall n : Z,
     totalPoliceSounds config = Fin (inject_Z n) -> (1 <= n)%Z ->
     unit_draws w ->
     exists k : Z, Js.whole i = Some k /\ (1 <= k <= n)%Z).
Proof.
  intros r Hin.
  pose proof (moveItem_events timestamp s w) as H. cbv zeta in H.
  fold r in H. destruct H as [Hev [Hpos Hprog]].
  rewrite Hev in Hin.
  match type of Hin with
  | In _ ((if ?c then _ else _) ++ _)%list => destruct c eqn:Hc
  end.
  2: { exfalso. destruct (isPaused props); simpl in Hin;
       [exact Hin | destruct Hin as [Hin | []]; discriminate Hin]. }
  assert (Hi : i = (Js.floor (Fin (draw w 0) * totalPoliceSounds config)
                    + Fin 1)%js).
  { cbn [app In] in Hin.
    destruct Hin as [Hin | Hin]; [injection Hin as Hin; symmetry; exact Hin |].
    exfalso. destruct (isPaused props); simpl in Hin;
      [exact Hin | destruct Hin as [Hin | []]; discriminate Hin]. }
  repeat rewrite andb_true_iff in Hc.
  destruct Hc as [[[[Hcop Hplayed] Hlo] Hhi] [[[[Hx0 Hx1] Hy0] Hy1] Hmuted]].
  apply negb_true_iff in Hplayed. apply negb_true_iff in Hmuted.
  assert (Hp1 : (progress timestamp s <? Fin 1)%js = true)
    by (apply (lt_below _ (4 # 5) 1); [lra | exact Hhi]).
  destruct (Hprog Hp1) as [Haudio _].
  repeat (split; [assumption |]).
  split; [do 2 eexists; split; [exact Hpos |]; repeat split; assumption |].
  split.
  { rewrite Haudio, Hcop, Hplayed, Hlo, Hhi. reflexivity. }
  split; [exact Hi |].
  intros n Hn Hn1 Hw. rewrite Hi, Hn.
  destruct (slice_count_range (draw w 0) n (unit_draws_draw w 0 Hw) Hn1)
    as [k [Hk [Hb _]]].
  exists k. split; assumption.
Qed.

(** X16. One call of [moveItem] asks for at most one sound, and for the next
    animation frame exactly when [isPaused] is false, in both of its
    branches.  The timeout that starts an effect asks for a frame whether
    the sprite is paused or not; so a paused sprite still gets the one call
    of [moveItem] of each start of the effect, and that call asks for no
    further frame. *)
Theorem moveItem_requests_frame_unless_paused
  (timestamp : number) (s : State) (w : World) :
  (exists sound : list Event,
     snd (fst (run (moveItem config window props timestamp s) w)) =
       (sound ++ if isPaused props then [] else [RequestAnimationFrame])%list /\
     (List.length sound <= 1)%nat /\
     (forall e, In e sound -> exists i, e = PlayPoliceSound i)) /\
  snd (delayTimeout s) = [RequestAnimationFrame] /\
  (isPaused props = true ->
   ~ In RequestAnimationFrame
       (snd (fst (run (moveItem config window props timestamp
                         (fst (delayTimeout s))) w)))).
Proof.
  split; [| split].
  - pose proof (moveItem_events timestamp s w) as H. cbv zeta in H.
    destruct H as [Hev _]. rewrite Hev.
    eexists. split; [reflexivity |].
    match goal with
    | |- context [if ?c then _ else _] => destruct c
    end; simpl.
    + split; [lia |]. intros e [<- | []]. eexists. reflexivity.
    + split; [lia |]. intros e [].
  - reflexivity.
  - intros Hpaused.
    pose proof (moveItem_events timestamp (fst (delayTimeout s)) w) as H.
    cbv zeta in H. destruct H as [Hev _]. rewrite Hev, Hpaused, app_nil_r.
    match goal with
    | |- context [if ?c then _ else _] => destruct c
    end; simpl; [intros [H | []]; discriminate H | intros []].
Qed.

(** X17. A cop sounds at most once per leg: over any run of calls of
    [moveItem] that stay within the leg (each finds the progress below 1),
    at most one police sound is played, and none once [audioPlayed] is
    set. *)
Theorem one_sound_per_leg
  (timestamps : list number) (s : State) (w : World) (t0 : number) :
  startTimeRef s = Some t0 -> unset (Some t0) = false ->
  Forall (fun timestamp => ((timestamp - t0) / duration s <? Fin 1)%js = true)
         timestamps ->
  let played := fst (fst (sounds config window props timestamps s w)) in
  (List.length played <= 1)%nat /\ (audioPlayed s = true -> played = []).
Proof.
  intros Hstart Hset Hleg. cbv zeta.
  revert s w Hstart Hleg.
  induction timestamps as [| timestamp rest IH]; intros s w Hstart Hleg.
  - simpl. split; [lia | reflexivity].
  - inversion Hleg as [| ? ? Hp Hrest]; subst.
    assert (Hst : startTime timestamp s = t0).
    { unfold startTime. rewrite Hstart, Hset. reflexivity. }
    assert (Hp' : (progress timestamp s <? Fin 1)%js = true)
      by (unfold progress; rewrite Hst; exact Hp).
    pose proof (moveItem_events timestamp s w) as H. cbv zeta in H.
    destruct H as [Hev [_ Hprog]]. destruct (Hprog Hp') as [Haudio Hstart'].
    rewrite Hst in Hstart'.
    pose proof (moveItem_in_progress config window props timestamp s w Hp')
      as Hsame. cbv zeta in Hsame. destruct Hsame as [_ [_ [_ [_ Hdur]]]].
    change (sounds config window props (timestamp :: rest) s w)
      with (let '(s', events, w') :=
              run (moveItem config window props timestamp s) w in
            let '(later, s'', w'') := sounds config window props rest s' w' in
            ((filter (fun e => match e with
                               | PlayPoliceSound _ => true
                               | RequestAnimationFrame => false
                               end) events ++ later)%list, s'', w'')).
    destruct (run (moveItem config window props timestamp s) w)
      as [[s' events] w'] eqn:Hrun.
    cbn [fst snd] in Hev, Haudio, Hstart', Hdur.
    rewrite <- Hdur in Hrest.
    destruct (IH s' w' Hstart' Hrest) as [IHlen IHnone].
    destruct (sounds config window props rest s' w') as [[later s''] w''].
    cbn [fst snd] in *.
    rewrite Hev, filter_app.
    assert (Hframes :
      filter (fun e => match e with
                       | PlayPoliceSound _ => true
                       | RequestAnimationFrame => false
                       end)
             (if isPaused props then [] else [RequestAnimationFrame]) = [])
      by (destruct (isPaused props); reflexivity).
    rewrite Hframes, app_nil_r.
    match goal with
    | |- context [if ?c then _ else _] => destruct c eqn:Hc
    end.
    + apply andb_true_iff in Hc. destruct Hc as [Hdue _].
      rewrite Hdue in Haudio. cbn [orb] in Haudio.
      rewrite (IHnone Haudio). simpl. split; [lia |].
      intros Hplayed. repeat rewrite andb_true_iff in Hdue.
      destruct Hdue as [[[_ Hneg] _] _]. rewrite Hplayed in Hneg.
      discriminate Hneg.
    + simpl. split; [exact IHlen |].
      intros Hplayed. apply IHnone. rewrite Haudio, Hplayed.
      apply orb_true_r.
Qed.

(** The decoration after the [else] branch, case by case. *)
Lemma next_leg_cases (timestamp : number) (s : State) (w : World) :
  (progress timestamp s <? Fin 1)%js = false ->
  let s' := fst (fst (run (moveItem config window props timestamp s) w)) in
  (isCop s' = true /\ isZoomie s' = true /\ copsAndRobbers config = true /\
   hasButter s' = hasButter s /\ butterSlices s' = Fin 0) \/
  (isCop s' = false /\ hasButter s' = false /\ butterSlices s' = Fin 0) \/
  (isCop s' = false /\ hasButter s' = true /\ type props = toast /\
   isZoomie s' = false /\ butterSlices s' = Fin 0) \/
  (isCop s' = false /\ hasButter s' = true /\ type props = toast /\
   isZoomie s' = true /\
   exists k : nat,
     butterSlices s' =
     (Js.floor (Fin (draw w k) * butterMaxSlices config) + Fin 1)%js).
Proof.
  intros Hp s'.
  pose proof (moveItem_next_leg config window props timestamp s w Hp) as H.
  cbv zeta in H. fold s' in H. destruct H as [Hz [_ Hdec]].
  rewrite <- Hz, run_decorate in Hdec. cbv zeta in Hdec.
  rewrite !draw_skip, !draw_next_uuid in Hdec.
  match type of Hdec with
  | _ = (if ?c then _ else _) => destruct c eqn:Hcop
  end.
  - injection Hdec as Hc Hb Hs.
    apply andb_true_iff in Hcop. destruct Hcop as [Hdrawn _].
    apply andb_true_iff in Hdrawn. destruct Hdrawn as [Hz' Hr].
    left. repeat split; assumption.
  - match type of Hdec with
    | _ = (if ?c then _ else _) => destruct c eqn:Hbutter
    end.
    + injection Hdec as Hc Hb Hs.
      apply andb_true_iff in Hbutter. destruct Hbutter as [_ Ht].
      assert (Ht' : type props = toast)
        by (destruct (type props); [reflexivity | discriminate Ht]).
      destruct (isZoomie s') eqn:Ez.
      * right. right. right. repeat split; try assumption.
        eexists. exact Hs.
      * right. right. left. repeat split; assumption.
    + injection Hdec as Hc Hb Hs.
      right. left. repeat split; assumption.
Qed.

(** What every callback keeps true of the decoration. *)
Lemma decoration_invariant (s : State) :
  reachable config window props s ->
  (isCop s = true -> isZoomie s = true /\ copsAndRobbers config = true) /\
  (hasButter s = true -> type props = toast) /\
  (Js.truthy (butterSlices s) = true ->
   hasButter s = true /\ isZoomie s = true /\ isCop s = false) /\
  (hasButter s = false -> butterSlices s = Fin 0).
Proof.
  induction 1 as [uuid p | s w _ IH | s _ IH | s _ IH | timestamp s w _ IH].
  - repeat split; try discriminate; reflexivity.
  - unfold startEffect. rewrite run_bind, run_ret. exact IH.
  - exact IH.
  - unfold butterAdjustmentTimeout. destruct (_ && _); exact IH.
  - destruct (progress timestamp s <? Fin 1)%js eqn:Hp.
    + pose proof (moveItem_in_progress config window props timestamp s w Hp)
        as H. cbv zeta in H. destruct H as [Hz [Hc [Hb [Hs _]]]].
      rewrite Hz, Hc, Hb, Hs. exact IH.
    + destruct IH as [_ [IHb _]].
      pose proof (next_leg_cases timestamp s w Hp) as H. cbv zeta in H.
      destruct H as [[Hc [Hz [Hr [Hb Hs]]]] | [[Hc [Hb Hs]] |
                     [[Hc [Hb [Ht [Hz Hs]]]] | [Hc [Hb [Ht [Hz _]]]]]]];
        rewrite ?Hc, ?Hb, ?Hs, ?Hz;
        repeat split; auto; try discriminate.
Qed.

(** X18. A toaster never has butter: in every state a node sprite reaches,
    [hasButter] is false and [butterSlices] is 0, whatever the
    configuration and the draws. *)
Theorem toaster_never_has_butter (s : State) :
  type props = toaster ->
  reachable config window props s ->
  hasButter s = false /\ butterSlices s = Fin 0.
Proof.
  intros Ht Hs. destruct (decoration_invariant s Hs) as [_ [Hb [_ Hsl]]].
  assert (Hno : hasButter s = false).
  { destruct (hasButter s); [| reflexivity].
    rewrite Ht in Hb. discriminate (Hb eq_refl). }
  split; [exact Hno | exact (Hsl Hno)].
Qed.

(** X19. A cop is always a zoomie, and there is no cop unless
    [config.copsAndRobbers] is set: both hold in every state a sprite
    reaches. *)
Theorem cop_is_a_zoomie (s : State) :
  reachable config window props s ->
  isCop s = true ->
  isZoomie s = true /\ copsAndRobbers config = true.
Proof.
  intros Hs. apply (decoration_invariant s Hs).
Qed.

(** X20. Butter slices are stacked only on a buttered toast in a zoomie leg
    that is no cop: in every state a sprite reaches, a slice count other
    than 0 comes with [hasButter] and [isZoomie] set, [isCop] unset and
    the kind toast. *)
Theorem slices_only_on_buttered_zoomie (s : State) :
  reachable config window props s ->
  Js.truthy (butterSlices s) = true ->
  hasButter s = true /\ isZoomie s = true /\ isCop s = false /\
  type props = toast.
Proof.
  intros Hs Hsl. destruct (decoration_invariant s Hs) as [_ [Hb [Hinv _]]].
  destruct (Hinv Hsl) as [Hbutter [Hz Hc]].
  repeat split; auto.
Qed.

Lemma whole_succ (z : Z) :
  Js.whole (Fin (inject_Z z + 1)) = Some (z + 1)%Z.
Proof.
  unfold Js.whole.
  assert (Ef : Qfloor (inject_Z z + 1) = (z + 1)%Z).
  { rewrite <- (Qfloor_Z (z + 1)). unfold Qfloor; simpl. f_equal; lia. }
  rewrite Ef.
  assert (Eb : Qeq_bool (inject_Z z + 1) (inject_Z (z + 1)) = true)
    by (apply Qeq_bool_iff; rewrite inject_Z_plus; reflexivity).
  rewrite Eb. reflexivity.
Qed.

(** The slice count of a buttered zoomie, for any [butterMaxSlices] that is
    not negative. *)
Lemma slice_count_whole (u m : Q) :
  0 <= u < 1 -> 0 <= m ->
  exists k : Z,
    Js.whole (Js.floor (Fin u * Fin m) + Fin 1)%js = Some k /\
    (1 <= k <= Qfloor m + 1)%Z.
Proof.
  intros Hu Hm. cbn [Js.mul Js.floor Js.add]. rewrite whole_succ.
  eexists. split; [reflexivity |].
  assert (H0 : (Qfloor 0 <= Qfloor (u * m))%Z) by (apply Qfloor_resp_le; nra).
  assert (H1 : (Qfloor (u * m) <= Qfloor m)%Z) by (apply Qfloor_resp_le; nra).
  change (Qfloor 0) with 0%Z in H0. lia.
Qed.

(** The slice count is a whole number within bounds in every state reached
    under unit draws. *)
Lemma slices_whole (s : State) (m : Q) :
  butterMaxSlices config = Fin m -> 0 <= m ->
  reachable_unit config window props s ->
  exists k : Z,
    Js.whole (butterSlices s) = Some k /\ (0 <= k <= Qfloor m + 1)%Z.
Proof.
  intros Hm Hm0.
  assert (Hfl : (0 <= Qfloor m)%Z)
    by (change 0%Z with (Qfloor 0); apply Qfloor_resp_le; exact Hm0).
  induction 1 as [uuid p | s w _ _ IH | s _ IH | s _ IH | timestamp s w Hw _ IH].
  - exists 0%Z. split; [reflexivity | lia].
  - unfold startEffect. rewrite run_bind, run_ret. exact IH.
  - exact IH.
  - unfold butterAdjustmentTimeout. destruct (_ && _); exact IH.
  - destruct (progress timestamp s <? Fin 1)%js eqn:Hp.
    + pose proof (moveItem_in_progress config window props timestamp s w Hp)
        as H. cbv zeta in H. destruct H as [_ [_ [_ [Hs _]]]].
      rewrite Hs. exact IH.
    + pose proof (next_leg_cases timestamp s w Hp) as H. cbv zeta in H.
      destruct H as [[_ [_ [_ [_ Hs]]]] | [[_ [_ Hs]] |
                     [[_ [_ [_ [_ Hs]]]] | [_ [_ [_ [_ [k Hs]]]]]]]];
        rewrite Hs.
      1-3: exists 0%Z; split; [reflexivity | lia].
      rewrite Hm.
      destruct (slice_count_whole (draw w k) m (unit_draws_draw w k Hw) Hm0)
        as [j [Hj Hb]].
      exists j. split; [exact Hj | lia].
Qed.

(** X21. The render of a sprite never fails on its butter slices.  With
    [Math.random()] in [[0, 1)] and a [butterMaxSlices] from 0 to below
    [2^32 - 1], [butterSlices] is in every state a whole number that
    [Array(butterSlices)] accepts, at most [Math.floor(butterMaxSlices) + 1];
    so the render reads its images without a RangeError. *)
Theorem butter_slices_make_an_array (s : State) (m : Q) :
  butterMaxSlices config = Fin m -> 0 <= m -> m < 4294967295 ->
  reachable_unit config window props s ->
  exists n : nat,
    Array (butterSlices s) = Some n /\
    (Z.of_nat n <= Qfloor m + 1)%Z /\
    (forall imgType : string, cacheReads s imgType <> None).
Proof.
  intros Hm Hm0 Hm1 Hs.
  destruct (slices_whole s m Hm Hm0 Hs) as [k [Hk Hb]].
  assert (Hfl : (Qfloor m < 4294967295)%Z).
  { rewrite Zlt_Qlt. apply Qle_lt_trans with m; [apply Qfloor_le | exact Hm1]. }
  assert (Harr : Array (butterSlices s) = Some (Z.to_nat k)).
  { unfold Array. rewrite Hk.
    destruct (Z.leb_spec 0 k); [| lia].
    destruct (Z.ltb_spec k (2 ^ 32)); [reflexivity |].
    change (2 ^ 32)%Z with 4294967296%Z in *. lia. }
  exists (Z.to_nat k). split; [exact Harr |]. split; [lia |].
  intros imgType. unfold cacheReads. rewrite Harr.
  destruct (hasButter s); discriminate.
Qed.

Lemma third (b : Q) : (Fin b / Fin 3)%js = Fin (b / 3).
Proof. reflexivity. Qed.

(** X22. No leg has a duration of 0 or less.  With [Math.random()] in
    [[0, 1)], [0 < durationMin <= durationMax] and a first-leg duration
    between a third of [durationMin] and [durationMax] (as App draws it),
    the duration is in every state a finite number between a third of
    [durationMin] and [durationMax]; so [progress] never divides by 0. *)
Theorem duration_stays_in_range (s : State) (lo hi d0 : Q) :
  durationMin config = Fin lo -> durationMax config = Fin hi ->
  0 < lo -> lo <= hi ->
  initialDuration props = Fin d0 -> lo / 3 <= d0 <= hi ->
  reachable_unit config window props s ->
  exists d : Q, duration s = Fin d /\ lo / 3 <= d <= hi /\ 0 < d.
Proof.
  intros Hlo Hhi Hlo0 Hle Hd0 Hd0r.
  assert (Hthird : lo / 3 == lo * (1 # 3)) by (field; lra).
  induction 1 as [uuid p | s w _ _ IH | s _ IH | s _ IH | timestamp s w Hw _ IH].
  - exists d0. split; [exact Hd0 |]. split; [exact Hd0r | lra].
  - unfold startEffect. rewrite run_bind, run_ret. exact IH.
  - exact IH.
  - unfold butterAdjustmentTimeout. destruct (_ && _); exact IH.
  - destruct (progress timestamp s <? Fin 1)%js eqn:Hp.
    + pose proof (moveItem_in_progress config window props timestamp s w Hp)
        as H. cbv zeta in H. destruct H as [_ [_ [_ [_ Hd]]]].
      rewrite Hd. exact IH.
    + pose proof (moveItem_next_leg config window props timestamp s w Hp) as H.
      cbv zeta in H. destruct H as [_ [Hd _]]. rewrite Hd, Hlo, Hhi.
      destruct (base_duration_range (draw w Draws.duration) lo hi
                  (unit_draws_draw w _ Hw) Hle) as [b [Hb [_ [Hin _]]]].
      rewrite Hb.
      destruct (Fin (draw w Draws.zoomie) <? Fin 1 / zoomiesFreq config)%js.
      * rewrite third. exists (b / 3). split; [reflexivity |].
        assert (Hb3 : b / 3 == b * (1 # 3)) by (field; lra).
        rewrite Hb3. lra.
      * exists b. split; [reflexivity | lra].
Qed.

(** X23. Larger sprites fly behind smaller ones: the layer of a sprite,
    [Math.floor(maxSizeToaster - size)], is a whole number that does not
    grow with the size, and it is not negative for a sprite no larger than
    [maxSizeToaster]. *)
Theorem larger_sprites_fly_behind (props' : Props) (a b M : Q) :
  size props = Fin a -> size props' = Fin b ->
  maxSizeToaster config = Fin M -> a <= b ->
  exists z z' : Z,
    zIndex config props = Fin (inject_Z z) /\
    zIndex config props' = Fin (inject_Z z') /\
    (z' <= z)%Z /\ (b <= M -> (0 <= z')%Z).
Proof.
  intros Ha Hb HM Hab. unfold zIndex. rewrite Ha, Hb, HM.
  cbn [Js.sub Js.neg Js.add Js.floor].
  do 2 eexists. split; [reflexivity |]. split; [reflexivity |]. split.
  - apply Qfloor_resp_le. lra.
  - intros HbM. change 0%Z with (Qfloor 0). apply Qfloor_resp_le. lra.
Qed.

End Flight.

(** ** The selector and the variants of the application *)

Section Variants.

Local Open Scope Q_scope.

Variable StringToNumber : string -> number.
Variable config : Config.

(** X24. The Christmas selector, for [Math.random()] in [[0, 1)]: it
    returns Santa exactly when the first draw is below [santaFreq];
    otherwise, for a list of [n >= 1] Christmas toasters, it returns the
    toaster at position [k] exactly for the second draws of
    [[k / n, (k + 1) / n)], so every toaster of the list is as likely as
    any other. *)
Theorem christmas_pick_is_uniform (data : Entity) (type : kind) (w : World) :
  unit_draws w -> christmasToasters config <> [] ->
  let picked := fst (run (ChristmasMode.chooseImageType config data type) w) in
  let n := inject_Z (Z.of_nat (List.length (christmasToasters config))) in
  ((Fin (draw w 0) <? santaFreq config)%js = true -> picked = Some "santa") /\
  ((Fin (draw w 0) <? santaFreq config)%js = false ->
   exists k : nat,
     (k < List.length (christmasToasters config))%nat /\
     picked = nth_error (christmasToasters config) k /\
     inject_Z (Z.of_nat k) / n <= draw w 1 < inject_Z (Z.of_nat k + 1) / n).
Proof.
  intros Hw Hne picked n. unfold picked. rewrite run_christmas.
  split; [intros ->; reflexivity |]. intros ->.
  set (len := Z.of_nat (List.length (christmasToasters config))).
  assert (Hlen : (1 <= len)%Z).
  { unfold len. destruct (christmasToasters config); [congruence |].
    simpl List.length. lia. }
  pose proof (unit_draws_draw w 1 Hw) as Hu.
  pose proof (floor_scaled_draw (draw w 1) len Hu Hlen) as Hfl.
  cbn [Js.mul Js.length Js.floor]. fold len.
  set (z := Qfloor (draw w 1 * inject_Z len)) in *.
  assert (Hn : 0 < inject_Z len)
    by (change 0 with (inject_Z 0); rewrite <- Zlt_Qlt; lia).
  exists (Z.to_nat z). split; [unfold len in Hfl; lia |]. split.
  - unfold Js.index. rewrite Qfloor_Z.
    assert (E : Qeq_bool (inject_Z z) (inject_Z z) = true)
      by (apply Qeq_bool_iff; reflexivity).
    rewrite E. destruct (Z.leb_spec 0 z); [reflexivity | lia].
  - rewrite Z2Nat.id by lia. unfold n. fold len.
    pose proof (Qfloor_le (draw w 1 * inject_Z len)) as Hlo.
    pose proof (Qlt_floor (draw w 1 * inject_Z len)) as Hhi.
    fold z in Hlo, Hhi. split.
    + apply Qle_shift_div_r; [exact Hn | exact Hlo].
    + apply Qlt_shift_div_l; [exact Hn | exact Hhi].
Qed.

(** X25. The single-file variant of the application agrees with the
    modular one: its selector returns what the selector that App.js hands
    to [FlyingItem] returns, from the same draws, and its [preloadImages]
    fills the cache as the [preloadImages] of the mode in force does. *)
Theorem single_file_agrees_with_modules
  (props : FlyingItem.Props) (w : World) (PUBLIC_URL : string)
  (imageCache : Cache) :
  run (SingleFile.imgType StringToNumber config (FlyingItem.data props)
         (FlyingItem.type props)) w =
  run (FlyingItem.imgType (App.chooseImageType StringToNumber config) props) w
  /\
  SingleFile.preloadImages config PUBLIC_URL imageCache =
  App.preloadImages config PUBLIC_URL imageCache.
Proof.
  split.
  - unfold FlyingItem.imgType. rewrite imgType_is_mode_dispatch. reflexivity.
  - unfold SingleFile.preloadImages, SingleFile.allImagesToLoad,
      App.preloadImages, ChristmasMode.preloadImages,
      ChristmasMode.allImagesToLoad, NormalMode.preloadImages.
    destruct (christmasMode config); reflexivity.
Qed.

End Variants.

(** ** The keyboard *)

Section Keyboard.

Import App.

(** X26. The key handler toggles and nothing more: pressing a key twice
    restores the state, two key presses have the same effect in either
    order, a key other than p, P, m and M changes nothing, and no key
    touches the displayed data, the status text or [imagesLoaded]. *)
Theorem keys_toggle_pause_and_mute (key key' : string) (s : State) :
  handleKeyPress key (handleKeyPress key s) = s /\
  handleKeyPress key (handleKeyPress key' s) =
    handleKeyPress key' (handleKeyPress key s) /\
  (key <> "p" -> key <> "P" -> key <> "m" -> key <> "M" ->
   handleKeyPress key s = s) /\
  dataQueue (handleKeyPress key s) = dataQueue s /\
  lastUpdated (handleKeyPress key s) = lastUpdated s /\
  imagesLoaded (handleKeyPress key s) = imagesLoaded s.
Proof.
  destruct s as [q l i m p]. unfold handleKeyPress.
  repeat split.
  - destruct (String.eqb key "p"), (String.eqb key "P"),
      (String.eqb key "m"), (String.eqb key "M"); simpl;
      rewrite ?negb_involutive; reflexivity.
  - destruct (String.eqb key "p"), (String.eqb key "P"),
      (String.eqb key "m"), (String.eqb key "M"),
      (String.eqb key' "p"), (String.eqb key' "P"),
      (String.eqb key' "m"), (String.eqb key' "M"); reflexivity.
  - intros H1 H2 H3 H4.
    apply String.eqb_neq in H1, H2, H3, H4. rewrite H1, H2, H3, H4.
    reflexivity.
  - destruct (_ || _), (_ || _); reflexivity.
  - destruct (_ || _), (_ || _); reflexivity.
  - destruct (_ || _), (_ || _); reflexivity.
Qed.

End Keyboard.

(** * The further properties at sample inputs *)

Lemma christmas_selection_is_preloaded_witness :
  fst (run (ChristmasMode.chooseImageType Sample.christmasThree Sample.pod80
              toast) (Sample.world [1 # 2; 1 # 2])) = Some "reindeer" /\
  cache_get "reindeer"
    (ChristmasMode.preloadImages Sample.christmasThree "/toasters" [])
  = Some {| src := "/toasters/xmas/reindeer.gif" |}.
Proof.
  split; [reflexivity |].
  exact (christmas_selection_is_preloaded "/toasters" Sample.christmasThree
           Sample.pod80 toast (Sample.world [1 # 2; 1 # 2]) [] "reindeer"
           eq_refl).
Defined.

Lemma render_reads_are_preloaded_witness :
  let w := Sample.world [1 # 2; 1 # 2] in
  let imgType :=
    fst (run (App.chooseImageType Sample.stringToNumber Sample.christmasThree
                Sample.pod80 toast) w) in
  FlyingItem.cacheReads Sample.christmasCop (FlyingItem.cacheKey imgType)
    = Some ["police"; "reindeer"] /\
  imgType <> None /\
  Forall (fun key =>
            exists img,
              cache_get key
                (App.preloadImages Sample.christmasThree "/toasters" [])
              = Some img)
         ["police"; "reindeer"].
Proof.
  intros w imgType.
  assert (Hsome : imgType <> None) by discriminate.
  split; [reflexivity |]. split; [exact Hsome |].
  exact (proj1 (render_reads_are_preloaded "/toasters" Sample.stringToNumber
                  Sample.christmasThree Sample.pod80 toast w
                  Sample.christmasCop ["police"; "reindeer"] [] eq_refl)
           Hsome).
Defined.

Lemma loading_ends_with_a_full_run_witness :
  App.imagesLoaded App.initialState = false /\
  Forall (fun h => forall events, h = App.preloaded events ->
            List.length events =
            List.length (App.imagesToPreload defaultConfig))
         Sample.failingRuns /\
  (forall events, In (App.preloaded events) Sample.failingRuns ->
                  In onerror events) /\
  fst (run (App.render defaultConfig
              (App.history defaultConfig Sample.failingRuns App.initialState))
         (Sample.world [])) = None.
Proof.
  assert (Hruns : Forall (fun h => forall events, h = App.preloaded events ->
            List.length events =
            List.length (App.imagesToPreload defaultConfig))
         Sample.failingRuns).
  { repeat constructor; intros events H;
      [injection H as <- | discriminate H | injection H as <- | discriminate H];
      reflexivity. }
  assert (Herr : forall events, In (App.preloaded events) Sample.failingRuns ->
                                In onerror events).
  { intros events [H | [H | [H | [H | []]]]];
      [injection H as <- | discriminate H | injection H as <- | discriminate H];
      apply in_or_app; right; left; reflexivity. }
  split; [reflexivity |]. split; [exact Hruns |]. split; [exact Herr |].
  exact (proj2 (loading_ends_with_a_full_run defaultConfig Sample.failingRuns
                  App.initialState eq_refl Hruns)
           Herr (Sample.world [])).
Defined.

Lemma no_source_skips_or_clears_witness :
  let s' := App.fetchDataAndUpdate defaultConfig
              (Some "2024-11-05T10:00:00Z (remote)")
              (App.fetchData defaultConfig None None) Sample.shown1 in
  snd (App.fetchData defaultConfig None None) = "none" /\
  App.queue_pods (App.dataQueue s') = [] /\
  App.queue_nodes (App.dataQueue s') = [] /\
  App.lastUpdated s' = Some "null (none)".
Proof.
  intros s'. split; [reflexivity |].
  exact (proj2 (no_source_skips_or_clears defaultConfig None None
                  (Some "2024-11-05T10:00:00Z (remote)") Sample.shown1
                  eq_refl)
           ltac:(discriminate)).
Defined.

Lemma refresh_never_returns_to_loading_witness :
  let s' := App.fetchDataAndUpdate defaultConfig None
              (Sample.snapshot2, "remote") Sample.running in
  App.imagesLoaded Sample.running = true /\
  App.noUpdate (App.lastUpdated Sample.running) = false /\
  App.noUpdate (App.lastUpdated s') = false /\
  exists items,
    fst (run (App.render defaultConfig s') (Sample.world [])) = Some items.
Proof.
  intros s'. split; [reflexivity |]. split; [reflexivity |].
  exact (refresh_never_returns_to_loading defaultConfig None
           (Sample.snapshot2, "remote") Sample.running (Sample.world [])
           eq_refl eq_refl).
Defined.

Lemma pod_size_is_clamped_witness :
  memoryUsage Sample.pod80 = Fin 500 /\
  (0 <= 500)%Q /\ (0 < 1000)%Q /\ (100 <= 400)%Q /\
  exists sz : Q,
    FlyingItem.size
      (fst (run (App.podItem defaultConfig Sample.running Sample.pod80 0)
              (Sample.world []))) = Fin sz /\
    (100 <= sz <= 400)%Q.
Proof.
  assert (H0 : (0 <= 500)%Q) by lra.
  assert (H1 : (0 < 1000)%Q) by lra.
  assert (H2 : (100 <= 400)%Q) by lra.
  split; [reflexivity |].
  split; [exact H0 |]. split; [exact H1 |]. split; [exact H2 |].
  destruct (pod_size_is_clamped defaultConfig Sample.running Sample.pod80 0
              (Sample.world []) 500 1000 100 400
              eq_refl eq_refl eq_refl eq_refl H0 H1 H2)
    as [sz [Hsz [Hrange _]]].
  exists sz. split; [exact Hsz | exact Hrange].
Defined.

Lemma node_size_is_clamped_witness :
  memoryUsage Sample.nodeA = Fin (1 # 2) /\
  (0 <= 1 # 2)%Q /\ (200 <= 600)%Q /\
  exists sz : Q,
    FlyingItem.size
      (fst (run (App.nodeItem defaultConfig Sample.running Sample.nodeA 0)
              (Sample.world []))) = Fin sz /\
    (200 <= sz <= 600)%Q.
Proof.
  assert (H0 : (0 <= 1 # 2)%Q) by lra.
  assert (H1 : (200 <= 600)%Q) by lra.
  split; [reflexivity |]. split; [exact H0 |]. split; [exact H1 |].
  destruct (node_size_is_clamped defaultConfig Sample.running Sample.nodeA 0
              (Sample.world []) (1 # 2) 200 600
              eq_refl eq_refl eq_refl H0 H1)
    as [sz [Hsz [Hrange _]]].
  exists sz. split; [exact Hsz | exact Hrange].
Defined.

Lemma sprites_are_staggered_witness :
  App.imagesLoaded Sample.running = true /\
  App.noUpdate (App.lastUpdated Sample.running) = false /\
  exists items : list FlyingItem.Props,
    fst (run (App.render defaultConfig Sample.running) (Sample.world []))
      = Some items /\
    List.length items = 2%nat.
Proof.
  split; [reflexivity |]. split; [reflexivity |].
  destruct (sprites_are_staggered defaultConfig Sample.running
              (Sample.world []) eq_refl eq_refl)
    as [items [Hitems [Hlen _]]].
  exists items. split; [exact Hitems | exact Hlen].
Defined.

Lemma initial_durations_in_range_witness :
  App.imagesLoaded Sample.running = true /\
  App.noUpdate (App.lastUpdated Sample.running) = false /\
  (15000 <= 20000)%Q /\
  unit_draws (Sample.world [1 # 2; 1 # 4]) /\
  exists items : list FlyingItem.Props,
    fst (run (App.render defaultConfig Sample.running)
           (Sample.world [1 # 2; 1 # 4])) = Some items /\
    Forall (fun item =>
              exists d : Q,
                FlyingItem.initialDuration item = Fin d /\
                (15000 <= d <= 20000)%Q)
           items.
Proof.
  assert (Hle : (15000 <= 20000)%Q) by lra.
  assert (Hw : unit_draws (Sample.world [1 # 2; 1 # 4])).
  { apply unit_draws_sample. repeat constructor; vm_compute; congruence. }
  split; [reflexivity |]. split; [reflexivity |].
  split; [exact Hle |]. split; [exact Hw |].
  exact (initial_durations_in_range defaultConfig Sample.running
           (Sample.world [1 # 2; 1 # 4]) 15000 20000
           eq_refl eq_refl eq_refl eq_refl Hle Hw).
Defined.

Lemma path_starts_and_ends_off_screen_witness :
  let w := Sample.world [1 # 4; 1 # 2; 1 # 2; 1 # 2] in
  (0 < 250)%Q /\ (0 < 1920)%Q /\ (0 < 1080)%Q /\ unit_draws w /\
  exists sx sy ex ey : Q,
    fst (run (FlyingItem.generateRandomPath Sample.window Sample.props) w) =
      {| FlyingItem.startX := Fin sx; FlyingItem.startY := Fin sy;
         FlyingItem.endX := Fin ex; FlyingItem.endY := Fin ey |} /\
    (sy == - (2 * 250))%Q /\ (1920 <= ex)%Q.
Proof.
  intros w.
  assert (Hz : (0 < 250)%Q) by lra.
  assert (HW : (0 < 1920)%Q) by lra.
  assert (HH : (0 < 1080)%Q) by lra.
  assert (Hw : unit_draws w).
  { apply unit_draws_sample. repeat constructor; vm_compute; congruence. }
  split; [exact Hz |]. split; [exact HW |]. split; [exact HH |].
  split; [exact Hw |].
  destruct (path_starts_and_ends_off_screen Sample.window Sample.props w
              250 1920 1080 eq_refl eq_refl eq_refl Hz HW HH Hw)
    as [sx [sy [ex [ey [Hpath [Htop _]]]]]].
  assert (Hdraw : (draw w 0 < 1 # 2)%Q) by (vm_compute; reflexivity).
  destruct (Htop Hdraw) as [Hsy [_ [[Hex _] _]]].
  exists sx, sy, ex, ey. split; [exact Hpath |]. split; [exact Hsy | exact Hex].
Defined.

Lemma position_is_on_the_path_witness :
  let p := ((16300 - 1000) / 15000)%Q in
  FlyingItem.progress (Fin 16300) Sample.inFlight = Fin p /\
  (1 < p)%Q /\
  exists x y : Q,
    FlyingItem.position
      (fst (fst (run (FlyingItem.moveItem defaultConfig Sample.window
                        Sample.props (Fin 16300) Sample.inFlight)
                   (Sample.world []))))
      = Some (Fin x, Fin y) /\
    (x == 0 + (1920 - 0) * p)%Q /\ (1920 < x)%Q /\ (1080 < y)%Q.
Proof.
  intros p.
  assert (Hp : (1 < p)%Q) by (vm_compute; reflexivity).
  split; [reflexivity |]. split; [exact Hp |].
  destruct (position_is_on_the_path defaultConfig Sample.window Sample.props
              (Fin 16300) Sample.inFlight (Sample.world []) p 0 0 1920 1080
              eq_refl eq_refl)
    as [x [y [Hpos [Hx [_ [_ Hover]]]]]].
  exists x, y. split; [exact Hpos |]. split; [exact Hx |].
  split; [apply (Hover Hp) | apply (Hover Hp)]; vm_compute; reflexivity.
Defined.

Lemma first_tick_starts_the_leg_witness :
  let s' := fst (fst (run (FlyingItem.moveItem defaultConfig Sample.window
                             Sample.props (Fin 1000) Sample.mounted)
                        (Sample.world []))) in
  FlyingItem.unset (FlyingItem.startTimeRef Sample.mounted) = true /\
  ~ (15000 == 0)%Q /\
  FlyingItem.startTimeRef s' = Some (Fin 1000).
Proof.
  intros s'.
  assert (Hd : ~ (15000 == 0)%Q) by (vm_compute; discriminate).
  split; [reflexivity |]. split; [exact Hd |].
  exact (proj1 (first_tick_starts_the_leg defaultConfig Sample.window
                  Sample.props 1000 15000 Sample.mounted (Sample.world [])
                  0 0 1920 1080 eq_refl eq_refl Hd eq_refl)).
Defined.

Lemma police_sound_conditions_witness :
  let w := Sample.world [1 # 2] in
  let r := fst (run (FlyingItem.moveItem defaultConfig Sample.window
                       Sample.unmuted (Fin 19500) Sample.copOnPatrol) w) in
  let i := (Js.floor (Fin (1 # 2) * Fin 14) + Fin 1)%js in
  In (FlyingItem.PlayPoliceSound i) (snd r) /\
  unit_draws w /\
  FlyingItem.audioPlayed (fst r) = true /\
  exists k : Z, Js.whole i = Some k /\ (1 <= k <= 14)%Z.
Proof.
  intros w r i.
  assert (Hin : In (FlyingItem.PlayPoliceSound i) (snd r))
    by (left; reflexivity).
  assert (Hw : unit_draws w).
  { apply unit_draws_sample. repeat constructor; vm_compute; congruence. }
  split; [exact Hin |]. split; [exact Hw |].
  destruct (police_sound_conditions defaultConfig Sample.window Sample.unmuted
              (Fin 19500) Sample.copOnPatrol w i Hin)
    as [_ [_ [_ [_ [_ [_ [Hplayed [_ Hindex]]]]]]]].
  split; [exact Hplayed |].
  exact (Hindex 14%Z eq_refl ltac:(lia) Hw).
Defined.

Lemma one_sound_per_leg_witness :
  let timestamps := [Fin 19500; Fin 20000; Fin 21000] in
  let played :=
    fst (fst (FlyingItem.sounds defaultConfig Sample.window Sample.unmuted
                timestamps Sample.copOnPatrol (Sample.world []))) in
  FlyingItem.startTimeRef Sample.copOnPatrol = Some (Fin 17000) /\
  FlyingItem.unset (Some (Fin 17000)) = false /\
  Forall (fun timestamp =>
            ((timestamp - Fin 17000)
             / FlyingItem.duration Sample.copOnPatrol <? Fin 1)%js = true)
         timestamps /\
  (List.length played <= 1)%nat.
Proof.
  intros timestamps played.
  assert (Hleg : Forall (fun timestamp =>
            ((timestamp - Fin 17000)
             / FlyingItem.duration Sample.copOnPatrol <? Fin 1)%js = true)
         timestamps) by (repeat constructor).
  split; [reflexivity |]. split; [reflexivity |]. split; [exact Hleg |].
  exact (proj1 (one_sound_per_leg defaultConfig Sample.window Sample.unmuted
                  timestamps Sample.copOnPatrol (Sample.world [])
                  (Fin 17000) eq_refl eq_refl Hleg)).
Defined.

Lemma toaster_never_has_butter_witness :
  let s := fst (FlyingItem.ticks defaultConfig Sample.window Sample.nodeProps
                  [Fin 1000; Fin 16000] Sample.mounted
                  (Sample.world Sample.butteredZoomie)) in
  FlyingItem.type Sample.nodeProps = toaster /\
  FlyingItem.reachable defaultConfig Sample.window Sample.nodeProps s /\
  FlyingItem.hasButter s = false /\ FlyingItem.butterSlices s = Fin 0.
Proof.
  intros s.
  assert (Hr : FlyingItem.reachable defaultConfig Sample.window
                 Sample.nodeProps s).
  { apply ticks_reachable.
    exact (FlyingItem.reachable_mount defaultConfig Sample.window
             Sample.nodeProps "00000000-0000-4000-8000-000000000000" Sample.path0). }
  split; [reflexivity |]. split; [exact Hr |].
  exact (toaster_never_has_butter defaultConfig Sample.window Sample.nodeProps
           s eq_refl Hr).
Defined.

Lemma cop_is_a_zoomie_witness :
  let s := Sample.after [Fin 1000; Fin 16000] [] in
  FlyingItem.reachable defaultConfig Sample.window Sample.props s /\
  FlyingItem.isCop s = true /\
  FlyingItem.isZoomie s = true /\ copsAndRobbers defaultConfig = true.
Proof.
  intros s.
  assert (Hr : FlyingItem.reachable defaultConfig Sample.window Sample.props s).
  { apply ticks_reachable. apply FlyingItem.reachable_mount. }
  split; [exact Hr |]. split; [reflexivity |].
  exact (cop_is_a_zoomie defaultConfig Sample.window Sample.props s Hr
           eq_refl).
Defined.

Lemma slices_only_on_buttered_zoomie_witness :
  let s := Sample.after [Fin 1000; Fin 16000] Sample.butteredZoomie in
  FlyingItem.reachable defaultConfig Sample.window Sample.props s /\
  Js.truthy (FlyingItem.butterSlices s) = true /\
  FlyingItem.hasButter s = true /\ FlyingItem.isZoomie s = true /\
  FlyingItem.isCop s = false /\ FlyingItem.type Sample.props = toast.
Proof.
  intros s.
  assert (Hr : FlyingItem.reachable defaultConfig Sample.window Sample.props s).
  { apply ticks_reachable. apply FlyingItem.reachable_mount. }
  split; [exact Hr |]. split; [reflexivity |].
  exact (slices_only_on_buttered_zoomie defaultConfig Sample.window
           Sample.props s Hr eq_refl).
Defined.

Lemma butter_slices_make_an_array_witness :
  let w := Sample.world Sample.butteredZoomie in
  let s := fst (fst (run (FlyingItem.moveItem defaultConfig Sample.window
                            Sample.props (Fin 16000) Sample.inFlight) w)) in
  (0 <= 10)%Q /\ (10 < 4294967295)%Q /\
  FlyingItem.reachable_unit defaultConfig Sample.window Sample.props s /\
  exists n : nat,
    FlyingItem.Array (FlyingItem.butterSlices s) = Some n /\
    (Z.of_nat n <= 11)%Z.
Proof.
  intros w s.
  assert (H0 : (0 <= 10)%Q) by lra.
  assert (H1 : (10 < 4294967295)%Q) by lra.
  assert (Hw0 : unit_draws (Sample.world [])).
  { apply unit_draws_sample. constructor. }
  assert (Hw : unit_draws w).
  { apply unit_draws_sample. repeat constructor; vm_compute; congruence. }
  assert (Hr : FlyingItem.reachable_unit defaultConfig Sample.window
                 Sample.props s).
  { apply FlyingItem.unit_moveItem; [exact Hw |].
    exact (FlyingItem.unit_moveItem defaultConfig Sample.window Sample.props
             (Fin 1000) Sample.mounted (Sample.world []) Hw0
             (FlyingItem.unit_mount defaultConfig Sample.window Sample.props
                "00000000-0000-4000-8000-000000000000" Sample.path0)). }
  split; [exact H0 |]. split; [exact H1 |]. split; [exact Hr |].
  destruct (butter_slices_make_an_array defaultConfig Sample.window
              Sample.props s 10 eq_refl H0 H1 Hr) as [n [Hn [Hb _]]].
  exists n. split; [exact Hn | exact Hb].
Defined.

Lemma duration_stays_in_range_witness :
  let w := Sample.world Sample.butteredZoomie in
  let s := fst (fst (run (FlyingItem.moveItem defaultConfig Sample.window
                            Sample.props (Fin 16000) Sample.inFlight) w)) in
  (0 < 15000)%Q /\ (15000 <= 20000)%Q /\
  (15000 / 3 <= 15000 <= 20000)%Q /\
  FlyingItem.reachable_unit defaultConfig Sample.window Sample.props s /\
  exists d : Q,
    FlyingItem.duration s = Fin d /\ (15000 / 3 <= d <= 20000)%Q /\ (0 < d)%Q.
Proof.
  intros w s.
  assert (H0 : (0 < 15000)%Q) by lra.
  assert (H1 : (15000 <= 20000)%Q) by lra.
  assert (H2 : (15000 / 3 <= 15000 <= 20000)%Q)
    by (split; vm_compute; discriminate).
  assert (Hw0 : unit_draws (Sample.world [])).
  { apply unit_draws_sample. constructor. }
  assert (Hw : unit_draws w).
  { apply unit_draws_sample. repeat constructor; vm_compute; congruence. }
  assert (Hr : FlyingItem.reachable_unit defaultConfig Sample.window
                 Sample.props s).
  { apply FlyingItem.unit_moveItem; [exact Hw |].
    exact (FlyingItem.unit_moveItem defaultConfig Sample.window Sample.props
             (Fin 1000) Sample.mounted (Sample.world []) Hw0
             (FlyingItem.unit_mount defaultConfig Sample.window Sample.props
                "00000000-0000-4000-8000-000000000000" Sample.path0)). }
  split; [exact H0 |]. split; [exact H1 |]. split; [exact H2 |].
  split; [exact Hr |].
  exact (duration_stays_in_range defaultConfig Sample.window Sample.props s
           15000 20000 15000 eq_refl eq_refl H0 H1 eq_refl H2 Hr).
Defined.

Lemma larger_sprites_fly_behind_witness :
  (250 <= 400)%Q /\
  exists z z' : Z,
    FlyingItem.zIndex defaultConfig Sample.props = Fin (inject_Z z) /\
    FlyingItem.zIndex defaultConfig Sample.nodeProps = Fin (inject_Z z') /\
    (z' <= z)%Z.
Proof.
  assert (H : (250 <= 400)%Q) by lra.
  split; [exact H |].
  destruct (larger_sprites_fly_behind defaultConfig Sample.props
              Sample.nodeProps 250 400 600 eq_refl eq_refl eq_refl H)
    as [z [z' [Hz [Hz' [Hle _]]]]].
  exists z, z'. split; [exact Hz |]. split; [exact Hz' | exact Hle].
Defined.

Lemma christmas_pick_is_uniform_witness :
  let w := Sample.world [1 # 2; 1 # 2] in
  unit_draws w /\ christmasToasters Sample.christmasThree <> [] /\
  (Fin (draw w 0) <? santaFreq Sample.christmasThree)%js = false /\
  exists k : nat,
    (k < 3)%nat /\
    fst (run (ChristmasMode.chooseImageType Sample.christmasThree
                Sample.pod80 toast) w)
    = nth_error ["elf"; "reindeer"; "snowman"] k.
Proof.
  intros w.
  assert (Hw : unit_draws w).
  { apply unit_draws_sample. repeat constructor; vm_compute; congruence. }
  assert (Hne : christmasToasters Sample.christmasThree <> [])
    by discriminate.
  split; [exact Hw |]. split; [exact Hne |]. split; [reflexivity |].
  destruct (proj2 (christmas_pick_is_uniform Sample.christmasThree
                     Sample.pod80 toast w Hw Hne) eq_refl)
    as [k [Hk [Hpick _]]].
  exists k. split; [exact Hk | exact Hpick].
Defined.
